(** * Breakpoint Bucket: the group store, the breakpoint mirror and the tree view

    A shallow embedding of the extension's [BreakpointManager]
    (breakpointManager.ts), of the three-state computation of the tree provider
    (treeProvider.ts, types.ts) and of the commands and the checkbox handler of
    extension.ts, followed by the properties of the design document.

    The manager is a TypeScript class with two [Map]s, a workspace store and an
    event emitter; its methods become functions from [State] to [State].  The
    editor (the [vscode.debug] name space) is the only collaborator whose state
    the manager reads and writes; it is embedded as a list of breakpoint objects,
    an allocator of object identities and the change notifications, delivered
    at once or from a queue. *)

From Stdlib Require Import List String Bool Arith Lia DecimalString DecimalNat.
Import ListNotations.
Open Scope string_scope.

(** ** JavaScript [Map] with string keys

    A [Map] iterates in insertion order, and [getGroupForBreakpoint] returns the
    first group of that order, so the order is part of the model: a map is an
    association list.  [set] on a key that is present replaces the value where it
    stands, on an absent key it appends. *)

Definition JsMap (V : Type) : Type := list (string * V).

Fixpoint map_get {V : Type} (k : string) (m : JsMap V) : option V :=
  match m with
  | [] => None
  | (k', v) :: m' => if k' =? k then Some v else map_get k m'
  end.

Fixpoint map_set {V : Type} (k : string) (v : V) (m : JsMap V) : JsMap V :=
  match m with
  | [] => [(k, v)]
  | (k', v') :: m' =>
      if k' =? k then (k', v) :: m' else (k', v') :: map_set k v m'
  end.

Fixpoint map_delete {V : Type} (k : string) (m : JsMap V) : JsMap V :=
  match m with
  | [] => []
  | (k', v') :: m' => if k' =? k then m' else (k', v') :: map_delete k m'
  end.

(** Assignment to a field of the object stored under [k]: the entry keeps its
    place and its key, the value is changed by [f]. *)
Fixpoint map_adjust {V : Type} (f : V -> V) (k : string) (m : JsMap V) : JsMap V :=
  match m with
  | [] => []
  | (k', v) :: m' =>
      if k' =? k then (k', f v) :: m' else (k', v) :: map_adjust f k m'
  end.

Definition map_keys {V : Type} (m : JsMap V) : list string := map fst m.
Definition map_values {V : Type} (m : JsMap V) : list V := map snd m.

(** [Array.prototype.includes] on an array of strings. *)
Definition includes (l : list string) (x : string) : bool :=
  existsb (fun y => y =? x) l.

(** ** Data model (types.ts) *)

(** [hitCount] is [parseInt(bp.hitCondition)]; nothing in the extension reads the
    number, so it is kept as the unevaluated call. *)
Inductive JsNumber : Type :=
| parseInt (s : string).

Record BreakpointGroup : Type := mkGroup {
  g_id : string;
  g_name : string;
  g_breakpoints : list string;
  g_enabled : bool;
  g_description : option string
}.

Record BreakpointInfo : Type := mkInfo {
  b_id : string;
  b_file : string;
  b_line : nat;
  b_column : option nat;
  b_condition : option string;
  b_hitCount : option JsNumber;
  b_logMessage : option string;
  b_enabled : bool
}.

Definition group_with_breakpoints (l : list string) (g : BreakpointGroup) :=
  mkGroup (g_id g) (g_name g) l (g_enabled g) (g_description g).

Definition group_with_enabled (e : bool) (g : BreakpointGroup) :=
  mkGroup (g_id g) (g_name g) (g_breakpoints g) e (g_description g).

Definition group_with_name (n : string) (g : BreakpointGroup) :=
  mkGroup (g_id g) n (g_breakpoints g) (g_enabled g) (g_description g).

Definition info_with_enabled (e : bool) (b : BreakpointInfo) :=
  mkInfo (b_id b) (b_file b) (b_line b) (b_column b) (b_condition b)
         (b_hitCount b) (b_logMessage b) e.

(** ** The editor's breakpoints ([vscode.debug])

    The editor is not code of the extension.  A breakpoint is an object with an
    identity of its own ([uid]); a source breakpoint has a location, the flag,
    a condition, a hit condition and a log message; a change notification names
    the objects added, removed and changed. *)

Record Location : Type := mkLocation {
  fsPath : string;
  startLine : nat;
  startCharacter : nat
}.

Record SourceBreakpoint : Type := mkSource {
  sb_uid : nat;
  sb_location : Location;
  sb_enabled : bool;
  sb_condition : option string;
  sb_hitCondition : option string;
  sb_logMessage : option string
}.

Inductive Breakpoint : Type :=
| Source (b : SourceBreakpoint)
| Function (uid : nat) (enabled : bool) (functionName : string).

Definition bp_uid (bp : Breakpoint) : nat :=
  match bp with
  | Source b => sb_uid b
  | Function u _ _ => u
  end.

Record BreakpointsChangeEvent : Type := mkEvent {
  added : list Breakpoint;
  removed : list Breakpoint;
  changed : list Breakpoint
}.

(** ** What the extension does to the outside, in order *)

Inductive Effect : Type :=
| Persisted (data : list BreakpointGroup)   (* workspaceState.update('breakpointGroups', data) *)
| GroupsChanged                             (* _onDidChangeGroups.fire() *)
| InformationMessage (msg : string)
| WarningMessage (msg : string).

(** When the editor calls the listeners of [onDidChangeBreakpoints]: inside the
    call that changed the breakpoints, or later, from the queue of the event
    loop.  The extension is written for either, and both are modelled. *)
Inductive Delivery : Type := AtOnce | Queued.

(** ** State: the manager's fields, the workspace store and the editor *)

Record State : Type := mkState {
  groups : JsMap BreakpointGroup;
  breakpoints : JsMap BreakpointInfo;
  workspaceState : list BreakpointGroup;
  effects : list Effect;
  vscodeBreakpoints : list Breakpoint;
  nextUid : nat;
  pending : list BreakpointsChangeEvent;
  delivery : Delivery
}.

Definition with_groups (g : JsMap BreakpointGroup) (st : State) : State :=
  mkState g (breakpoints st) (workspaceState st) (effects st)
          (vscodeBreakpoints st) (nextUid st) (pending st) (delivery st).

Definition with_breakpoints (b : JsMap BreakpointInfo) (st : State) : State :=
  mkState (groups st) b (workspaceState st) (effects st)
          (vscodeBreakpoints st) (nextUid st) (pending st) (delivery st).

Definition with_workspaceState (w : list BreakpointGroup) (st : State) : State :=
  mkState (groups st) (breakpoints st) w (effects st)
          (vscodeBreakpoints st) (nextUid st) (pending st) (delivery st).

Definition emit (e : Effect) (st : State) : State :=
  mkState (groups st) (breakpoints st) (workspaceState st) (effects st ++ [e])
          (vscodeBreakpoints st) (nextUid st) (pending st) (delivery st).

Definition with_host (l : list Breakpoint) (st : State) : State :=
  mkState (groups st) (breakpoints st) (workspaceState st) (effects st)
          l (nextUid st) (pending st) (delivery st).

Definition with_nextUid (n : nat) (st : State) : State :=
  mkState (groups st) (breakpoints st) (workspaceState st) (effects st)
          (vscodeBreakpoints st) n (pending st) (delivery st).

Definition with_pending (p : list BreakpointsChangeEvent) (st : State) : State :=
  mkState (groups st) (breakpoints st) (workspaceState st) (effects st)
          (vscodeBreakpoints st) (nextUid st) p (delivery st).

(** ** BreakpointManager (breakpointManager.ts) *)

Definition decimal (n : nat) : string :=
  NilEmpty.string_of_uint (Nat.to_uint n).

(** [`${fsPath}:${line + 1}`] *)
Definition generateBreakpointId (bp : SourceBreakpoint) : string :=
  fsPath (sb_location bp) ++ ":" ++ decimal (startLine (sb_location bp) + 1).

Definition saveGroups (st : State) : State :=
  let groupsData := map_values (groups st) in
  emit (Persisted groupsData) (with_workspaceState groupsData st).

Definition fireGroupsChanged (st : State) : State := emit GroupsChanged st.

Definition loadGroups (st : State) : State :=
  with_groups
    (fold_left (fun m group => map_set (g_id group) group m)
               (workspaceState st) (groups st))
    st.

(** A string is truthy when it is defined and not empty. *)
Definition truthy (s : option string) : bool :=
  match s with
  | Some x => negb (x =? "")
  | None => false
  end.

Definition toBreakpointInfo (bp : SourceBreakpoint) : BreakpointInfo :=
  mkInfo (generateBreakpointId bp)
         (fsPath (sb_location bp))
         (startLine (sb_location bp) + 1)
         (Some (startCharacter (sb_location bp)))
         (sb_condition bp)
         (if truthy (sb_hitCondition bp)
          then option_map parseInt (sb_hitCondition bp) else None)
         (sb_logMessage bp)
         (sb_enabled bp).

Definition mirrorOf (l : list Breakpoint) : JsMap BreakpointInfo :=
  fold_left
    (fun m bp =>
       match bp with
       | Source b => map_set (generateBreakpointId b) (toBreakpointInfo b) m
       | Function _ _ _ => m
       end)
    l [].

Definition syncBreakpoints (st : State) : State :=
  fireGroupsChanged (with_breakpoints (mirrorOf (vscodeBreakpoints st)) st).

Definition updateBreakpointStates (st : State) : State :=
  fireGroupsChanged
    (with_breakpoints
       (fold_left
          (fun m bp =>
             match bp with
             | Source b =>
                 map_adjust (info_with_enabled (sb_enabled b))
                            (generateBreakpointId b) m
             | Function _ _ _ => m
             end)
          (vscodeBreakpoints st) (breakpoints st))
       st).

(** The listener registered by [setupBreakpointListener]. *)
Definition onDidChangeBreakpoints (e : BreakpointsChangeEvent) (st : State) : State :=
  if (0 <? List.length (added e))%nat || (0 <? List.length (removed e))%nat
  then syncBreakpoints st
  else updateBreakpointStates st.

(** [createGroup]; [id] is the token [generateGroupId] draws from the clock and
    the random generator. *)
Definition createGroup (id name : string) (description : option string)
  (st : State) : State :=
  let group := mkGroup id name [] true description in
  fireGroupsChanged (saveGroups (with_groups (map_set id group (groups st)) st)).

Definition deleteGroup (groupId : string) (st : State) : State :=
  fireGroupsChanged (saveGroups (with_groups (map_delete groupId (groups st)) st)).

Definition renameGroup (groupId newName : string) (st : State) : State :=
  match map_get groupId (groups st) with
  | Some _ =>
      fireGroupsChanged
        (saveGroups
           (with_groups (map_adjust (group_with_name newName) groupId (groups st)) st))
  | None => st
  end.

Definition addBreakpointToGroup (breakpointId groupId : string) (st : State) : State :=
  match map_get groupId (groups st), map_get breakpointId (breakpoints st) with
  | Some group, Some _ =>
      if negb (includes (g_breakpoints group) breakpointId)
      then
        fireGroupsChanged
          (saveGroups
             (with_groups
                (map_adjust
                   (fun g => group_with_breakpoints (g_breakpoints g ++ [breakpointId]) g)
                   groupId (groups st))
                st))
      else st
  | _, _ => st
  end.

Definition removeBreakpointFromGroup (breakpointId groupId : string) (st : State)
  : State :=
  match map_get groupId (groups st) with
  | Some _ =>
      fireGroupsChanged
        (saveGroups
           (with_groups
              (map_adjust
                 (fun g =>
                    group_with_breakpoints
                      (filter (fun id => negb (id =? breakpointId)) (g_breakpoints g)) g)
                 groupId (groups st))
              st))
  | None => st
  end.

Definition getGroups (st : State) : list BreakpointGroup := map_values (groups st).

Definition getBreakpoints (st : State) : list BreakpointInfo :=
  map_values (breakpoints st).

(** [.map(id => this.breakpoints.get(id)).filter(bp => bp !== undefined)] *)
Fixpoint defined {A : Type} (l : list (option A)) : list A :=
  match l with
  | [] => []
  | Some x :: l' => x :: defined l'
  | None :: l' => defined l'
  end.

Definition getBreakpointsInGroup (groupId : string) (st : State)
  : list BreakpointInfo :=
  match map_get groupId (groups st) with
  | None => []
  | Some group =>
      defined (map (fun id => map_get id (breakpoints st)) (g_breakpoints group))
  end.

Definition getUngroupedBreakpoints (st : State) : list BreakpointInfo :=
  let allBreakpoints := map_values (breakpoints st) in
  let groupedBreakpointIds :=
    flat_map g_breakpoints (map_values (groups st)) in
  filter (fun bp => negb (includes groupedBreakpointIds (b_id bp))) allBreakpoints.

Definition getGroupForBreakpoint (breakpointId : string) (st : State)
  : option BreakpointGroup :=
  find (fun group => includes (g_breakpoints group) breakpointId)
       (map_values (groups st)).

Definition isBreakpointGrouped (breakpointId : string) (st : State) : bool :=
  match getGroupForBreakpoint breakpointId st with
  | Some _ => true
  | None => false
  end.

(** ** Three-state logic (treeProvider.ts, types.ts) *)

Inductive GroupState : Type := AllEnabled | Partial | AllDisabled.

Inductive TreeItemCheckboxState : Type := Unchecked | Checked.

Definition groupStateOf (breakpoints : list BreakpointInfo) : GroupState :=
  let enabledCount := List.length (filter b_enabled breakpoints) in
  if (List.length breakpoints =? 0)%nat then AllDisabled
  else if (enabledCount =? 0)%nat then AllDisabled
  else if (enabledCount =? List.length breakpoints)%nat then AllEnabled
  else Partial.

(** [BreakpointGroupItem.calculateGroupState], for an item that holds a manager. *)
Definition calculateGroupState (groupId : string) (st : State) : GroupState :=
  groupStateOf (getBreakpointsInGroup groupId st).

Definition getCheckboxState (s : GroupState) : TreeItemCheckboxState :=
  match s with
  | AllEnabled => Checked
  | AllDisabled => Unchecked
  | Partial => Unchecked
  end.

Definition groupStateText (s : GroupState) : string :=
  match s with
  | AllEnabled => "All Enabled"
  | Partial => "Partial"
  | AllDisabled => "All Disabled"
  end.

Record ResolvedGroupItem : Type := mkResolved {
  r_groupState : GroupState;
  r_checkboxState : TreeItemCheckboxState;
  r_label : string;
  r_tooltip : string
}.

(** [resolveTreeItem] on a [BreakpointGroupItem] of group [group]. *)
Definition resolveTreeItem (group : BreakpointGroup) (st : State) : ResolvedGroupItem :=
  let breakpoints := getBreakpointsInGroup (g_id group) st in
  let enabledCount := List.length (filter b_enabled breakpoints) in
  let groupState :=
    if (List.length breakpoints =? 0)%nat then AllDisabled
    else if (enabledCount =? 0)%nat then AllDisabled
    else if (enabledCount =? List.length breakpoints)%nat then AllEnabled
    else Partial in
  let tooltip :=
    g_name group ++ " - " ++ groupStateText groupState ++ " ("
      ++ decimal (List.length breakpoints) ++ " breakpoints)" in
  match groupState with
  | AllEnabled => mkResolved groupState Checked ("🪣 " ++ g_name group) tooltip
  | AllDisabled => mkResolved groupState Unchecked ("🪣 " ++ g_name group) tooltip
  | Partial =>
      mkResolved groupState Unchecked
        ("🪣 " ++ g_name group ++ " (" ++ decimal enabledCount ++ "/"
           ++ decimal (List.length breakpoints) ++ ")")
        tooltip
  end.


(** ** The editor's breakpoint API

    The three calls the manager makes: [vscode.debug.removeBreakpoints],
    [vscode.debug.addBreakpoints] and [new vscode.SourceBreakpoint]; and the
    event loop that hands change notifications to the manager's listener. *)

Definition isLive (bp : Breakpoint) (l : list Breakpoint) : bool :=
  existsb (fun b => (bp_uid b =? bp_uid bp)%nat) l.

Definition dropUid (u : nat) (l : list Breakpoint) : list Breakpoint :=
  filter (fun b => negb (bp_uid b =? u)%nat) l.

(** The objects of [bps] that are live are taken out, one after the other; the
    result is the list of those that were taken out and the remaining list. *)
Fixpoint removeEach (bps live : list Breakpoint) : list Breakpoint * list Breakpoint :=
  match bps with
  | [] => ([], live)
  | b :: rest =>
      if isLive b live
      then let (gone, live') := removeEach rest (dropUid (bp_uid b) live) in
           (b :: gone, live')
      else removeEach rest live
  end.

(** The objects of [bps] that are not live yet are appended. *)
Fixpoint addEach (bps live : list Breakpoint) : list Breakpoint * list Breakpoint :=
  match bps with
  | [] => ([], live)
  | b :: rest =>
      if isLive b live
      then addEach rest live
      else let (new, live') := addEach rest (live ++ [b]) in
           (b :: new, live')
  end.

(** Modelled from the spec: the change-notification channel of section 6.  The
    notification reaches the manager's listener at once, or waits in the queue
    of the event loop (section 5). *)
Definition post (e : BreakpointsChangeEvent) (st : State) : State :=
  match delivery st with
  | AtOnce => onDidChangeBreakpoints e st
  | Queued => with_pending (pending st ++ [e]) st
  end.

(** Modelled from the spec: [vscode.debug.removeBreakpoints], the editor's
    "atomic remove-set" of section 6.  The live list changes at once; a change
    notification is posted only when something was removed. *)
Definition removeBreakpoints (bps : list Breakpoint) (st : State) : State :=
  let (gone, live) := removeEach bps (vscodeBreakpoints st) in
  match gone with
  | [] => with_host live st
  | _ :: _ => post (mkEvent [] gone []) (with_host live st)
  end.

(** Modelled from the spec: [vscode.debug.addBreakpoints], the editor's "atomic
    add-set" of section 6, with its notification as for the removal. *)
Definition addBreakpoints (bps : list Breakpoint) (st : State) : State :=
  let (new, live) := addEach bps (vscodeBreakpoints st) in
  match new with
  | [] => with_host live st
  | _ :: _ => post (mkEvent new [] []) (with_host live st)
  end.

(** Modelled from the spec: [new vscode.SourceBreakpoint(location, enabled,
    condition, hitCondition, logMessage)], the "replacement object" of section
    4.4: an object whose identity no other object has. *)
Definition newSourceBreakpoint (location : Location) (enabled : bool)
  (condition hitCondition logMessage : option string) (st : State)
  : SourceBreakpoint * State :=
  (mkSource (nextUid st) location enabled condition hitCondition logMessage,
   with_nextUid (S (nextUid st)) st).

(** Modelled from the spec: the event loop of section 5, which hands the
    waiting notifications to the listener in order. *)
Fixpoint deliver (es : list BreakpointsChangeEvent) (st : State) : State :=
  match es with
  | [] => st
  | e :: rest => deliver rest (onDidChangeBreakpoints e st)
  end.

Definition settle (st : State) : State :=
  deliver (pending st) (with_pending [] st).

(** ** BreakpointManager: enabling and disabling *)

(** [vscodeBreakpoints.find(bp => bp instanceof vscode.SourceBreakpoint &&
    this.generateBreakpointId(bp) === breakpointId)] *)
Fixpoint findSourceBreakpoint (breakpointId : string) (l : list Breakpoint)
  : option SourceBreakpoint :=
  match l with
  | [] => None
  | Source b :: l' =>
      if generateBreakpointId b =? breakpointId then Some b
      else findSourceBreakpoint breakpointId l'
  | Function _ _ _ :: l' => findSourceBreakpoint breakpointId l'
  end.

(** The body shared by [toggleBreakpoint] and [updateGroupBreakpoints]: a new
    object with the old one's location, condition, hit condition and log
    message, the old one removed, the new one added. *)
Definition replaceBreakpoint (old : SourceBreakpoint) (enabled : bool) (st : State)
  : State :=
  let (newBreakpoint, st1) :=
    newSourceBreakpoint (sb_location old) enabled (sb_condition old)
                        (sb_hitCondition old) (sb_logMessage old) st in
  addBreakpoints [Source newBreakpoint] (removeBreakpoints [Source old] st1).

Definition toggleBreakpoint (breakpointId : string) (enabled : bool) (st : State)
  : State :=
  match findSourceBreakpoint breakpointId (vscodeBreakpoints st) with
  | Some vscodeBreakpoint =>
      let st1 := replaceBreakpoint vscodeBreakpoint enabled st in
      with_breakpoints
        (map_adjust (info_with_enabled enabled) breakpointId (breakpoints st1)) st1
  | None => st
  end.

Definition enableBreakpoint (breakpointId : string) (st : State) : State :=
  toggleBreakpoint breakpointId true st.

Definition disableBreakpoint (breakpointId : string) (st : State) : State :=
  toggleBreakpoint breakpointId false st.

(** One round of the [forEach] of [updateGroupBreakpoints]; [snapshot] is the
    array read from [vscode.debug.breakpoints] before the loop. *)
Definition updateGroupBreakpoint (snapshot : list Breakpoint) (enabled : bool)
  (st : State) (breakpointId : string) : State :=
  match map_get breakpointId (breakpoints st) with
  | Some _ =>
      match findSourceBreakpoint breakpointId snapshot with
      | Some vscodeBreakpoint => replaceBreakpoint vscodeBreakpoint enabled st
      | None => st
      end
  | None => st
  end.

Definition updateGroupBreakpoints (group : BreakpointGroup) (st : State) : State :=
  let snapshot := vscodeBreakpoints st in
  fold_left (updateGroupBreakpoint snapshot (g_enabled group)) (g_breakpoints group) st.

(** [enableGroup] and [disableGroup] differ in the flag only. *)
Definition setGroupEnabled (groupId : string) (enabled : bool) (st : State) : State :=
  match map_get groupId (groups st) with
  | Some group =>
      let st1 :=
        with_groups (map_adjust (group_with_enabled enabled) groupId (groups st)) st in
      fireGroupsChanged
        (saveGroups (updateGroupBreakpoints (group_with_enabled enabled group) st1))
  | None => st
  end.

Definition enableGroup (groupId : string) (st : State) : State :=
  setGroupEnabled groupId true st.

Definition disableGroup (groupId : string) (st : State) : State :=
  setGroupEnabled groupId false st.

(** [new BreakpointManager(context)]: load the groups, mirror the breakpoints. *)
Definition construct (stored : list BreakpointGroup) (live : list Breakpoint)
  (uid : nat) (delivery : Delivery) : State :=
  syncBreakpoints (loadGroups (mkState [] [] stored [] live uid [] delivery)).

(** ** Commands and the checkbox handler (extension.ts) *)

Inductive TreeItem : Type :=
| BreakpointGroupItem (group : BreakpointGroup)
| BreakpointItem (breakpoint : BreakpointInfo) (groupId : string)
| UngroupedBreakpointItem (breakpoint : BreakpointInfo).

Definition item_breakpointId (item : TreeItem) : option string :=
  match item with
  | BreakpointGroupItem _ => None
  | BreakpointItem b _ => Some (b_id b)
  | UngroupedBreakpointItem b => Some (b_id b)
  end.

Definition item_groupId (item : TreeItem) : option string :=
  match item with
  | BreakpointGroupItem g => Some (g_id g)
  | BreakpointItem _ gid => Some gid
  | UngroupedBreakpointItem _ => None
  end.



Module Command.

(** [element && element.breakpointId]: the identity, when the argument has a
    non-empty one. *)
Definition breakpointIdOf (element : option TreeItem) : option string :=
  match element with
  | Some item => if truthy (item_breakpointId item) then item_breakpointId item else None
  | None => None
  end.

Definition groupIdOf (element : option TreeItem) : option string :=
  match element with
  | Some item => if truthy (item_groupId item) then item_groupId item else None
  | None => None
  end.

Definition enableGroup (element : option TreeItem) (st : State) : State :=
  match groupIdOf element with
  | Some groupId => setGroupEnabled groupId true st
  | None => st
  end.

Definition disableGroup (element : option TreeItem) (st : State) : State :=
  match groupIdOf element with
  | Some groupId => setGroupEnabled groupId false st
  | None => st
  end.

Definition enableBreakpoint (element : option TreeItem) (st : State) : State :=
  match breakpointIdOf element with
  | Some breakpointId => toggleBreakpoint breakpointId true st
  | None => st
  end.

Definition disableBreakpoint (element : option TreeItem) (st : State) : State :=
  match breakpointIdOf element with
  | Some breakpointId => toggleBreakpoint breakpointId false st
  | None => st
  end.


(** [deleteGroup]; [confirm] is the answer to the warning dialogue. *)
Definition deleteGroup (element : option TreeItem) (label : string)
  (confirm : option string) (st : State) : State :=
  match groupIdOf element with
  | Some groupId =>
      match confirm with
      | Some answer =>
          if answer =? "Delete"
          then emit (InformationMessage ("Deleted group: " ++ label))
                    (deleteGroup groupId st)
          else st
      | None => st
      end
  | None => st
  end.

(** [removeAllGroups]; [confirm] is the answer to the warning dialogue.  The
    array of [getGroups] holds the very objects of the map, so the assignment
    in the [forEach] changes every stored group. *)
Definition removeAllGroups (confirm : option string) (st : State) : State :=
  let groupsArray := getGroups st in
  if (List.length groupsArray =? 0)%nat
  then emit (InformationMessage "No groups found") st
  else
    match confirm with
    | Some answer =>
        if answer =? "Remove All Groups"
        then
          let st1 :=
            with_groups
              (map (fun kv => (fst kv, group_with_breakpoints [] (snd kv)))
                   (groups st))
              st in
          emit (InformationMessage
                  ("Removed all " ++ decimal (List.length groupsArray)
                     ++ " groups. Breakpoints are now ungrouped."))
               (fireGroupsChanged (saveGroups st1))
        else st
    | None => st
    end.

(** The part of the two move commands that runs once a group is picked. *)
Definition moveOne (breakpointId : string) (selectedGroup : BreakpointGroup)
  (st : State) : State :=
  let st1 :=
    match getGroupForBreakpoint breakpointId st with
    | Some currentGroup =>
        removeBreakpointFromGroup breakpointId (g_id currentGroup) st
    | None => st
    end in
  addBreakpointToGroup breakpointId (g_id selectedGroup) st1.

(** [moveBreakpointToGroup]; [selectedGroup] is the answer of the quick pick. *)
Definition moveBreakpointToGroup (element : option TreeItem)
  (selectedGroup : option BreakpointGroup) (st : State) : State :=
  match breakpointIdOf element with
  | None => emit (WarningMessage "No breakpoint selected") st
  | Some breakpointId =>
      if (List.length (getGroups st) =? 0)%nat
      then emit (WarningMessage "No groups exist. Create one first.") st
      else
        match selectedGroup with
        | Some sel =>
            emit (InformationMessage ("Moved breakpoint to group: " ++ g_name sel))
                 (moveOne breakpointId sel st)
        | None => st
        end
  end.

(** [moveSelectedBreakpointsToGroup]; [selection] is [treeView.selection] and
    [selectedGroup] the answer of the quick pick. *)
Definition moveSelectedBreakpointsToGroup (selection : list TreeItem)
  (selectedGroup : option BreakpointGroup) (st : State) : State :=
  let breakpointItems :=
    filter (fun item =>
              match item with
              | BreakpointGroupItem _ => false
              | BreakpointItem _ _ => true
              | UngroupedBreakpointItem _ => true
              end)
           selection in
  if (List.length breakpointItems =? 0)%nat
  then emit (WarningMessage
               "No breakpoints selected. Select one or more breakpoints first.") st
  else if (List.length (getGroups st) =? 0)%nat
  then emit (WarningMessage "No groups exist. Create one first.") st
  else
    match selectedGroup with
    | Some sel =>
        let st1 :=
          fold_left
            (fun s breakpointItem =>
               match item_breakpointId breakpointItem with
               | Some breakpointId => moveOne breakpointId sel s
               | None => s
               end)
            breakpointItems st in
        emit (InformationMessage
                ("Moved " ++ decimal (List.length breakpointItems)
                   ++ " breakpoint(s) to group: " ++ g_name sel))
             st1
    | None => st
    end.

(** The double quote of the messages that put a name between quotes. *)
Definition dquote : string := String (Ascii.ascii_of_nat 34) EmptyString.

(** [createGroupFromBreakpoint]; [name] is the answer of the input box and [id]
    the token [generateGroupId] draws for the new group. *)
Definition createGroupFromBreakpoint (element : option TreeItem)
  (name : option string) (id : string) (st : State) : State :=
  match breakpointIdOf element with
  | None => emit (WarningMessage "No breakpoint selected") st
  | Some breakpointId =>
      if truthy name
      then
        match name with
        | Some n =>
            emit (InformationMessage
                    ("Created group " ++ dquote ++ n ++ dquote
                       ++ " and added breakpoint"))
                 (addBreakpointToGroup breakpointId id (createGroup id n None st))
        | None => st
        end
      else st
  end.

(** [renameGroup]; [label] is [element.label], with which the input box is
    filled, and [newName] its answer. *)
Definition renameGroup (element : option TreeItem) (label : string)
  (newName : option string) (st : State) : State :=
  match groupIdOf element with
  | Some groupId =>
      match newName with
      | Some n =>
          if truthy newName && negb (n =? label)
          then emit (InformationMessage ("Renamed group to: " ++ n))
                    (renameGroup groupId n st)
          else st
      | None => st
      end
  | None => st
  end.

(** [g => g.id === element.groupId] picks an object by its [id] field; the
    assignment to [group.breakpoints] changes the first such object of the
    map. *)
Fixpoint clearFirstWithId (groupId : string) (m : JsMap BreakpointGroup)
  : JsMap BreakpointGroup :=
  match m with
  | [] => []
  | (k, g) :: m' =>
      if g_id g =? groupId then (k, group_with_breakpoints [] g) :: m'
      else (k, g) :: clearFirstWithId groupId m'
  end.

(** The filter of the two commands that remove breakpoints from the editor:
    the live source breakpoints whose recomputed identity is the [id] of one of
    the given records. *)
Definition liveMatching (infos : list BreakpointInfo) (live : list Breakpoint)
  : list Breakpoint :=
  filter
    (fun bp =>
       match bp with
       | Source b => existsb (fun bpInfo => generateBreakpointId b =? b_id bpInfo) infos
       | Function _ _ _ => false
       end)
    live.

(** [removeAllBreakpointsInGroup]; [confirm] is the answer to the warning
    dialogue. *)
Definition removeAllBreakpointsInGroup (element : option TreeItem)
  (confirm : option string) (st : State) : State :=
  match groupIdOf element with
  | None => emit (WarningMessage "No group selected") st
  | Some groupId =>
      match find (fun g => g_id g =? groupId) (getGroups st) with
      | None => emit (WarningMessage "Group not found") st
      | Some group =>
          match confirm with
          | Some answer =>
              if answer =? "Remove All"
              then
                let breakpoints := getBreakpointsInGroup groupId st in
                let breakpointsToRemove :=
                  liveMatching breakpoints (vscodeBreakpoints st) in
                let st1 :=
                  if (0 <? List.length breakpointsToRemove)%nat
                  then removeBreakpoints breakpointsToRemove st
                  else st in
                let st2 := with_groups (clearFirstWithId groupId (groups st1)) st1 in
                emit (InformationMessage
                        ("Removed " ++ decimal (List.length breakpoints)
                           ++ " breakpoints from group " ++ dquote
                           ++ g_name group ++ dquote))
                     (fireGroupsChanged (saveGroups st2))
              else st
          | None => st
          end
      end
  end.

(** [removeAllUngroupedBreakpoints]; [confirm] is the answer to the warning
    dialogue. *)
Definition removeAllUngroupedBreakpoints (confirm : option string) (st : State)
  : State :=
  let ungroupedBreakpoints := getUngroupedBreakpoints st in
  if (List.length ungroupedBreakpoints =? 0)%nat
  then emit (InformationMessage "No ungrouped breakpoints found") st
  else
    match confirm with
    | Some answer =>
        if answer =? "Remove All"
        then
          let breakpointsToRemove :=
            liveMatching ungroupedBreakpoints (vscodeBreakpoints st) in
          let st1 :=
            if (0 <? List.length breakpointsToRemove)%nat
            then removeBreakpoints breakpointsToRemove st
            else st in
          emit (InformationMessage
                  ("Removed " ++ decimal (List.length ungroupedBreakpoints)
                     ++ " ungrouped breakpoints"))
               st1
        else st
    | None => st
    end.

(** [createGroup]; [name] and [description] are the answers of the two input
    boxes, [id] the token drawn for the new group. *)
Definition createGroup (name description : option string) (id : string)
  (st : State) : State :=
  if truthy name
  then
    match name with
    | Some n =>
        emit (InformationMessage ("Created breakpoint group: " ++ n))
             (createGroup id n description st)
    | None => st
    end
  else st.

End Command.







(** ** The tree (treeProvider.ts) and its items (types.ts) *)

Definition slash : Ascii.ascii := Ascii.ascii_of_nat 47.

(** [String.prototype.split] with a separator of one character. *)
Fixpoint split (sep : Ascii.ascii) (s : string) : list string :=
  match s with
  | EmptyString => [EmptyString]
  | String c rest =>
      if Ascii.eqb c sep then EmptyString :: split sep rest
      else
        match split sep rest with
        | head :: tail => String c head :: tail
        | [] => [String c EmptyString]
        end
  end.

(** [breakpoint.file.split('/').pop() || breakpoint.file] *)
Definition fileName (file : string) : string :=
  let popped := last (split slash file) EmptyString in
  if popped =? "" then file else popped.

(** What the constructors of [BreakpointItem] and [UngroupedBreakpointItem]
    put into the item. *)
Record BreakpointItemView : Type := mkItemView {
  v_label : string;
  v_description : string;
  v_tooltip : string;
  v_checkboxState : TreeItemCheckboxState
}.

Definition breakpointItemView (breakpoint : BreakpointInfo) : BreakpointItemView :=
  mkItemView
    (fileName (b_file breakpoint))
    (b_file breakpoint)
    (b_file breakpoint ++ ":" ++ decimal (b_line breakpoint)
       ++ (if truthy (b_condition breakpoint)
           then match b_condition breakpoint with
                | Some c => " (" ++ c ++ ")"
                | None => ""
                end
           else "")
       ++ " - " ++ (if b_enabled breakpoint then "Enabled" else "Disabled"))
    (if b_enabled breakpoint then Checked else Unchecked).

(** What the constructor of [BreakpointGroupItem] puts into the item, for an
    item that is given the manager. *)
Record GroupItemView : Type := mkGroupView {
  gv_label : string;
  gv_tooltip : string;
  gv_description : string;
  gv_checkboxState : TreeItemCheckboxState
}.

Definition groupItemView (group : BreakpointGroup) (st : State) : GroupItemView :=
  let groupState := calculateGroupState (g_id group) st in
  mkGroupView
    ("🪣 " ++ g_name group)
    (g_name group ++ " - " ++ groupStateText groupState ++ " ("
       ++ decimal (List.length (g_breakpoints group)) ++ " breakpoints)")
    (decimal (List.length (g_breakpoints group)) ++ " breakpoints")
    (getCheckboxState groupState).

(** [getChildren]: the ungrouped breakpoints and then the groups at the root,
    the mirrored members under a group, nothing under a breakpoint. *)
Definition getChildren (element : option TreeItem) (st : State) : list TreeItem :=
  match element with
  | None =>
      (map UngroupedBreakpointItem (getUngroupedBreakpoints st)
         ++ map BreakpointGroupItem (getGroups st))%list
  | Some (BreakpointGroupItem group) =>
      map (fun breakpoint => BreakpointItem breakpoint (g_id group))
          (getBreakpointsInGroup (g_id group) st)
  | Some _ => []
  end.

(** [resolveTreeItem] on the item of a breakpoint: the checkbox follows the
    mirrored record with the item's identity; without such a record the item
    keeps the checkbox it has. *)
Definition resolveBreakpointItem (breakpointId : string)
  (checkboxState : TreeItemCheckboxState) (st : State) : TreeItemCheckboxState :=
  match find (fun bp => b_id bp =? breakpointId) (getBreakpoints st) with
  | Some breakpoint => if b_enabled breakpoint then Checked else Unchecked
  | None => checkboxState
  end.

(** ** Vocabulary of the properties *)

(** What the two [Map]s guarantee by construction: a key occurs once, and every
    [set] of the manager stores an object under its own [id]. *)
Definition keyed {V : Type} (key : V -> string) (m : JsMap V) : Prop :=
  NoDup (map_keys m) /\ forall k v, In (k, v) m -> key v = k.

Definition wf_groups (m : JsMap BreakpointGroup) : Prop := keyed g_id m.

Definition wf_mirror (m : JsMap BreakpointInfo) : Prop := keyed b_id m.

(** The member list of the group stored under [k]; empty when there is none. *)
Definition members (k : string) (m : JsMap BreakpointGroup) : list string :=
  match map_get k m with
  | Some g => g_breakpoints g
  | None => []
  end.

(** No identity is in the member list of two groups. *)
Definition exclusive (m : JsMap BreakpointGroup) : Prop :=
  forall id k1 k2, In id (members k1 m) -> In id (members k2 m) -> k1 = k2.

(** Sequences of [addMember] and move operations. *)
Inductive Op : Type :=
| OpAdd (breakpointId groupId : string)
| OpMove (element : option TreeItem) (selectedGroup : option BreakpointGroup)
| OpMoveSelected (selection : list TreeItem) (selectedGroup : option BreakpointGroup).

Definition runOp (op : Op) (st : State) : State :=
  match op with
  | OpAdd breakpointId groupId => addBreakpointToGroup breakpointId groupId st
  | OpMove element selectedGroup =>
      Command.moveBreakpointToGroup element selectedGroup st
  | OpMoveSelected selection selectedGroup =>
      Command.moveSelectedBreakpointsToGroup selection selectedGroup st
  end.

Fixpoint run (ops : list Op) (st : State) : State :=
  match ops with
  | [] => st
  | op :: rest => run rest (runOp op st)
  end.

(** Every [addMember] of the sequence is asked for an identity that, at that
    moment, no other group lists. *)
Fixpoint addsUngrouped (ops : list Op) (st : State) : Prop :=
  match ops with
  | [] => True
  | op :: rest =>
      match op with
      | OpAdd breakpointId groupId =>
          forall k, In breakpointId (members k (groups st)) -> k = groupId
      | OpMove _ _ => True
      | OpMoveSelected _ _ => True
      end
      /\ addsUngrouped rest (runOp op st)
  end.

(** No two live objects share an identity, and identities are handed out in
    increasing order: every live object has one below the next to be handed
    out. *)
Definition wf_host (st : State) : Prop :=
  NoDup (map bp_uid (vscodeBreakpoints st))
  /\ forall bp, In bp (vscodeBreakpoints st) -> bp_uid bp < nextUid st.

(** Every identity the mirror holds is the identity of a live source
    breakpoint: the mirror was read from the editor and nothing was removed
    from the editor since. *)
Definition mirrorTracksHost (st : State) : Prop :=
  forall k, map_get k (breakpoints st) <> None ->
            findSourceBreakpoint k (vscodeBreakpoints st) <> None.

(** The object that replaces [old]: same location, condition, hit condition and
    log message, the given flag, an identity of its own. *)
Definition replacement (old : SourceBreakpoint) (enabled : bool) (uid : nat)
  : SourceBreakpoint :=
  mkSource uid (sb_location old) enabled (sb_condition old)
           (sb_hitCondition old) (sb_logMessage old).

(** The state while [updateGroupBreakpoints] runs, [st0] being the state at the
    start of the loop.  The editor's list is what is left of the objects that
    were live at the start, followed by the objects the loop made, which are
    source breakpoints with the group's flag; every identity that was live at
    the start is still live; the mirror is the one of the start, or, when
    notifications arrive at once, the mirror of the editor's list. *)
Definition replacing (flag : bool) (st0 : State) (olds news : list Breakpoint)
  (st : State) : Prop :=
  wf_host st
  /\ delivery st = delivery st0
  /\ nextUid st0 <= nextUid st
  /\ vscodeBreakpoints st = (olds ++ news)%list
  /\ (forall b, In b olds -> In b (vscodeBreakpoints st0))
  /\ (forall b, In b news ->
                nextUid st0 <= bp_uid b
                /\ exists s, b = Source s /\ sb_enabled s = flag)
  /\ (forall k, findSourceBreakpoint k (vscodeBreakpoints st0) <> None ->
                findSourceBreakpoint k (vscodeBreakpoints st) <> None)
  /\ (breakpoints st = breakpoints st0
      \/ (delivery st = AtOnce
          /\ breakpoints st = mirrorOf (vscodeBreakpoints st))).

(** The loop has replaced [old]: the object is gone and an object made from it
    is there; the mirror has been read anew, or the notification of an addition
    is the last in the queue. *)
Definition replaced (flag : bool) (st0 : State) (old : SourceBreakpoint)
  (st : State) : Prop :=
  exists olds news,
    replacing flag st0 olds news st
    /\ (forall b, In b olds -> bp_uid b <> sb_uid old)
    /\ (exists uid, In (Source (replacement old flag uid)) news)
    /\ match delivery st with
       | AtOnce => breakpoints st = mirrorOf (vscodeBreakpoints st)
       | Queued =>
           breakpoints st = breakpoints st0
           /\ exists es e, pending st = (es ++ [e])%list /\ added e <> []
       end.





(** ** States used as examples

    An editor with a breakpoint at /a.js line 10, a function breakpoint and a
    conditional breakpoint at /b.js line 5. *)

Definition demoLive : list Breakpoint :=
  [ Source (mkSource 0 (mkLocation "/a.js" 9 0) true None None None);
    Function 1 true "main";
    Source (mkSource 2 (mkLocation "/b.js" 4 2) false (Some "x > 1") (Some "3") None) ].

Definition demo0 : State := construct [] demoLive 3 Queued.

(** Group "DB" created, /a.js:10 added to it; once with notifications from the
    queue, once with notifications at once. *)
Definition demoDB : State :=
  addBreakpointToGroup "/a.js:10" "g1" (createGroup "g1" "DB" None demo0).


(** Groups "A" with member /a.js:10 and "B" without members. *)
Definition demoAB : State :=
  addBreakpointToGroup "/a.js:10" "gA"
    (createGroup "gB" "B" None (createGroup "gA" "A" None demo0)).

(** Group "A" lists an identity the mirror does not hold. *)
Definition demoOrphan : State :=
  construct [mkGroup "gA" "A" ["/gone.js:1"] true None; mkGroup "gB" "B" [] true None]
            demoLive 3 AtOnce.

(** A batch of three checkbox changes: /a.js:10 unchecked, then /b.js:5 checked,
    then group "A" unchecked. *)
Definition demoItemA : TreeItem :=
  BreakpointItem (mkInfo "/a.js:10" "/a.js" 10 (Some 0) None None None true) "gA".

Definition demoItemB : TreeItem :=
  UngroupedBreakpointItem
    (mkInfo "/b.js:5" "/b.js" 5 (Some 2) (Some "x > 1") (Some (parseInt "3")) None false).



(** Group "DB" lists /a.js:10 and /b.js:5; then the editor loses /b.js:5 and
    the notification is delivered. *)
Definition demoBoth : State :=
  addBreakpointToGroup "/b.js:5" "g1" demoDB.

Definition demoDeleted : State :=
  settle
    (post (mkEvent [] [Source (mkSource 2 (mkLocation "/b.js" 4 2) false
                                        (Some "x > 1") (Some "3") None)] [])
          (with_host [ Source (mkSource 0 (mkLocation "/a.js" 9 0) true None None None);
                       Function 1 true "main" ]
                     demoBoth)).
(** ** Vocabulary of the properties of the commands and of the mirror *)


(** The mirror is in step with the editor: no notification waits and the mirror
    is what [syncBreakpoints] would read. *)
Definition inStep (st : State) : Prop :=
  pending st = [] /\ breakpoints st = mirrorOf (vscodeBreakpoints st).

(** The mirror is in step, or it will be once the queue is delivered: the last
    notification that waits reports an addition or a removal, so the listener
    will read the editor anew. *)
Definition catchingUp (st : State) : Prop :=
  inStep st
  \/ (delivery st = Queued
      /\ exists es e,
           pending st = (es ++ [e])%list /\ (added e <> [] \/ removed e <> [])).


Definition consistent (st : State) : Prop :=
  wf_groups (groups st) /\ wf_mirror (breakpoints st) /\ wf_host st /\ catchingUp st.




(** The editor's list after the user has ticked and unticked breakpoints in
    the editor itself: the same objects in the same order, each with the flag
    [f] gives its identity. *)
Definition withFlags (f : nat -> bool) (l : list Breakpoint) : list Breakpoint :=
  map (fun bp =>
         match bp with
         | Source b =>
             Source (mkSource (sb_uid b) (sb_location b) (f (sb_uid b))
                              (sb_condition b) (sb_hitCondition b) (sb_logMessage b))
         | Function uid _ functionName => Function uid (f uid) functionName
         end)
      l.


(** * Properties *)

(** ** Maps *)

Section MapFacts.
Context {V : Type}.
Implicit Types (m : JsMap V) (k : string) (v : V).

Lemma map_get_adjust (f : V -> V) k k' m :
  map_get k (map_adjust f k' m)
  = if k' =? k then option_map f (map_get k m) else map_get k m.
Proof.
  induction m as [|[k0 v0] m IH]; simpl.
  - now destruct (k' =? k).
  - destruct (k0 =? k') eqn:E0; simpl.
    + apply String.eqb_eq in E0; subst k0.
      destruct (k' =? k); reflexivity.
    + destruct (k0 =? k) eqn:E1; [|exact IH].
      apply String.eqb_eq in E1; subst k0.
      now rewrite (String.eqb_sym k' k), E0.
Qed.

Lemma map_keys_adjust (f : V -> V) k m :
  map_keys (map_adjust f k m) = map_keys m.
Proof.
  induction m as [|[k0 v0] m IH]; simpl; [reflexivity|].
  destruct (k0 =? k); simpl; [reflexivity|]. f_equal. exact IH.
Qed.

Lemma map_get_In k v m : map_get k m = Some v -> In (k, v) m.
Proof.
  induction m as [|[k0 v0] m IH]; simpl; [discriminate|].
  destruct (k0 =? k) eqn:E.
  - apply String.eqb_eq in E. intros [= ->]. left. now subst.
  - intros H. right. auto.
Qed.

Lemma map_get_None k m : map_get k m = None <-> ~ In k (map_keys m).
Proof.
  induction m as [|[k0 v0] m IH]; simpl; [tauto|].
  destruct (k0 =? k) eqn:E.
  - apply String.eqb_eq in E. split; [discriminate|]. intros H. exfalso. auto.
  - apply String.eqb_neq in E. rewrite IH. tauto.
Qed.

Lemma In_map_get k v m : NoDup (map_keys m) -> In (k, v) m -> map_get k m = Some v.
Proof.
  induction m as [|[k0 v0] m IH]; simpl; [tauto|].
  intros ND [E|H].
  - injection E as -> ->. now rewrite String.eqb_refl.
  - inversion ND as [|? ? Hn ND']; subst.
    destruct (k0 =? k) eqn:E.
    + apply String.eqb_eq in E; subst k0. exfalso. apply Hn.
      change k with (fst (k, v)). now apply in_map.
    + auto.
Qed.

Lemma map_get_set k k' v m :
  map_get k (map_set k' v m) = if k' =? k then Some v else map_get k m.
Proof.
  induction m as [|[k0 v0] m IH]; simpl.
  - reflexivity.
  - destruct (k0 =? k') eqn:E0; simpl.
    + apply String.eqb_eq in E0; subst k0. now destruct (k' =? k).
    + destruct (k0 =? k) eqn:E1; [|exact IH].
      apply String.eqb_eq in E1; subst k0. now rewrite (String.eqb_sym k' k), E0.
Qed.

End MapFacts.

Lemma includes_In (l : list string) (x : string) : includes l x = true <-> In x l.
Proof.
  unfold includes. rewrite existsb_exists. split.
  - intros [y [Hy E]]. apply String.eqb_eq in E. now subst.
  - intros H. exists x. split; [assumption|apply String.eqb_refl].
Qed.

Lemma includes_false (l : list string) (x : string) :
  includes l x = false <-> ~ In x l.
Proof.
  rewrite <- includes_In. destruct (includes l x); split; congruence.
Qed.

Lemma In_defined {A : Type} (l : list (option A)) (x : A) :
  In x (defined l) <-> In (Some x) l.
Proof.
  induction l as [|[y|] l IH]; simpl.
  - tauto.
  - rewrite IH. split; intros [H|H]; auto; left; congruence.
  - rewrite IH. split; [auto|]. intros [H|H]; [discriminate|assumption].
Qed.

(** ** The three states *)

Lemma filter_length_zero {A : Type} (f : A -> bool) (l : list A) :
  List.length (filter f l) = 0 <-> forall x, In x l -> f x = false.
Proof.
  induction l as [|a l IH]; simpl.
  - tauto.
  - destruct (f a) eqn:E; simpl.
    + split; [discriminate|]. intros H. specialize (H a (or_introl eq_refl)). congruence.
    + rewrite IH. split.
      * intros H x [<-|Hx]; auto.
      * intros H x Hx. auto.
Qed.

Lemma filter_length_all {A : Type} (f : A -> bool) (l : list A) :
  List.length (filter f l) = List.length l <-> forall x, In x l -> f x = true.
Proof.
  induction l as [|a l IH]; simpl.
  - tauto.
  - pose proof (filter_length_le f l) as Hle.
    destruct (f a) eqn:E; simpl.
    + split.
      * intros H x [<-|Hx]; [assumption|]. apply IH; [lia|assumption].
      * intros H. f_equal. apply IH. auto.
    + split; [lia|]. intros H. specialize (H a (or_introl eq_refl)). congruence.
Qed.

Lemma exists_flag (l : list BreakpointInfo) (v : bool) :
  (exists bp, In bp l /\ b_enabled bp = v)
  <-> ~ forall bp, In bp l -> b_enabled bp = negb v.
Proof.
  split.
  - intros [bp [Hin E]] H. specialize (H bp Hin). rewrite E in H. now destruct v.
  - induction l as [|a l IH]; simpl; intros H.
    + exfalso. apply H. tauto.
    + destruct (Bool.bool_dec (b_enabled a) v) as [E|E].
      * exists a. auto.
      * destruct IH as [bp [Hin Hbp]].
        -- intros H'. apply H. intros bp [<-|Hin]; [|auto].
           destruct (b_enabled a), v; simpl; congruence.
        -- exists bp. auto.
Qed.

Lemma groupStateOf_spec (l : list BreakpointInfo) :
  (groupStateOf l = AllEnabled
   <-> l <> [] /\ forall bp, In bp l -> b_enabled bp = true)
  /\ (groupStateOf l = AllDisabled
      <-> l = [] \/ forall bp, In bp l -> b_enabled bp = false)
  /\ (groupStateOf l = Partial
      <-> (exists bp, In bp l /\ b_enabled bp = true)
          /\ (exists bp, In bp l /\ b_enabled bp = false)).
Proof.
  pose proof (filter_length_zero b_enabled l) as Hz.
  pose proof (filter_length_all b_enabled l) as Ha.
  pose proof (exists_flag l true) as Ht. simpl in Ht.
  pose proof (exists_flag l false) as Hf. simpl in Hf.
  assert (Hnil : l = [] -> forall bp, In bp l -> b_enabled bp = false)
    by (intros -> bp []).
  assert (Hboth : l <> [] -> (forall bp, In bp l -> b_enabled bp = true) ->
                  (forall bp, In bp l -> b_enabled bp = false) -> False).
  { destruct l as [|a l]; [congruence|]. intros _ H1 H2.
    specialize (H1 a (or_introl eq_refl)). specialize (H2 a (or_introl eq_refl)).
    congruence. }
  unfold groupStateOf.
  destruct (List.length l =? 0)%nat eqn:El.
  { apply Nat.eqb_eq in El. apply length_zero_iff_nil in El.
    split; [|split]; split; try discriminate; intros H.
    - now destruct H.
    - now left.
    - reflexivity.
    - exfalso. apply Ht; [apply H|auto]. }
  assert (Hne : l <> []).
  { intros ->. discriminate. }
  destruct (List.length (filter b_enabled l) =? 0)%nat eqn:E0.
  { apply Nat.eqb_eq in E0. pose proof (proj1 Hz E0) as Hnone. clear E0.
    split; [|split]; split; try discriminate; intros H.
    - exfalso. apply (Hboth Hne); tauto.
    - now right.
    - reflexivity.
    - exfalso. apply Ht; [apply H|exact Hnone]. }
  apply Nat.eqb_neq in E0. rewrite Hz in E0.
  destruct (List.length (filter b_enabled l) =? List.length l)%nat eqn:E1.
  { apply Nat.eqb_eq in E1. pose proof (proj1 Ha E1) as Hall. clear E1.
    split; [|split]; split; try discriminate; intros H.
    - now split.
    - reflexivity.
    - exfalso. destruct H as [H|H]; [auto|]. apply (Hboth Hne); assumption.
    - exfalso. apply Hf; [apply H|exact Hall]. }
  apply Nat.eqb_neq in E1. rewrite Ha in E1.
  split; [|split]; split; try discriminate; intros H.
  - exfalso. tauto.
  - exfalso. tauto.
  - split; [apply Ht|apply Hf]; assumption.
  - reflexivity.
Qed.

Lemma resolveTreeItem_groupState (group : BreakpointGroup) (st : State) :
  r_groupState (resolveTreeItem group st)
  = groupStateOf (getBreakpointsInGroup (g_id group) st).
Proof.
  unfold resolveTreeItem, groupStateOf.
  destruct (List.length (getBreakpointsInGroup (g_id group) st) =? 0)%nat;
    [reflexivity|].
  destruct (List.length (filter b_enabled (getBreakpointsInGroup (g_id group) st)) =? 0)%nat;
    [reflexivity|].
  destruct (List.length (filter b_enabled (getBreakpointsInGroup (g_id group) st))
            =? List.length (getBreakpointsInGroup (g_id group) st))%nat;
    reflexivity.
Qed.

Lemma getBreakpointsInGroup_In (groupId : string) (st : State) (bp : BreakpointInfo) :
  In bp (getBreakpointsInGroup groupId st)
  <-> exists G m, map_get groupId (groups st) = Some G
                  /\ In m (g_breakpoints G)
                  /\ map_get m (breakpoints st) = Some bp.
Proof.
  unfold getBreakpointsInGroup.
  destruct (map_get groupId (groups st)) as [G|].
  - rewrite In_defined, in_map_iff. split.
    + intros [m [E Hm]]. exists G, m. auto.
    + intros [G' [m [[= <-] [Hm E]]]]. exists m. auto.
  - simpl. split; [tauto|]. intros [G [m [H _]]]. discriminate.
Qed.

(** C1: the state shown for a group is All Enabled exactly when the group has a
    present member and every present member is enabled; All Disabled exactly
    when it has no present member (whatever its member list holds) or no
    present member is enabled; Partial in every other case, that is when one
    present member is enabled and another is not.  A present member is the
    mirrored record of a member identity that the mirror holds.  The state of
    [resolveTreeItem] and the one of [calculateGroupState] are the same. *)
Theorem tri_state_characterisation (st : State) (group : BreakpointGroup) :
  let present := getBreakpointsInGroup (g_id group) st in
  let state := r_groupState (resolveTreeItem group st) in
  (forall bp,
      In bp present
      <-> exists G m, map_get (g_id group) (groups st) = Some G
                      /\ In m (g_breakpoints G)
                      /\ map_get m (breakpoints st) = Some bp)
  /\ (state = AllEnabled
      <-> present <> [] /\ forall bp, In bp present -> b_enabled bp = true)
  /\ (state = AllDisabled
      <-> present = [] \/ forall bp, In bp present -> b_enabled bp = false)
  /\ (state = Partial
      <-> ~ (present <> [] /\ forall bp, In bp present -> b_enabled bp = true)
          /\ ~ (present = [] \/ forall bp, In bp present -> b_enabled bp = false))
  /\ (state = Partial
      <-> (exists bp, In bp present /\ b_enabled bp = true)
          /\ (exists bp, In bp present /\ b_enabled bp = false))
  /\ calculateGroupState (g_id group) st = state.
Proof.
  intros present state.
  assert (Es : state = groupStateOf present)
    by apply resolveTreeItem_groupState.
  destruct (groupStateOf_spec present) as [He [Hd Hp]].
  split; [intros bp; apply getBreakpointsInGroup_In|].
  rewrite Es.
  split; [exact He|]. split; [exact Hd|]. split; [|split; [exact Hp|reflexivity]].
  rewrite <- He, <- Hd.
  destruct (groupStateOf present); intuition congruence.
Qed.

(** ** The group store *)

Lemma group_with_same_breakpoints (g : BreakpointGroup) :
  group_with_breakpoints (g_breakpoints g) g = g.
Proof. now destruct g. Qed.

Lemma map_adjust_same {V : Type} (f : V -> V) (k : string) (m : JsMap V) :
  (forall v, map_get k m = Some v -> f v = v) -> map_adjust f k m = m.
Proof.
  induction m as [|[k0 v0] m IH]; simpl; intros H; [reflexivity|].
  destruct (k0 =? k).
  - now rewrite H.
  - now rewrite IH.
Qed.

Lemma In_map_adjust {V : Type} (f : V -> V) (k k0 : string) (v : V) (m : JsMap V) :
  In (k, v) (map_adjust f k0 m) -> exists v0, In (k, v0) m /\ (v = v0 \/ v = f v0).
Proof.
  induction m as [|[k1 v1] m IH]; simpl; [tauto|].
  destruct (k1 =? k0); simpl.
  - intros [[= <- <-]|H]; eauto.
  - intros [[= <- <-]|H]; [eauto|].
    destruct (IH H) as [v0 [Hin Hv]]. eauto.
Qed.

Lemma wf_groups_adjust (f : BreakpointGroup -> BreakpointGroup) (k : string)
  (m : JsMap BreakpointGroup) :
  (forall g, g_id (f g) = g_id g) -> wf_groups m -> wf_groups (map_adjust f k m).
Proof.
  intros Hf [ND Hid]. split.
  - now rewrite map_keys_adjust.
  - intros k' g Hin. destruct (In_map_adjust _ _ _ _ _ Hin) as [g0 [Hin0 [->| ->]]].
    + now apply Hid.
    + rewrite Hf. now apply Hid.
Qed.

Lemma filter_absent (x : string) (l : list string) :
  ~ In x l -> filter (fun id => negb (id =? x)) l = l.
Proof.
  induction l as [|a l IH]; simpl; intros H; [reflexivity|].
  destruct (a =? x) eqn:E.
  - apply String.eqb_eq in E. exfalso. auto.
  - simpl. f_equal. auto.
Qed.

Lemma In_filter_neq (x y : string) (l : list string) :
  In y (filter (fun id => negb (id =? x)) l) <-> In y l /\ y <> x.
Proof.
  rewrite filter_In, negb_true_iff, String.eqb_neq. tauto.
Qed.

Lemma members_remove (breakpointId groupId k : string) (st : State) :
  members k (groups (removeBreakpointFromGroup breakpointId groupId st))
  = if groupId =? k
    then filter (fun id => negb (id =? breakpointId)) (members k (groups st))
    else members k (groups st).
Proof.
  unfold removeBreakpointFromGroup, members.
  destruct (map_get groupId (groups st)) as [g|] eqn:Eg; simpl.
  - rewrite map_get_adjust.
    destruct (groupId =? k) eqn:E; [|reflexivity].
    apply String.eqb_eq in E; subst k. now rewrite Eg.
  - destruct (groupId =? k) eqn:E; [|reflexivity].
    apply String.eqb_eq in E; subst k. now rewrite Eg.
Qed.

Lemma members_add (breakpointId groupId k : string) (st : State) :
  members k (groups (addBreakpointToGroup breakpointId groupId st))
  = members k (groups st)
  \/ (k = groupId
      /\ map_get breakpointId (breakpoints st) <> None
      /\ ~ In breakpointId (members k (groups st))
      /\ members k (groups (addBreakpointToGroup breakpointId groupId st))
         = (members k (groups st) ++ [breakpointId])%list).
Proof.
  unfold addBreakpointToGroup, members.
  destruct (map_get groupId (groups st)) as [g|] eqn:Eg; [|now left].
  destruct (map_get breakpointId (breakpoints st)) as [b|] eqn:Eb; [|now left].
  destruct (includes (g_breakpoints g) breakpointId) eqn:Ei; simpl; [now left|].
  rewrite map_get_adjust.
  destruct (groupId =? k) eqn:E; [|now left].
  apply String.eqb_eq in E; subst k. right. rewrite Eg. simpl.
  repeat split; try congruence. now apply includes_false.
Qed.

Lemma getGroupForBreakpoint_Some (breakpointId : string) (st : State)
  (cur : BreakpointGroup) :
  wf_groups (groups st) ->
  getGroupForBreakpoint breakpointId st = Some cur ->
  map_get (g_id cur) (groups st) = Some cur /\ In breakpointId (g_breakpoints cur).
Proof.
  intros [ND Hid] H. unfold getGroupForBreakpoint in H.
  apply find_some in H. destruct H as [Hin Hinc].
  apply includes_In in Hinc. split; [|assumption].
  unfold map_values in Hin. apply in_map_iff in Hin.
  destruct Hin as [[k g] [E Hin]]. simpl in E. subst g.
  rewrite (Hid _ _ Hin). now apply In_map_get.
Qed.

Lemma getGroupForBreakpoint_None (breakpointId : string) (st : State) :
  getGroupForBreakpoint breakpointId st = None ->
  forall k, ~ In breakpointId (members k (groups st)).
Proof.
  intros H k Hin. unfold getGroupForBreakpoint in H. unfold members in Hin.
  destruct (map_get k (groups st)) as [g|] eqn:Eg; [|assumption].
  apply map_get_In in Eg.
  assert (Hv : In g (map_values (groups st))).
  { unfold map_values. change g with (snd (k, g)). now apply in_map. }
  pose proof (find_none _ _ H g Hv) as Hf. simpl in Hf.
  apply includes_false in Hf. auto.
Qed.

Lemma includes_app_last (l : list string) (x : string) :
  includes (l ++ [x]) x = true.
Proof. apply includes_In, in_or_app. right. now left. Qed.

(** C9: adding a member twice gives the state, hence the member lists, that
    adding it once gives.  Adding changes nothing when the group is absent,
    when the mirror does not hold the breakpoint, or when the identity is a
    member already; in every other case the identity is appended at the end of
    the group's member list, the other groups stay as they are, and the store
    is saved and the change announced. *)
Theorem addMember_idempotent (breakpointId groupId : string) (st : State) :
  let once := addBreakpointToGroup breakpointId groupId st in
  let twice := addBreakpointToGroup breakpointId groupId once in
  twice = once
  /\ (forall k, members k (groups twice) = members k (groups once))
  /\ (map_get groupId (groups st) = None
      \/ map_get breakpointId (breakpoints st) = None
      \/ In breakpointId (members groupId (groups st))
      -> once = st)
  /\ (map_get groupId (groups st) <> None ->
      map_get breakpointId (breakpoints st) <> None ->
      ~ In breakpointId (members groupId (groups st)) ->
      members groupId (groups once)
      = (members groupId (groups st) ++ [breakpointId])%list
      /\ (forall k, k <> groupId -> map_get k (groups once) = map_get k (groups st))
      /\ map_keys (groups once) = map_keys (groups st)
      /\ effects once
         = (effects st ++ [Persisted (map_values (groups once)); GroupsChanged])%list).
Proof.
  intros once twice.
  assert (Htwice : twice = once).
  { subst twice once. unfold addBreakpointToGroup at 1.
    unfold addBreakpointToGroup.
    destruct (map_get groupId (groups st)) as [g|] eqn:Eg; simpl.
    2: now rewrite Eg.
    destruct (map_get breakpointId (breakpoints st)) as [b|] eqn:Eb; simpl.
    2: now rewrite Eg, Eb.
    destruct (includes (g_breakpoints g) breakpointId) eqn:Ei; simpl.
    - now rewrite Eg, Eb, Ei.
    - rewrite map_get_adjust, String.eqb_refl, Eg, Eb. simpl.
      now rewrite includes_app_last. }
  split; [exact Htwice|]. split; [now rewrite Htwice|].
  subst once. unfold addBreakpointToGroup, members.
  split.
  - intros [H|[H|H]].
    + now rewrite H.
    + rewrite H. now destruct (map_get groupId (groups st)).
    + destruct (map_get groupId (groups st)) as [g|]; [|reflexivity].
      destruct (map_get breakpointId (breakpoints st)); [|reflexivity].
      apply includes_In in H. now rewrite H.
  - intros Hg Hb Hn.
    destruct (map_get groupId (groups st)) as [g|] eqn:Eg; [|congruence].
    destruct (map_get breakpointId (breakpoints st)) as [b|]; [|congruence].
    apply includes_false in Hn. rewrite Hn. simpl.
    rewrite map_get_adjust, String.eqb_refl, Eg. simpl.
    split; [reflexivity|]. split; [|split].
    + intros k Hk. rewrite map_get_adjust.
      destruct (groupId =? k) eqn:E; [|reflexivity].
      apply String.eqb_eq in E. congruence.
    + apply map_keys_adjust.
    + now rewrite <- app_assoc.
Qed.

(** The theorem at group "B" of the two-group example: /b.js:5 is appended. *)
Lemma addMember_idempotent_witness :
  members "gB" (groups (addBreakpointToGroup "/b.js:5" "gB" demoAB)) = ["/b.js:5"]
  /\ addBreakpointToGroup "/b.js:5" "gB" (addBreakpointToGroup "/b.js:5" "gB" demoAB)
     = addBreakpointToGroup "/b.js:5" "gB" demoAB.
Proof.
  pose proof (addMember_idempotent "/b.js:5" "gB" demoAB) as [Hi [_ [_ Happ]]].
  split; [|exact Hi].
  apply Happ.
  - vm_compute. discriminate.
  - vm_compute. discriminate.
  - vm_compute. tauto.
Defined.

(** C7 as stated fails: for a group identifier that no group has,
    [removeBreakpointFromGroup] returns at once; nothing is saved and nothing
    is announced. *)
Lemma removeMember_absent_group_silent :
  let st' := removeBreakpointFromGroup "/a.js:10" "gX" demoAB in
  ~ In "/a.js:10" (members "gX" (groups demoAB))
  /\ effects st' = effects demoAB
  /\ effects st'
     <> (effects demoAB ++ [Persisted (map_values (groups st')); GroupsChanged])%list.
Proof.
  vm_compute. repeat split; [tauto|discriminate].
Qed.

(** C7, amended: when the group exists, the member list is filtered, which
    leaves the store as it is when the identity is not a member, and the store
    is saved and the change announced all the same; when the group does not
    exist nothing happens at all. *)
Theorem removeMember_notifies_when_group_exists (breakpointId groupId : string)
  (st : State) :
  let st' := removeBreakpointFromGroup breakpointId groupId st in
  (forall g,
      map_get groupId (groups st) = Some g ->
      members groupId (groups st')
      = filter (fun id => negb (id =? breakpointId)) (g_breakpoints g)
      /\ (~ In breakpointId (g_breakpoints g) -> groups st' = groups st)
      /\ workspaceState st' = map_values (groups st')
      /\ effects st'
         = (effects st ++ [Persisted (map_values (groups st')); GroupsChanged])%list)
  /\ (map_get groupId (groups st) = None -> st' = st).
Proof.
  intros st'. split.
  - intros g Hg. split; [|split; [|split]].
    + subst st'. rewrite members_remove, String.eqb_refl. unfold members.
      now rewrite Hg.
    + intros Hn. subst st'. unfold removeBreakpointFromGroup. rewrite Hg. simpl.
      apply map_adjust_same. intros v Hv.
      assert (v = g) by congruence. subst v.
      rewrite (filter_absent _ _ Hn). apply group_with_same_breakpoints.
    + subst st'. unfold removeBreakpointFromGroup. now rewrite Hg.
    + subst st'. unfold removeBreakpointFromGroup. rewrite Hg. simpl.
      now rewrite <- app_assoc.
  - intros Hg. subst st'. unfold removeBreakpointFromGroup. now rewrite Hg.
Qed.

(** The amended C7 at group "A" of the two-group example and an identity that
    is not a member of it. *)
Lemma removeMember_notifies_when_group_exists_witness :
  let st' := removeBreakpointFromGroup "/b.js:5" "gA" demoAB in
  groups st' = groups demoAB
  /\ effects st'
     = (effects demoAB ++ [Persisted (map_values (groups st')); GroupsChanged])%list.
Proof.
  pose proof (removeMember_notifies_when_group_exists "/b.js:5" "gA" demoAB)
    as [H _].
  specialize (H (mkGroup "gA" "A" ["/a.js:10"] true None) eq_refl).
  destruct H as [_ [Hsame [_ Heff]]].
  split; [|exact Heff].
  apply Hsame. simpl. intros [H|[]]. discriminate.
Defined.

(** ** Moving a breakpoint *)

Lemma breakpoints_remove (breakpointId groupId : string) (st : State) :
  breakpoints (removeBreakpointFromGroup breakpointId groupId st) = breakpoints st.
Proof.
  unfold removeBreakpointFromGroup. now destruct (map_get groupId (groups st)).
Qed.


Lemma getGroups_nonempty (sel : BreakpointGroup) (st : State) :
  In sel (getGroups st) -> (List.length (getGroups st) =? 0)%nat = false.
Proof.
  destruct (getGroups st); simpl; [tauto|reflexivity].
Qed.


Ltac solve_keyed :=
  split;
  [ vm_compute; repeat constructor; simpl; intuition discriminate
  | intros ? ? Hin; vm_compute in Hin;
    repeat (destruct Hin as [Hin|Hin]; [injection Hin as <- <-; reflexivity|]);
    destruct Hin ].


(** ** At most one group per identity *)

Lemma members_nil (k : string) : members k [] = [].
Proof. reflexivity. Qed.

Lemma members_cons (k k0 : string) (g : BreakpointGroup) (m : JsMap BreakpointGroup) :
  members k ((k0, g) :: m) = if k0 =? k then g_breakpoints g else members k m.
Proof. unfold members. simpl. now destruct (k0 =? k). Qed.

Lemma exclusive_subset (m m' : JsMap BreakpointGroup) :
  (forall k id, In id (members k m') -> In id (members k m)) ->
  exclusive m -> exclusive m'.
Proof.
  intros Hsub Hex id k1 k2 H1 H2. apply (Hex id); now apply Hsub.
Qed.

Lemma exclusive_add (breakpointId groupId : string) (st : State) :
  exclusive (groups st) ->
  (forall k, In breakpointId (members k (groups st)) -> k = groupId) ->
  exclusive (groups (addBreakpointToGroup breakpointId groupId st)).
Proof.
  intros Hex Hfree.
  assert (Hin : forall k id,
             In id (members k (groups (addBreakpointToGroup breakpointId groupId st))) ->
             In id (members k (groups st)) \/ (id = breakpointId /\ k = groupId)).
  { intros k id H.
    destruct (members_add breakpointId groupId k st) as [E|[Ek [_ [_ E]]]];
      rewrite E in H; [now left|].
    apply in_app_or in H. destruct H as [H|[H|[]]]; [now left|right; auto]. }
  intros id k1 k2 H1 H2.
  apply Hin in H1. apply Hin in H2.
  destruct H1 as [H1|[E1 K1]], H2 as [H2|[E2 K2]]; subst.
  - now apply (Hex id).
  - now apply Hfree.
  - symmetry. now apply Hfree.
  - reflexivity.
Qed.

Lemma wf_groups_add (breakpointId groupId : string) (st : State) :
  wf_groups (groups st) ->
  wf_groups (groups (addBreakpointToGroup breakpointId groupId st)).
Proof.
  intros Hwf. unfold addBreakpointToGroup.
  destruct (map_get groupId (groups st)); [|assumption].
  destruct (map_get breakpointId (breakpoints st)); [|assumption].
  destruct (negb _); [|assumption].
  simpl. now apply wf_groups_adjust.
Qed.

Lemma wf_groups_remove (breakpointId groupId : string) (st : State) :
  wf_groups (groups st) ->
  wf_groups (groups (removeBreakpointFromGroup breakpointId groupId st)).
Proof.
  intros Hwf. unfold removeBreakpointFromGroup.
  destruct (map_get groupId (groups st)); [|assumption].
  simpl. now apply wf_groups_adjust.
Qed.


Lemma moveOne_exclusive (breakpointId : string) (sel : BreakpointGroup) (st : State) :
  wf_groups (groups st) -> exclusive (groups st) ->
  wf_groups (groups (Command.moveOne breakpointId sel st))
  /\ exclusive (groups (Command.moveOne breakpointId sel st)).
Proof.
  intros Hwf Hex. unfold Command.moveOne.
  destruct (getGroupForBreakpoint breakpointId st) as [cur|] eqn:Hc.
  - destruct (getGroupForBreakpoint_Some _ _ _ Hwf Hc) as [Hget Hin].
    split; [now apply wf_groups_add, wf_groups_remove|].
    apply exclusive_add.
    + apply (exclusive_subset (groups st)); [|assumption].
      intros k id. rewrite members_remove.
      destruct (g_id cur =? k); [|tauto]. rewrite In_filter_neq. tauto.
    + intros k. rewrite members_remove.
      destruct (g_id cur =? k) eqn:E.
      * rewrite In_filter_neq. tauto.
      * intros H. apply String.eqb_neq in E. exfalso. apply E.
        apply (Hex breakpointId); [|assumption].
        unfold members. now rewrite Hget.
  - split; [now apply wf_groups_add|].
    apply exclusive_add; [assumption|].
    intros k H. exfalso. now apply (getGroupForBreakpoint_None _ _ Hc k).
Qed.

Lemma moveEach_exclusive (sel : BreakpointGroup) (items : list TreeItem)
  (st : State) :
  wf_groups (groups st) -> exclusive (groups st) ->
  let st' :=
    fold_left
      (fun s breakpointItem =>
         match item_breakpointId breakpointItem with
         | Some breakpointId => Command.moveOne breakpointId sel s
         | None => s
         end)
      items st in
  wf_groups (groups st') /\ exclusive (groups st').
Proof.
  revert st. induction items as [|item items IH]; intros st Hwf Hex; simpl;
    [now split|].
  destruct (item_breakpointId item) as [b|]; [|now apply IH].
  destruct (moveOne_exclusive b sel st Hwf Hex) as [Hwf' Hex'].
  now apply IH.
Qed.

Lemma runOp_exclusive (op : Op) (st : State) :
  wf_groups (groups st) -> exclusive (groups st) ->
  match op with
  | OpAdd breakpointId groupId =>
      forall k, In breakpointId (members k (groups st)) -> k = groupId
  | OpMove _ _ => True
  | OpMoveSelected _ _ => True
  end ->
  wf_groups (groups (runOp op st)) /\ exclusive (groups (runOp op st)).
Proof.
  intros Hwf Hex Hop. destruct op as [b g|element selected|selection selected]; simpl.
  - split; [now apply wf_groups_add|now apply exclusive_add].
  - unfold Command.moveBreakpointToGroup.
    destruct (Command.breakpointIdOf element) as [b|]; [|now split].
    destruct (List.length (getGroups st) =? 0)%nat; [now split|].
    destruct selected as [sel|]; [|now split].
    simpl. now apply moveOne_exclusive.
  - unfold Command.moveSelectedBreakpointsToGroup.
    destruct (List.length (filter _ selection) =? 0)%nat; [now split|].
    destruct (List.length (getGroups st) =? 0)%nat; [now split|].
    destruct selected as [sel|]; [|now split].
    simpl. now apply moveEach_exclusive.
Qed.

(** C2 as stated fails: /a.js:10 is a member of group "A" and of no other
    group; [addBreakpointToGroup] then adds it to group "B" as well, because it
    looks at the member list of "B" only. *)
Lemma addMember_breaks_exclusive :
  wf_groups (groups demoAB)
  /\ exclusive (groups demoAB)
  /\ members "gA" (groups (run [OpAdd "/a.js:10" "gB"] demoAB)) = ["/a.js:10"]
  /\ members "gB" (groups (run [OpAdd "/a.js:10" "gB"] demoAB)) = ["/a.js:10"]
  /\ ~ exclusive (groups (run [OpAdd "/a.js:10" "gB"] demoAB)).
Proof.
  split; [solve_keyed|]. split; [|split; [reflexivity|split; [reflexivity|]]].
  - intros id k1 k2. vm_compute (groups demoAB).
    rewrite !members_cons, !members_nil.
    destruct ("gA" =? k1) eqn:A1; destruct ("gA" =? k2) eqn:A2;
      destruct ("gB" =? k1) eqn:B1; destruct ("gB" =? k2) eqn:B2;
      cbn [In g_breakpoints]; try tauto.
    all: repeat match goal with
                | H : (_ =? _) = true |- _ => apply String.eqb_eq in H
                end; congruence.
  - intros H.
    assert (E : "gA" = "gB"); [|discriminate E].
    apply (H "/a.js:10"); vm_compute; tauto.
Qed.

(** C2, amended: a sequence of move operations and of [addMember] operations
    each asked for an identity that no other group lists at that moment keeps
    the member lists of the groups disjoint. *)
Theorem add_move_keep_exclusive (ops : list Op) (st : State) :
  wf_groups (groups st) ->
  exclusive (groups st) ->
  addsUngrouped ops st ->
  exclusive (groups (run ops st)).
Proof.
  revert st. induction ops as [|op ops IH]; intros st Hwf Hex Hadm; simpl.
  - assumption.
  - destruct Hadm as [Hop Hrest].
    destruct (runOp_exclusive op st Hwf Hex Hop) as [Hwf' Hex'].
    now apply IH.
Qed.

Lemma demoAB_wf : wf_groups (groups demoAB).
Proof. solve_keyed. Qed.

(** The amended C2 on the two-group example: /a.js:10 is moved from "A" to "B",
    then /b.js:5, which no group lists, is added to "A". *)
Lemma add_move_keep_exclusive_witness :
  let ops := [OpMove (Some demoItemA) (Some (mkGroup "gB" "B" [] true None));
              OpAdd "/b.js:5" "gA"] in
  members "gA" (groups (run ops demoAB)) = ["/b.js:5"]
  /\ members "gB" (groups (run ops demoAB)) = ["/a.js:10"]
  /\ exclusive (groups (run ops demoAB)).
Proof.
  intros ops. split; [reflexivity|]. split; [reflexivity|].
  apply add_move_keep_exclusive.
  - exact demoAB_wf.
  - intros id k1 k2. vm_compute (groups demoAB).
    rewrite !members_cons, !members_nil.
    destruct ("gA" =? k1) eqn:A1; destruct ("gA" =? k2) eqn:A2;
      destruct ("gB" =? k1) eqn:B1; destruct ("gB" =? k2) eqn:B2;
      cbn [In g_breakpoints]; try tauto.
    all: repeat match goal with
                | H : (_ =? _) = true |- _ => apply String.eqb_eq in H
                end; congruence.
  - simpl. split; [exact I|]. split; [|exact I].
    intros k.
    vm_compute (groups (Command.moveBreakpointToGroup _ _ demoAB)).
    rewrite !members_cons, !members_nil.
    destruct ("gA" =? k) eqn:A; destruct ("gB" =? k) eqn:B;
      cbn [In g_breakpoints]; try tauto.
    all: intros H; vm_compute in H; try tauto;
      destruct H as [H|[]]; discriminate H.
Defined.

(** ** Ungrouped breakpoints *)

Lemma In_values_get {V : Type} (m : JsMap V) (v : V) :
  In v (map_values m) <-> exists k, In (k, v) m.
Proof.
  unfold map_values. rewrite in_map_iff. split.
  - intros [[k v'] [E H]]. simpl in E. subst. eauto.
  - intros [k H]. exists (k, v). auto.
Qed.

Lemma In_keys {V : Type} (m : JsMap V) (k : string) (v : V) :
  In (k, v) m -> In k (map_keys m).
Proof. intros H. unfold map_keys. change k with (fst (k, v)). now apply in_map. Qed.

(** C6: in a state whose maps are what a [Map] filled by the manager is (keys
    occur once, an object is stored under its own [id]), a mirrored breakpoint
    is either ungrouped or a present member of some group, every ungrouped
    breakpoint and every present member is mirrored, and no ungrouped
    breakpoint is a present member of any group. *)
Theorem ungrouped_and_present_partition (st : State) :
  wf_groups (groups st) ->
  wf_mirror (breakpoints st) ->
  (forall bp,
      In bp (getBreakpoints st)
      <-> In bp (getUngroupedBreakpoints st)
          \/ exists k, In k (map_keys (groups st))
                       /\ In bp (getBreakpointsInGroup k st))
  /\ (forall bp k,
         In bp (getUngroupedBreakpoints st) ->
         ~ In bp (getBreakpointsInGroup k st)).
Proof.
  intros [NDg Hgid] [NDm Hmid].
  assert (Hgrouped : forall id,
             In id (flat_map g_breakpoints (map_values (groups st)))
             <-> exists k G, In (k, G) (groups st) /\ In id (g_breakpoints G)).
  { intros id. rewrite in_flat_map. split.
    - intros [G [HG Hid]]. apply In_values_get in HG. destruct HG as [k HG]. eauto.
    - intros [k [G [HG Hid]]]. exists G. split; [|assumption].
      apply In_values_get. eauto. }
  split.
  - intros bp. unfold getUngroupedBreakpoints, getBreakpoints. rewrite filter_In.
    split.
    + intros Hbp.
      destruct (includes (flat_map g_breakpoints (map_values (groups st))) (b_id bp))
        eqn:Ei.
      * right. apply includes_In, Hgrouped in Ei.
        destruct Ei as [k [G [HG Hid]]]. exists k. split; [now apply In_keys in HG|].
        apply getBreakpointsInGroup_In. exists G, (b_id bp).
        split; [now apply In_map_get|]. split; [assumption|].
        apply In_values_get in Hbp. destruct Hbp as [kb Hbp].
        rewrite (Hmid _ _ Hbp). now apply In_map_get.
      * left. now split.
    + intros [[H _]|[k [_ H]]]; [assumption|].
      apply getBreakpointsInGroup_In in H. destruct H as [G [m [_ [_ H]]]].
      apply map_get_In in H. apply In_values_get. eauto.
  - intros bp k Hu Hp. unfold getUngroupedBreakpoints in Hu.
    apply filter_In in Hu. destruct Hu as [_ Hu].
    apply negb_true_iff, includes_false in Hu. apply Hu, Hgrouped.
    apply getBreakpointsInGroup_In in Hp. destruct Hp as [G [m [HG [Hm Hbp]]]].
    apply map_get_In in HG, Hbp. rewrite (Hmid _ _ Hbp). eauto.
Qed.

(** C6 on the two-group example: /b.js:5 is ungrouped and is no present member
    of group "A". *)
Lemma ungrouped_and_present_partition_witness :
  let b := mkInfo "/b.js:5" "/b.js" 5 (Some 2) (Some "x > 1")
                  (Some (parseInt "3")) None false in
  In b (getUngroupedBreakpoints demoAB)
  /\ ~ In b (getBreakpointsInGroup "gA" demoAB).
Proof.
  intros b.
  assert (Hm : wf_mirror (breakpoints demoAB)) by solve_keyed.
  destruct (ungrouped_and_present_partition demoAB demoAB_wf Hm) as [_ H].
  assert (Hu : In b (getUngroupedBreakpoints demoAB)) by (vm_compute; tauto).
  split; [exact Hu|]. now apply H.
Defined.

(** ** Removing all groups *)

Lemma map_get_map_values {V : Type} (f : V -> V) (k : string) (m : JsMap V) :
  map_get k (map (fun kv => (fst kv, f (snd kv))) m) = option_map f (map_get k m).
Proof.
  induction m as [|[k0 v0] m IH]; simpl; [reflexivity|].
  now destruct (k0 =? k).
Qed.

(** What the confirmed command does to any state with a group: every group
    stays in the store with an empty member list, so every mirrored breakpoint
    is ungrouped; the mirror and the editor are not touched. *)
Lemma removeAllGroups_clears_members (st : State) :
  groups st <> [] ->
  let st' := Command.removeAllGroups (Some "Remove All Groups") st in
  map_keys (groups st') = map_keys (groups st)
  /\ (forall k, members k (groups st') = [])
  /\ getUngroupedBreakpoints st' = getBreakpoints st'
  /\ breakpoints st' = breakpoints st
  /\ vscodeBreakpoints st' = vscodeBreakpoints st
  /\ pending st' = pending st.
Proof.
  intros Hne st'. subst st'. unfold Command.removeAllGroups, getGroups, map_values.
  assert (Hlen : (List.length (map snd (groups st)) =? 0)%nat = false)
    by (destruct (groups st); [congruence|reflexivity]).
  rewrite Hlen. simpl.
  split; [|split; [|split; [|repeat split]]].
  - unfold map_keys. rewrite map_map. reflexivity.
  - intros k. unfold members. rewrite map_get_map_values.
    now destruct (map_get k (groups st)).
  - unfold getUngroupedBreakpoints, getBreakpoints. simpl.
    apply forallb_filter_id. apply forallb_forall. intros bp _.
    apply negb_true_iff, includes_false. rewrite in_flat_map.
    intros [g [Hg Hin]]. unfold map_values in Hg. rewrite map_map in Hg.
    apply in_map_iff in Hg. destruct Hg as [kv [<- _]]. exact Hin.
Qed.

(** C4 at the two-group example: after the confirmed command both groups are
    still in the store and in the saved data, with empty member lists, although
    the message says that the groups were removed; the breakpoints are all
    ungrouped and the mirror and the editor are as before. *)
Theorem removeAllGroups_leaves_groups :
  let st' := Command.removeAllGroups (Some "Remove All Groups") demoAB in
  getGroups demoAB
  = [mkGroup "gA" "A" ["/a.js:10"] true None; mkGroup "gB" "B" [] true None]
  /\ getGroups st' = [mkGroup "gA" "A" [] true None; mkGroup "gB" "B" [] true None]
  /\ workspaceState st' = getGroups st'
  /\ last (effects st') GroupsChanged
     = InformationMessage "Removed all 2 groups. Breakpoints are now ungrouped."
  /\ getUngroupedBreakpoints st' = getBreakpoints st'
  /\ breakpoints st' = breakpoints demoAB
  /\ vscodeBreakpoints st' = vscodeBreakpoints demoAB.
Proof.
  vm_compute. repeat split.
Qed.

(** ** The checkbox handler *)










(** ** Replacing a breakpoint of the editor *)

Lemma findSourceBreakpoint_Some (breakpointId : string) (l : list Breakpoint)
  (b : SourceBreakpoint) :
  findSourceBreakpoint breakpointId l = Some b ->
  In (Source b) l /\ generateBreakpointId b = breakpointId.
Proof.
  induction l as [|[s|u e f] l IH]; simpl; [discriminate| |].
  - destruct (generateBreakpointId s =? breakpointId) eqn:E.
    + intros [= ->]. apply String.eqb_eq in E. auto.
    + intros H. destruct (IH H). auto.
  - intros H. destruct (IH H). auto.
Qed.

(** The breakpoint found is the first source breakpoint with that identity. *)
Lemma findSourceBreakpoint_first (breakpointId : string) (l : list Breakpoint)
  (b : SourceBreakpoint) :
  findSourceBreakpoint breakpointId l = Some b ->
  exists before after,
    l = (before ++ Source b :: after)%list
    /\ findSourceBreakpoint breakpointId before = None.
Proof.
  induction l as [|[s|u e f] l IH]; simpl; [discriminate| |].
  - destruct (generateBreakpointId s =? breakpointId) eqn:E.
    + intros [= ->]. now exists [], l.
    + intros H. destruct (IH H) as [before [after [-> Hn]]].
      exists (Source s :: before), after. simpl. now rewrite E.
  - intros H. destruct (IH H) as [before [after [-> Hn]]].
    now exists (Function u e f :: before), after.
Qed.

Lemma findSourceBreakpoint_None (breakpointId : string) (l : list Breakpoint) :
  findSourceBreakpoint breakpointId l = None <->
  forall b, In (Source b) l -> generateBreakpointId b <> breakpointId.
Proof.
  induction l as [|[s|u e f] l IH]; simpl.
  - split; [intros _ b []|reflexivity].
  - destruct (generateBreakpointId s =? breakpointId) eqn:E.
    + apply String.eqb_eq in E. split; [discriminate|].
      intros H. exfalso. apply (H s); auto.
    + apply String.eqb_neq in E. rewrite IH. split.
      * intros H b [[= <-]|Hb]; auto.
      * intros H b Hb. auto.
  - rewrite IH. split.
    + intros H b [Hb|Hb]; [discriminate|auto].
    + intros H b Hb. auto.
Qed.

Lemma isLive_false_iff (bp : Breakpoint) (l : list Breakpoint) :
  isLive bp l = false <-> forall b, In b l -> bp_uid b <> bp_uid bp.
Proof.
  unfold isLive. split.
  - intros H b Hb E.
    assert (Ht : existsb (fun b0 => (bp_uid b0 =? bp_uid bp)%nat) l = true).
    { apply existsb_exists. exists b. split; [assumption|now apply Nat.eqb_eq]. }
    congruence.
  - intros H. destruct (existsb _ l) eqn:E; [|reflexivity].
    apply existsb_exists in E. destruct E as [b [Hb E]].
    apply Nat.eqb_eq in E. now elim (H b Hb).
Qed.

Lemma In_dropUid (u : nat) (l : list Breakpoint) (b : Breakpoint) :
  In b (dropUid u l) <-> In b l /\ bp_uid b <> u.
Proof.
  unfold dropUid. rewrite filter_In, negb_true_iff, Nat.eqb_neq. tauto.
Qed.

Lemma dropUid_not_live (bp : Breakpoint) (l : list Breakpoint) :
  isLive bp l = false -> dropUid (bp_uid bp) l = l.
Proof.
  intros H. unfold dropUid. apply forallb_filter_id, forallb_forall.
  intros b Hb. apply negb_true_iff, Nat.eqb_neq.
  now apply (proj1 (isLive_false_iff bp l) H).
Qed.

(** What [replaceBreakpoint] does when identities are fresh: the object [old]
    leaves the list if it is live, the new object is appended.  With a queue,
    one notification for the removal, if there was one, and one for the
    addition wait in it; without, the listener has run for each and has read
    the mirror anew. *)
Lemma replaceBreakpoint_spec (old : SourceBreakpoint) (enabled : bool) (st : State) :
  wf_host st ->
  let new := replacement old enabled (nextUid st) in
  let live := (dropUid (sb_uid old) (vscodeBreakpoints st) ++ [Source new])%list in
  replaceBreakpoint old enabled st
  = match delivery st with
    | Queued =>
        mkState (groups st) (breakpoints st) (workspaceState st) (effects st)
          live (S (nextUid st))
          (pending st
             ++ (if isLive (Source old) (vscodeBreakpoints st)
                 then [mkEvent [] [Source old] []] else [])
             ++ [mkEvent [Source new] [] []])
          Queued
    | AtOnce =>
        mkState (groups st) (mirrorOf live) (workspaceState st)
          (effects st
             ++ (if isLive (Source old) (vscodeBreakpoints st)
                 then [GroupsChanged] else [])
             ++ [GroupsChanged])
          live (S (nextUid st)) (pending st) AtOnce
    end.
Proof.
  intros [_ Hwf] new live.
  assert (Hfresh : isLive (Source new) (dropUid (sb_uid old) (vscodeBreakpoints st))
                   = false).
  { apply isLive_false_iff. intros b Hb. apply In_dropUid in Hb.
    destruct Hb as [Hb _]. apply Hwf in Hb. simpl. lia. }
  unfold replaceBreakpoint, newSourceBreakpoint, removeBreakpoints, addBreakpoints.
  fold (replacement old enabled (nextUid st)). fold new.
  cbn [removeEach vscodeBreakpoints with_nextUid].
  destruct (isLive (Source old) (vscodeBreakpoints st)) eqn:El.
  - unfold post, with_host, with_pending, with_nextUid.
    cbn [delivery vscodeBreakpoints addEach bp_uid].
    destruct (delivery st) eqn:Ed.
    + unfold onDidChangeBreakpoints, syncBreakpoints, fireGroupsChanged, emit,
        with_breakpoints.
      cbn [added removed List.length Nat.ltb Nat.leb orb vscodeBreakpoints
           addEach bp_uid].
      rewrite Hfresh.
      cbn [delivery added removed List.length Nat.ltb Nat.leb orb
           vscodeBreakpoints groups breakpoints workspaceState effects nextUid
           pending].
      subst live. now rewrite <- app_assoc.
    + cbn [vscodeBreakpoints addEach bp_uid]. rewrite Hfresh.
      cbn [delivery vscodeBreakpoints groups breakpoints workspaceState effects
           nextUid pending].
      subst live. now rewrite <- app_assoc.
  - pose proof (dropUid_not_live _ _ El) as Ed'. cbn [bp_uid] in Ed'.
    rewrite Ed' in Hfresh.
    unfold post, with_host, with_pending, with_nextUid.
    cbn [delivery vscodeBreakpoints addEach]. rewrite Hfresh.
    cbn [delivery vscodeBreakpoints groups breakpoints workspaceState effects
         nextUid pending].
    subst live. rewrite Ed'.
    destruct (delivery st) eqn:Ed; [|reflexivity].
    unfold onDidChangeBreakpoints, syncBreakpoints, fireGroupsChanged, emit,
      with_breakpoints.
    reflexivity.
Qed.

(** ** The mirror as a function of the editor's list *)

Lemma findSourceBreakpoint_app (k : string) (l1 l2 : list Breakpoint) :
  findSourceBreakpoint k (l1 ++ l2)
  = match findSourceBreakpoint k l1 with
    | Some b => Some b
    | None => findSourceBreakpoint k l2
    end.
Proof.
  induction l1 as [|[s|u e f] l1 IH]; simpl; [reflexivity| |exact IH].
  now destruct (generateBreakpointId s =? k).
Qed.

Lemma mirror_fold_get (k : string) (l : list Breakpoint) (m0 : JsMap BreakpointInfo) :
  map_get k
    (fold_left
       (fun m bp =>
          match bp with
          | Source b => map_set (generateBreakpointId b) (toBreakpointInfo b) m
          | Function _ _ _ => m
          end)
       l m0)
  = match findSourceBreakpoint k (rev l) with
    | Some b => Some (toBreakpointInfo b)
    | None => map_get k m0
    end.
Proof.
  revert m0. induction l as [|bp l IH]; intros m0; simpl; [reflexivity|].
  rewrite IH, findSourceBreakpoint_app.
  destruct (findSourceBreakpoint k (rev l)); [reflexivity|].
  destruct bp as [s|u e f]; simpl; [|reflexivity].
  rewrite map_get_set. now destruct (generateBreakpointId s =? k).
Qed.

(** The mirror holds, under an identity, the record of the last live source
    breakpoint with that identity. *)
Lemma mirrorOf_get (k : string) (l : list Breakpoint) :
  map_get k (mirrorOf l)
  = option_map toBreakpointInfo (findSourceBreakpoint k (rev l)).
Proof.
  unfold mirrorOf. rewrite mirror_fold_get.
  now destruct (findSourceBreakpoint k (rev l)).
Qed.

(** ** Delivering the notifications *)

Lemma onDidChangeBreakpoints_frame (e : BreakpointsChangeEvent) (st : State) :
  vscodeBreakpoints (onDidChangeBreakpoints e st) = vscodeBreakpoints st
  /\ groups (onDidChangeBreakpoints e st) = groups st
  /\ nextUid (onDidChangeBreakpoints e st) = nextUid st
  /\ pending (onDidChangeBreakpoints e st) = pending st
  /\ workspaceState (onDidChangeBreakpoints e st) = workspaceState st
  /\ delivery (onDidChangeBreakpoints e st) = delivery st.
Proof.
  unfold onDidChangeBreakpoints.
  destruct ((0 <? List.length (added e))%nat || (0 <? List.length (removed e))%nat);
    repeat split.
Qed.

Lemma deliver_frame (es : list BreakpointsChangeEvent) (st : State) :
  vscodeBreakpoints (deliver es st) = vscodeBreakpoints st
  /\ groups (deliver es st) = groups st
  /\ nextUid (deliver es st) = nextUid st
  /\ pending (deliver es st) = pending st
  /\ workspaceState (deliver es st) = workspaceState st
  /\ delivery (deliver es st) = delivery st.
Proof.
  revert st. induction es as [|e es IH]; intros st; simpl; [repeat split|].
  destruct (IH (onDidChangeBreakpoints e st)) as [H1 [H2 [H3 [H4 [H5 H6]]]]].
  destruct (onDidChangeBreakpoints_frame e st) as [F1 [F2 [F3 [F4 [F5 F6]]]]].
  repeat split; congruence.
Qed.

Lemma deliver_app (es1 es2 : list BreakpointsChangeEvent) (st : State) :
  deliver (es1 ++ es2) st = deliver es2 (deliver es1 st).
Proof.
  revert st. induction es1 as [|e es1 IH]; intros st; simpl; [reflexivity|apply IH].
Qed.

(** Every waiting notification is delivered: the queue is empty afterwards and
    the editor's list, the groups and the saved data are as before. *)
Lemma settle_frame (st : State) :
  pending (settle st) = []
  /\ vscodeBreakpoints (settle st) = vscodeBreakpoints st
  /\ groups (settle st) = groups st
  /\ nextUid (settle st) = nextUid st
  /\ workspaceState (settle st) = workspaceState st
  /\ delivery (settle st) = delivery st.
Proof.
  unfold settle.
  destruct (deliver_frame (pending st) (with_pending [] st))
    as [H1 [H2 [H3 [H4 [H5 H6]]]]].
  repeat split; assumption.
Qed.

(** With nothing waiting, delivery changes nothing. *)
Lemma settle_idle (st : State) : pending st = [] -> settle st = st.
Proof.
  intros H. unfold settle. rewrite H. simpl. destruct st; simpl in *. now subst.
Qed.

(** When the last waiting notification reports an addition, the mirror after
    delivery is the mirror of the editor's list. *)
Lemma settle_mirror (st : State) (es : list BreakpointsChangeEvent)
  (e : BreakpointsChangeEvent) :
  pending st = (es ++ [e])%list -> added e <> [] ->
  breakpoints (settle st) = mirrorOf (vscodeBreakpoints st).
Proof.
  intros Hp Ha. unfold settle. rewrite Hp, deliver_app. simpl.
  unfold onDidChangeBreakpoints.
  assert (E : (0 <? List.length (added e))%nat = true).
  { destruct (added e); [congruence|reflexivity]. }
  rewrite E. simpl.
  destruct (deliver_frame es (with_pending [] st)) as [H _]. now rewrite H.
Qed.

Lemma uid_determines (l : list Breakpoint) (a b : Breakpoint) :
  NoDup (map bp_uid l) -> In a l -> In b l -> bp_uid a = bp_uid b -> a = b.
Proof.
  induction l as [|x l IH]; simpl; intros ND Ha Hb E; [destruct Ha|].
  inversion ND as [|? ? Hn ND']; subst.
  destruct Ha as [->|Ha], Hb as [->|Hb].
  - reflexivity.
  - exfalso. apply Hn. rewrite E. now apply in_map.
  - exfalso. apply Hn. rewrite <- E. now apply in_map.
  - now apply IH.
Qed.

Lemma findSourceBreakpoint_In (k : string) (l : list Breakpoint) (s : SourceBreakpoint) :
  In (Source s) l -> generateBreakpointId s = k -> findSourceBreakpoint k l <> None.
Proof.
  intros Hin Hid Hn.
  now apply (proj1 (findSourceBreakpoint_None k l) Hn s).
Qed.

Lemma findSourceBreakpoint_rev (k : string) (l : list Breakpoint) :
  findSourceBreakpoint k (rev l) <> None <-> findSourceBreakpoint k l <> None.
Proof.
  split; intros H.
  - destruct (findSourceBreakpoint k (rev l)) as [s|] eqn:E; [|now elim H].
    destruct (findSourceBreakpoint_Some _ _ _ E) as [Hin Hid].
    apply in_rev in Hin. now apply (findSourceBreakpoint_In k l s).
  - destruct (findSourceBreakpoint k l) as [s|] eqn:E; [|now elim H].
    destruct (findSourceBreakpoint_Some _ _ _ E) as [Hin Hid].
    apply in_rev in Hin. now apply (findSourceBreakpoint_In k (rev l) s).
Qed.

Lemma mirrorOf_holds (k : string) (l : list Breakpoint) :
  map_get k (mirrorOf l) <> None <-> findSourceBreakpoint k l <> None.
Proof.
  rewrite mirrorOf_get, <- findSourceBreakpoint_rev.
  destruct (findSourceBreakpoint k (rev l)); simpl; split; congruence.
Qed.

(** Taking out objects whose identity is not [k] does not change what is found
    for [k]. *)
Lemma findSourceBreakpoint_filter (k : string) (p : Breakpoint -> bool)
  (l : list Breakpoint) :
  (forall s, In (Source s) l -> p (Source s) = false -> generateBreakpointId s <> k) ->
  findSourceBreakpoint k (filter p l) = findSourceBreakpoint k l.
Proof.
  induction l as [|[s|u e f] l IH]; intros H; simpl; [reflexivity| |].
  - destruct (p (Source s)) eqn:Ep; simpl.
    + destruct (generateBreakpointId s =? k); [reflexivity|].
      apply IH. intros s' Hs'. apply H. now right.
    + assert (Hne : generateBreakpointId s <> k) by (apply H; [now left|assumption]).
      apply String.eqb_neq in Hne. rewrite Hne.
      apply IH. intros s' Hs'. apply H. now right.
  - destruct (p (Function u e f)); simpl;
      apply IH; intros s' Hs'; apply H; now right.
Qed.

Lemma toBreakpointInfo_replacement (old : SourceBreakpoint) (enabled : bool)
  (uid : nat) :
  toBreakpointInfo (replacement old enabled uid)
  = info_with_enabled enabled (toBreakpointInfo old).
Proof. reflexivity. Qed.

Lemma wf_host_replaceBreakpoint (old : SourceBreakpoint) (enabled : bool) (st : State) :
  wf_host st -> wf_host (replaceBreakpoint old enabled st).
Proof.
  intros Hwf. rewrite (replaceBreakpoint_spec old enabled st Hwf).
  destruct Hwf as [ND Hlt].
  assert (H : NoDup (map bp_uid (dropUid (sb_uid old) (vscodeBreakpoints st)
                                   ++ [Source (replacement old enabled (nextUid st))]))
              /\ forall b,
                    In b (dropUid (sb_uid old) (vscodeBreakpoints st)
                            ++ [Source (replacement old enabled (nextUid st))]) ->
                    bp_uid b < S (nextUid st)).
  { split.
    - rewrite map_app. apply NoDup_app.
      + clear Hlt. unfold dropUid.
        induction (vscodeBreakpoints st) as [|x l IH]; simpl; [constructor|].
        inversion ND as [|? ? Hn ND']; subst.
        destruct (negb (bp_uid x =? sb_uid old)%nat); simpl; [|now apply IH].
        constructor; [|now apply IH].
        intros Hx. apply Hn. apply in_map_iff in Hx.
        destruct Hx as [y [Ey Hy]]. apply filter_In in Hy.
        rewrite <- Ey. apply in_map. tauto.
      + simpl. repeat constructor. tauto.
      + intros u Hu [<-|[]]. apply in_map_iff in Hu.
        destruct Hu as [y [Ey Hy]]. apply In_dropUid in Hy.
        destruct Hy as [Hy _]. apply Hlt in Hy. simpl in Ey. lia.
    - intros b Hb. apply in_app_or in Hb. destruct Hb as [Hb|[<-|[]]].
      + apply In_dropUid in Hb. destruct Hb as [Hb _]. apply Hlt in Hb. lia.
      + simpl. lia. }
  destruct (delivery st); exact H.
Qed.

Lemma generateBreakpointId_replacement (old : SourceBreakpoint) (enabled : bool)
  (uid : nat) :
  generateBreakpointId (replacement old enabled uid) = generateBreakpointId old.
Proof. reflexivity. Qed.

(** C8: [toggleBreakpoint] looks for the first live source breakpoint whose
    recomputed identity is the one asked for.  When there is none the state is
    returned as it is.  When there is one, it is removed and a new object with
    the same location, condition, hit condition and log message and with the
    new flag is added, in that order, and then the manager writes the new flag,
    and nothing else, into the record the mirror holds under the identity;
    groups and saved data are as before.

    With a queue of notifications, the mirror after the call is therefore the
    mirror before it with that one field changed, and the two notifications
    wait; once they are delivered the listener reads the mirror anew.  With
    notifications at once, the listener has read the mirror anew during the two
    calls of the editor; when the mirror was the editor's before and the
    identity belongs to one live object, the records are again those of before
    with that one field changed. *)
Theorem toggleBreakpoint_replaces_or_does_nothing (breakpointId : string)
  (enabled : bool) (st : State) :
  wf_host st ->
  let st' := toggleBreakpoint breakpointId enabled st in
  (findSourceBreakpoint breakpointId (vscodeBreakpoints st) = None -> st' = st)
  /\ (forall old,
         findSourceBreakpoint breakpointId (vscodeBreakpoints st) = Some old ->
         let new := replacement old enabled (nextUid st) in
         let swapped := replaceBreakpoint old enabled st in
         (exists before after,
             vscodeBreakpoints st = (before ++ Source old :: after)%list
             /\ findSourceBreakpoint breakpointId before = None)
         /\ generateBreakpointId old = breakpointId
         /\ generateBreakpointId new = breakpointId
         /\ sb_location new = sb_location old
         /\ sb_condition new = sb_condition old
         /\ sb_hitCondition new = sb_hitCondition old
         /\ sb_logMessage new = sb_logMessage old
         /\ sb_enabled new = enabled
         /\ vscodeBreakpoints st'
            = (dropUid (sb_uid old) (vscodeBreakpoints st) ++ [Source new])%list
         /\ ~ In (Source old) (vscodeBreakpoints st')
         /\ st' = with_breakpoints
                    (map_adjust (info_with_enabled enabled) breakpointId
                                (breakpoints swapped))
                    swapped
         /\ groups st' = groups st
         /\ workspaceState st' = workspaceState st
         /\ (delivery st = Queued ->
             pending st'
             = (pending st
                  ++ [mkEvent [] [Source old] []; mkEvent [Source new] [] []])%list
             /\ effects st' = effects st
             /\ breakpoints st'
                = map_adjust (info_with_enabled enabled) breakpointId (breakpoints st)
             /\ map_keys (breakpoints st') = map_keys (breakpoints st)
             /\ breakpoints (settle st') = mirrorOf (vscodeBreakpoints st')
             /\ map_get breakpointId (breakpoints (settle st'))
                = Some (toBreakpointInfo new))
         /\ (delivery st = AtOnce ->
             pending st' = pending st
             /\ effects st' = (effects st ++ [GroupsChanged; GroupsChanged])%list
             /\ breakpoints st' = mirrorOf (vscodeBreakpoints st')
             /\ map_get breakpointId (breakpoints st') = Some (toBreakpointInfo new))
         /\ (delivery st = Queued
             \/ (breakpoints st = mirrorOf (vscodeBreakpoints st)
                 /\ forall s, In (Source s) (vscodeBreakpoints st) ->
                              generateBreakpointId s = breakpointId -> s = old) ->
             (forall k,
                 map_get k (breakpoints st')
                 = if breakpointId =? k
                   then option_map (info_with_enabled enabled)
                                   (map_get k (breakpoints st))
                   else map_get k (breakpoints st))
             /\ forall info,
                 map_get breakpointId (breakpoints st) = Some info ->
                 exists info',
                   map_get breakpointId (breakpoints st') = Some info'
                   /\ b_enabled info' = enabled
                   /\ b_id info' = b_id info /\ b_file info' = b_file info
                   /\ b_line info' = b_line info /\ b_column info' = b_column info
                   /\ b_condition info' = b_condition info
                   /\ b_hitCount info' = b_hitCount info
                   /\ b_logMessage info' = b_logMessage info)).
Proof.
  intros Hwf st'. split.
  - intros Hn. subst st'. unfold toggleBreakpoint. now rewrite Hn.
  - intros old Hf new swapped.
    destruct (findSourceBreakpoint_Some _ _ _ Hf) as [Hin Hid].
    assert (Hlive : isLive (Source old) (vscodeBreakpoints st) = true).
    { unfold isLive. apply existsb_exists. exists (Source old).
      split; [assumption|apply Nat.eqb_refl]. }
    assert (E : st' = with_breakpoints
                        (map_adjust (info_with_enabled enabled) breakpointId
                                    (breakpoints swapped))
                        swapped).
    { subst st' swapped. unfold toggleBreakpoint. now rewrite Hf. }
    pose proof (replaceBreakpoint_spec old enabled st Hwf) as Esw.
    cbv zeta in Esw. fold new swapped in Esw. rewrite Hlive in Esw.
    set (live := (dropUid (sb_uid old) (vscodeBreakpoints st) ++ [Source new])%list)
      in *.
    assert (Ehost : vscodeBreakpoints st' = live).
    { rewrite E, Esw. now destruct (delivery st). }
    assert (Hnew : map_get breakpointId (mirrorOf live)
                   = Some (toBreakpointInfo new)).
    { subst live. rewrite mirrorOf_get, rev_app_distr.
      cbn [rev app findSourceBreakpoint].
      change (generateBreakpointId new) with (generateBreakpointId old).
      now rewrite Hid, String.eqb_refl. }
    assert (Hrecord : forall info : BreakpointInfo,
               info_with_enabled enabled info
               = mkInfo (b_id info) (b_file info) (b_line info) (b_column info)
                        (b_condition info) (b_hitCount info) (b_logMessage info)
                        enabled) by reflexivity.
    assert (Hlookup :
              (forall k,
                  map_get k (breakpoints st')
                  = if breakpointId =? k
                    then option_map (info_with_enabled enabled)
                                    (map_get k (breakpoints st))
                    else map_get k (breakpoints st)) ->
              forall info,
                map_get breakpointId (breakpoints st) = Some info ->
                exists info',
                  map_get breakpointId (breakpoints st') = Some info'
                  /\ b_enabled info' = enabled
                  /\ b_id info' = b_id info /\ b_file info' = b_file info
                  /\ b_line info' = b_line info /\ b_column info' = b_column info
                  /\ b_condition info' = b_condition info
                  /\ b_hitCount info' = b_hitCount info
                  /\ b_logMessage info' = b_logMessage info).
    { intros Hk info Hinfo. exists (info_with_enabled enabled info).
      rewrite Hk, String.eqb_refl, Hinfo. simpl. repeat split. }
    split; [now apply findSourceBreakpoint_first|].
    repeat (split; [first [assumption|reflexivity]|]).
    split.
    { rewrite Ehost. subst live. intros H. apply in_app_or in H.
      destruct H as [H|[H|[]]].
      - apply In_dropUid in H. simpl in H. tauto.
      - injection H as H. destruct Hwf as [_ Hlt]. apply Hlt in Hin. simpl in Hin.
        assert (Eu : sb_uid new = sb_uid old) by now rewrite H.
        simpl in Eu. lia. }
    split; [exact E|].
    split; [rewrite E, Esw; now destruct (delivery st)|].
    split; [rewrite E, Esw; now destruct (delivery st)|].
    split; [|split].
    + intros Ed. rewrite Ed in Esw.
      assert (Eb : breakpoints st'
                   = map_adjust (info_with_enabled enabled) breakpointId
                                (breakpoints st)) by (rewrite E, Esw; reflexivity).
      assert (Ep : pending st'
                   = (pending st ++ [mkEvent [] [Source old] [];
                                     mkEvent [Source new] [] []])%list)
        by (rewrite E, Esw; reflexivity).
      split; [exact Ep|]. split; [rewrite E, Esw; reflexivity|].
      split; [exact Eb|]. split; [rewrite Eb; apply map_keys_adjust|].
      assert (Es : breakpoints (settle st') = mirrorOf (vscodeBreakpoints st')).
      { apply (settle_mirror st' (pending st ++ [mkEvent [] [Source old] []])
                             (mkEvent [Source new] [] [])); [|discriminate].
        rewrite Ep. now rewrite <- app_assoc. }
      split; [exact Es|]. now rewrite Es, Ehost.
    + intros Ed. rewrite Ed in Esw.
      assert (Eb : breakpoints st' = mirrorOf live).
      { rewrite E, Esw. cbn [with_breakpoints breakpoints].
        apply map_adjust_same. intros v Hv. rewrite Hnew in Hv.
        injection Hv as <-. reflexivity. }
      split; [rewrite E, Esw; reflexivity|].
      split; [rewrite E, Esw; reflexivity|].
      split; [now rewrite Ehost|]. now rewrite Eb.
    + intros Hcase.
      assert (Hk : forall k,
                 map_get k (breakpoints st')
                 = if breakpointId =? k
                   then option_map (info_with_enabled enabled)
                                   (map_get k (breakpoints st))
                   else map_get k (breakpoints st)).
      { destruct (delivery st) eqn:Ed.
        - destruct Hcase as [Hq|[Hco Huniq]]; [discriminate|].
          assert (Eb : breakpoints st' = mirrorOf live).
          { rewrite E, Esw. cbn [with_breakpoints breakpoints].
            apply map_adjust_same. intros v Hv. rewrite Hnew in Hv.
            injection Hv as <-. reflexivity. }
          intros k. rewrite Eb, Hco.
          destruct (breakpointId =? k) eqn:Ek.
          + apply String.eqb_eq in Ek. subst k. rewrite Hnew.
            rewrite mirrorOf_get.
            destruct (findSourceBreakpoint breakpointId (rev (vscodeBreakpoints st)))
              as [s|] eqn:Er.
            * destruct (findSourceBreakpoint_Some _ _ _ Er) as [Hs Hsid].
              apply in_rev in Hs. rewrite (Huniq s Hs Hsid). reflexivity.
            * exfalso.
              apply (proj2 (findSourceBreakpoint_rev breakpointId (vscodeBreakpoints st)));
                [|exact Er].
              now rewrite Hf.
          + apply String.eqb_neq in Ek. subst live.
            rewrite !mirrorOf_get, rev_app_distr.
            cbn [rev app findSourceBreakpoint].
            change (generateBreakpointId new) with (generateBreakpointId old).
            rewrite Hid. apply String.eqb_neq in Ek. rewrite Ek.
            unfold dropUid. rewrite <- filter_rev.
            rewrite findSourceBreakpoint_filter; [reflexivity|].
            intros s Hs Hp. apply negb_false_iff, Nat.eqb_eq in Hp.
            apply in_rev in Hs. destruct Hwf as [ND _].
            assert (Eso : Source s = Source old)
              by (apply (uid_determines (vscodeBreakpoints st)); assumption).
            injection Eso as ->. rewrite Hid. now apply String.eqb_neq.
        - intros k. rewrite E, Esw. cbn [with_breakpoints breakpoints].
          apply map_get_adjust. }
      split; [exact Hk|now apply Hlookup].
Qed.

Lemma demoAB_wf_host : wf_host demoAB.
Proof.
  split.
  - vm_compute. repeat constructor; simpl; intuition discriminate.
  - intros bp Hin. vm_compute in Hin.
    repeat (destruct Hin as [<-|Hin]; [vm_compute; lia|]). destruct Hin.
Qed.

(** C8 on the two-group example: disabling /a.js:10 replaces the live object 0
    by the new object 3, which differs in the flag only, and the mirrored
    record is disabled; disabling /c.js:1, which is not live, changes nothing. *)
Lemma toggleBreakpoint_replaces_or_does_nothing_witness :
  vscodeBreakpoints (toggleBreakpoint "/a.js:10" false demoAB)
  = [ Function 1 true "main";
      Source (mkSource 2 (mkLocation "/b.js" 4 2) false (Some "x > 1") (Some "3") None);
      Source (mkSource 3 (mkLocation "/a.js" 9 0) false None None None) ]
  /\ option_map b_enabled
       (map_get "/a.js:10" (breakpoints (toggleBreakpoint "/a.js:10" false demoAB)))
     = Some false
  /\ toggleBreakpoint "/c.js:1" false demoAB = demoAB.
Proof.
  destruct (toggleBreakpoint_replaces_or_does_nothing "/a.js:10" false demoAB
              demoAB_wf_host) as [_ H].
  destruct (toggleBreakpoint_replaces_or_does_nothing "/c.js:1" false demoAB
              demoAB_wf_host) as [Hnone _].
  specialize (H (mkSource 0 (mkLocation "/a.js" 9 0) true None None None) eq_refl).
  destruct H as [_ [_ [_ [_ [_ [_ [_ [_ [Hhost _]]]]]]]]].
  split; [exact Hhost|]. split; [reflexivity|]. apply Hnone. reflexivity.
Defined.

(** ** Enabling and disabling a group *)

Lemma replacing_mirror_holds (flag : bool) (st0 : State) (olds news : list Breakpoint)
  (st : State) (m : string) :
  replacing flag st0 olds news st ->
  findSourceBreakpoint m (vscodeBreakpoints st0) <> None ->
  map_get m (breakpoints st0) <> None ->
  map_get m (breakpoints st) <> None.
Proof.
  intros [_ [_ [_ [_ [_ [_ [Hkeep [Hm|[_ Hm]]]]]]]]] Hf H0; rewrite Hm.
  - exact H0.
  - apply mirrorOf_holds. now apply Hkeep.
Qed.

Lemma replaceBreakpoint_replacing (flag : bool) (st0 : State)
  (olds news : list Breakpoint) (o : SourceBreakpoint) (st : State) :
  wf_host st0 ->
  replacing flag st0 olds news st ->
  In (Source o) (vscodeBreakpoints st0) ->
  let new := Source (replacement o flag (nextUid st)) in
  let st' := replaceBreakpoint o flag st in
  replacing flag st0 (dropUid (sb_uid o) olds) (news ++ [new]) st'
  /\ groups st' = groups st
  /\ workspaceState st' = workspaceState st
  /\ match delivery st with
     | AtOnce => breakpoints st' = mirrorOf (vscodeBreakpoints st')
     | Queued =>
         breakpoints st' = breakpoints st
         /\ effects st' = effects st
         /\ exists es, pending st' = (es ++ [mkEvent [new] [] []])%list
     end.
Proof.
  intros [ND0 Hlt0] Hr Ho new st'.
  destruct Hr as [Hwf [Hd [Hn [Hh [Holds [Hnews [Hkeep Hmirror]]]]]]].
  pose proof (wf_host_replaceBreakpoint o flag st Hwf) as Hwf'.
  pose proof (replaceBreakpoint_spec o flag st Hwf) as E.
  cbv zeta in E. fold new st' in E. fold st' in Hwf'.
  assert (Hou : sb_uid o < nextUid st0) by (apply Hlt0 in Ho; exact Ho).
  assert (E' : vscodeBreakpoints st'
               = (dropUid (sb_uid o) (vscodeBreakpoints st) ++ [new])%list)
    by (rewrite E; now destruct (delivery st)).
  assert (Ehost : vscodeBreakpoints st'
                  = (dropUid (sb_uid o) olds ++ news ++ [new])%list).
  { rewrite E', Hh. unfold dropUid. rewrite filter_app, <- app_assoc. f_equal. f_equal.
    apply forallb_filter_id, forallb_forall. intros b Hb.
    apply negb_true_iff, Nat.eqb_neq. apply Hnews in Hb. lia. }
  assert (Ed : delivery st' = delivery st) by (rewrite E; now destruct (delivery st)).
  assert (En : nextUid st' = S (nextUid st)) by (rewrite E; now destruct (delivery st)).
  split; [|split; [|split]].
  - unfold replacing. split; [exact Hwf'|]. split; [congruence|].
    split; [lia|]. split; [exact Ehost|]. split; [|split; [|split]].
    + intros b Hb. apply In_dropUid in Hb. now apply Holds.
    + intros b Hb. apply in_app_or in Hb. destruct Hb as [Hb|[<-|[]]].
      * now apply Hnews.
      * subst new. simpl. split; [lia|]. eexists. split; reflexivity.
    + intros k Hk. specialize (Hkeep k Hk).
      destruct (findSourceBreakpoint k (vscodeBreakpoints st)) as [s|] eqn:Es;
        [|now elim Hkeep].
      destruct (findSourceBreakpoint_Some _ _ _ Es) as [Hs Hsid].
      destruct (Nat.eq_dec (sb_uid s) (sb_uid o)) as [Eu|Nu].
      * assert (Hs0 : In (Source s) (vscodeBreakpoints st0)).
        { rewrite Hh in Hs. apply in_app_or in Hs. destruct Hs as [Hs|Hs].
          - now apply Holds.
          - apply Hnews in Hs. simpl in Hs. lia. }
        assert (Eso : Source s = Source o)
          by (apply (uid_determines (vscodeBreakpoints st0)); assumption).
        injection Eso as ->.
        apply (findSourceBreakpoint_In k _ (replacement o flag (nextUid st)));
          [|exact Hsid].
        rewrite E'. apply in_or_app. right. now left.
      * apply (findSourceBreakpoint_In k _ s); [|exact Hsid].
        rewrite E'. apply in_or_app. left. apply In_dropUid.
        split; [assumption|exact Nu].
    + destruct (delivery st) eqn:Edel.
      * right. split; [exact Ed|]. rewrite E. reflexivity.
      * left. destruct Hmirror as [Hm|[Hc _]]; [|congruence].
        rewrite E. exact Hm.
  - rewrite E. now destruct (delivery st).
  - rewrite E. now destruct (delivery st).
  - destruct (delivery st) eqn:Edel; rewrite E.
    + reflexivity.
    + split; [reflexivity|]. split; [reflexivity|].
      cbn [pending]. eexists. rewrite app_assoc. reflexivity.
Qed.

(** One round keeps the shape of the state. *)
Lemma updateGroupBreakpoint_replacing (flag : bool) (st0 : State)
  (olds news : list Breakpoint) (st : State) (m : string) :
  wf_host st0 ->
  replacing flag st0 olds news st ->
  let st' := updateGroupBreakpoint (vscodeBreakpoints st0) flag st m in
  (exists olds' news', replacing flag st0 olds' news' st')
  /\ groups st' = groups st
  /\ workspaceState st' = workspaceState st
  /\ (delivery st = Queued -> breakpoints st' = breakpoints st /\ effects st' = effects st).
Proof.
  intros Hwf0 Hr st'. subst st'. unfold updateGroupBreakpoint.
  assert (Hsame : (exists olds' news', replacing flag st0 olds' news' st)
                  /\ groups st = groups st
                  /\ workspaceState st = workspaceState st
                  /\ (delivery st = Queued ->
                      breakpoints st = breakpoints st /\ effects st = effects st)).
  { split; [exists olds, news; exact Hr|]. repeat split. }
  destruct (map_get m (breakpoints st)) as [info|]; [|exact Hsame].
  destruct (findSourceBreakpoint m (vscodeBreakpoints st0)) as [o|] eqn:Ef;
    [|exact Hsame].
  destruct (findSourceBreakpoint_Some _ _ _ Ef) as [Hin _].
  destruct (replaceBreakpoint_replacing flag st0 olds news o st Hwf0 Hr Hin)
    as [H [Hg [Hw Hd]]].
  split; [eauto|]. split; [exact Hg|]. split; [exact Hw|].
  intros Eq. rewrite Eq in Hd. tauto.
Qed.

(** One round for a member that the mirror held at the start, and for which
    the snapshot has an object, replaces that object. *)
Lemma updateGroupBreakpoint_replaces (flag : bool) (st0 : State)
  (olds news : list Breakpoint) (st : State) (m : string) (old : SourceBreakpoint) :
  wf_host st0 ->
  replacing flag st0 olds news st ->
  map_get m (breakpoints st0) <> None ->
  findSourceBreakpoint m (vscodeBreakpoints st0) = Some old ->
  replaced flag st0 old (updateGroupBreakpoint (vscodeBreakpoints st0) flag st m).
Proof.
  intros Hwf0 Hr Hm Ef.
  assert (Hnow : map_get m (breakpoints st) <> None).
  { apply (replacing_mirror_holds flag st0 olds news st m Hr); [|exact Hm].
    now rewrite Ef. }
  unfold updateGroupBreakpoint.
  destruct (map_get m (breakpoints st)) as [info|]; [|congruence]. rewrite Ef.
  destruct (findSourceBreakpoint_Some _ _ _ Ef) as [Hin _].
  destruct (replaceBreakpoint_replacing flag st0 olds news old st Hwf0 Hr Hin)
    as [H [_ [_ Hd]]].
  assert (Edel : delivery (replaceBreakpoint old flag st) = delivery st).
  { destruct H as [_ [Hd' _]]. destruct Hr as [_ [Hd0 _]]. congruence. }
  exists (dropUid (sb_uid old) olds),
         (news ++ [Source (replacement old flag (nextUid st))])%list.
  split; [exact H|]. split; [|split].
  - intros b Hb. apply In_dropUid in Hb. tauto.
  - exists (nextUid st). apply in_or_app. right. now left.
  - rewrite Edel. destruct (delivery st) eqn:Edl; [exact Hd|].
    destruct Hd as [Hb [_ [es Hp]]].
    destruct Hr as [_ [Hd0 [_ [_ [_ [_ [_ [Hmir|[Hc _]]]]]]]]]; [|congruence].
    split; [congruence|].
    exists es, (mkEvent [Source (replacement old flag (nextUid st))] [] []).
    split; [exact Hp|discriminate].
Qed.

(** Once an object is replaced, the later rounds leave it so. *)
Lemma updateGroupBreakpoint_keeps (flag : bool) (st0 : State) (st : State)
  (m : string) (old : SourceBreakpoint) :
  wf_host st0 ->
  replaced flag st0 old st ->
  replaced flag st0 old (updateGroupBreakpoint (vscodeBreakpoints st0) flag st m).
Proof.
  intros Hwf0 Hd. unfold updateGroupBreakpoint.
  destruct (map_get m (breakpoints st)) as [info|]; [|assumption].
  destruct (findSourceBreakpoint m (vscodeBreakpoints st0)) as [o|] eqn:Ef;
    [|assumption].
  destruct (findSourceBreakpoint_Some _ _ _ Ef) as [Hin _].
  destruct Hd as [olds [news [Hr [Hgone [[uid Hnew] Hlast]]]]].
  destruct (replaceBreakpoint_replacing flag st0 olds news o st Hwf0 Hr Hin)
    as [H [_ [_ Hd]]].
  assert (Edel : delivery (replaceBreakpoint o flag st) = delivery st).
  { destruct H as [_ [Hd' _]]. destruct Hr as [_ [Hd0 _]]. congruence. }
  exists (dropUid (sb_uid o) olds),
         (news ++ [Source (replacement o flag (nextUid st))])%list.
  split; [exact H|]. split; [|split].
  - intros b Hb. apply In_dropUid in Hb. apply Hgone. tauto.
  - exists uid. apply in_or_app. now left.
  - rewrite Edel. destruct (delivery st) eqn:Edl; [exact Hd|].
    destruct Hd as [Hb [_ [es Hp]]]. destruct Hlast as [Hb0 _].
    split; [congruence|].
    exists es, (mkEvent [Source (replacement o flag (nextUid st))] [] []).
    split; [exact Hp|discriminate].
Qed.

Lemma updateGroupBreakpoints_loop_keeps (flag : bool) (st0 : State)
  (old : SourceBreakpoint) (ms : list string) (st : State) :
  wf_host st0 ->
  replaced flag st0 old st ->
  replaced flag st0 old
    (fold_left (updateGroupBreakpoint (vscodeBreakpoints st0) flag) ms st).
Proof.
  intros Hwf0. revert st. induction ms as [|m ms IH]; intros st Hd; simpl.
  - exact Hd.
  - apply IH. now apply updateGroupBreakpoint_keeps.
Qed.


(** The loop replaces the object found for every member that the mirror
    holds. *)
Lemma updateGroupBreakpoints_loop_replaces (flag : bool) (st0 : State)
  (old : SourceBreakpoint) (m : string) (ms : list string) (st : State)
  (olds news : list Breakpoint) :
  wf_host st0 ->
  replacing flag st0 olds news st ->
  In m ms ->
  map_get m (breakpoints st0) <> None ->
  findSourceBreakpoint m (vscodeBreakpoints st0) = Some old ->
  replaced flag st0 old
    (fold_left (updateGroupBreakpoint (vscodeBreakpoints st0) flag) ms st).
Proof.
  intros Hwf0. revert st olds news.
  induction ms as [|m' ms IH]; intros st olds news Hr Hin Hm Ef; simpl.
  - destruct Hin.
  - destruct (string_dec m' m) as [->|Hne].
    + apply updateGroupBreakpoints_loop_keeps; [assumption|].
      now apply (updateGroupBreakpoint_replaces flag st0 olds news st m old).
    + destruct Hin as [E|Hin]; [congruence|].
      destruct (updateGroupBreakpoint_replacing flag st0 olds news st m' Hwf0 Hr)
        as [[olds' [news' Hr']] _].
      now apply (IH _ _ _ Hr' Hin).
Qed.







(** ** What every reachable state satisfies *)

Section KeyedMaps.
Context {V : Type}.
Variable key : V -> string.

Lemma map_set_keys (k : string) (v : V) (m : JsMap V) :
  map_keys (map_set k v m)
  = if includes (map_keys m) k then map_keys m else (map_keys m ++ [k])%list.
Proof.
  induction m as [|[k0 v0] m IH]; simpl; [reflexivity|].
  destruct (k0 =? k) eqn:E; simpl; [reflexivity|].
  rewrite IH. now destruct (includes (map_keys m) k).
Qed.

Lemma In_map_set (k k' : string) (v v' : V) (m : JsMap V) :
  In (k', v') (map_set k v m) -> (k' = k /\ v' = v) \/ In (k', v') m.
Proof.
  induction m as [|[k0 v0] m IH]; simpl.
  - intros [[= <- <-]|[]]. now left.
  - destruct (k0 =? k) eqn:E; simpl.
    + apply String.eqb_eq in E. subst k0.
      intros [[= <- <-]|H]; [now left|now right; right].
    + intros [H|H]; [now right; left|].
      destruct (IH H) as [H'|H']; [now left|now right; right].
Qed.

Lemma keyed_set (k : string) (v : V) (m : JsMap V) :
  key v = k -> keyed key m -> keyed key (map_set k v m).
Proof.
  intros Hk [ND Hid]. split.
  - rewrite map_set_keys. destruct (includes (map_keys m) k) eqn:E; [assumption|].
    apply includes_false in E. apply NoDup_app; [assumption|repeat constructor; tauto|].
    intros x Hx [<-|[]]. contradiction.
  - intros k' v' H. destruct (In_map_set _ _ _ _ _ H) as [[-> ->]|H'];
      [assumption|now apply Hid].
Qed.

Lemma In_map_delete (k k' : string) (v' : V) (m : JsMap V) :
  In (k', v') (map_delete k m) -> In (k', v') m.
Proof.
  induction m as [|[k0 v0] m IH]; simpl; [tauto|].
  destruct (k0 =? k); simpl; [now right|].
  intros [H|H]; [now left|right; auto].
Qed.

Lemma keyed_delete (k : string) (m : JsMap V) :
  keyed key m -> keyed key (map_delete k m).
Proof.
  intros [ND Hid]. split.
  - clear Hid. induction m as [|[k0 v0] m IH]; simpl; [constructor|].
    inversion ND as [|? ? Hn ND']; subst.
    destruct (k0 =? k); simpl; [assumption|].
    constructor; [|now apply IH].
    intros Hin. apply Hn. unfold map_keys in *. apply in_map_iff in Hin.
    destruct Hin as [[k1 v1] [E H]]. simpl in E. subst k1.
    apply In_map_delete in H. change k0 with (fst (k0, v1)). now apply in_map.
  - intros k' v' H. apply Hid. now apply In_map_delete in H.
Qed.

Lemma keyed_adjust (f : V -> V) (k : string) (m : JsMap V) :
  (forall v, key (f v) = key v) -> keyed key m -> keyed key (map_adjust f k m).
Proof.
  intros Hf [ND Hid]. split.
  - now rewrite map_keys_adjust.
  - intros k' v Hin. destruct (In_map_adjust _ _ _ _ _ Hin) as [v0 [Hin0 [->| ->]]].
    + now apply Hid.
    + rewrite Hf. now apply Hid.
Qed.


End KeyedMaps.

Lemma wf_mirror_mirrorOf (l : list Breakpoint) : wf_mirror (mirrorOf l).
Proof.
  unfold mirrorOf.
  assert (H : forall m0, wf_mirror m0 ->
                         wf_mirror
                           (fold_left
                              (fun m bp =>
                                 match bp with
                                 | Source b =>
                                     map_set (generateBreakpointId b)
                                             (toBreakpointInfo b) m
                                 | Function _ _ _ => m
                                 end)
                              l m0)).
  { induction l as [|[s|u e f] l IH]; intros m0 Hm0; simpl;
      [assumption| |now apply IH].
    apply IH. now apply (keyed_set b_id). }
  apply H. split; [constructor|intros k b []].
Qed.

Lemma wf_mirror_updateBreakpointStates (st : State) :
  wf_mirror (breakpoints st) -> wf_mirror (breakpoints (updateBreakpointStates st)).
Proof.
  unfold updateBreakpointStates. simpl. generalize (breakpoints st).
  induction (vscodeBreakpoints st) as [|[s|u e f] l IH]; intros m0 Hm0; simpl;
    [assumption| |now apply IH].
  apply IH. now apply (keyed_adjust b_id).
Qed.

Lemma wf_mirror_deliver (es : list BreakpointsChangeEvent) (st : State) :
  wf_mirror (breakpoints st) -> wf_mirror (breakpoints (deliver es st)).
Proof.
  revert st. induction es as [|e es IH]; intros st H; simpl; [assumption|].
  apply IH. unfold onDidChangeBreakpoints.
  destruct ((0 <? List.length (added e))%nat || (0 <? List.length (removed e))%nat).
  - apply wf_mirror_mirrorOf.
  - now apply wf_mirror_updateBreakpointStates.
Qed.

Lemma wf_groups_loadGroups (stored : list BreakpointGroup) (m0 : JsMap BreakpointGroup) :
  wf_groups m0 ->
  wf_groups (fold_left (fun m group => map_set (g_id group) group m) stored m0).
Proof.
  revert m0. induction stored as [|g stored IH]; intros m0 H; simpl; [assumption|].
  apply IH. now apply (keyed_set g_id).
Qed.


Lemma replaceBreakpoint_invariants (o : SourceBreakpoint) (flag : bool) (st : State) :
  wf_host st -> wf_mirror (breakpoints st) ->
  wf_mirror (breakpoints (replaceBreakpoint o flag st))
  /\ groups (replaceBreakpoint o flag st) = groups st
  /\ delivery (replaceBreakpoint o flag st) = delivery st
  /\ (delivery st = AtOnce -> pending (replaceBreakpoint o flag st) = pending st).
Proof.
  intros Hw Hm. rewrite (replaceBreakpoint_spec o flag st Hw).
  destruct (delivery st); simpl.
  - split; [apply wf_mirror_mirrorOf|]. repeat split.
  - split; [exact Hm|]. split; [reflexivity|]. split; [reflexivity|discriminate].
Qed.


Lemma addBreakpointToGroup_frame (breakpointId groupId : string) (st : State) :
  breakpoints (addBreakpointToGroup breakpointId groupId st) = breakpoints st
  /\ vscodeBreakpoints (addBreakpointToGroup breakpointId groupId st)
     = vscodeBreakpoints st
  /\ nextUid (addBreakpointToGroup breakpointId groupId st) = nextUid st
  /\ delivery (addBreakpointToGroup breakpointId groupId st) = delivery st
  /\ pending (addBreakpointToGroup breakpointId groupId st) = pending st.
Proof.
  unfold addBreakpointToGroup.
  destruct (map_get groupId (groups st)); [|now repeat split].
  destruct (map_get breakpointId (breakpoints st)); [|now repeat split].
  destruct (negb _); now repeat split.
Qed.

Lemma removeBreakpointFromGroup_frame (breakpointId groupId : string) (st : State) :
  breakpoints (removeBreakpointFromGroup breakpointId groupId st) = breakpoints st
  /\ vscodeBreakpoints (removeBreakpointFromGroup breakpointId groupId st)
     = vscodeBreakpoints st
  /\ nextUid (removeBreakpointFromGroup breakpointId groupId st) = nextUid st
  /\ delivery (removeBreakpointFromGroup breakpointId groupId st) = delivery st
  /\ pending (removeBreakpointFromGroup breakpointId groupId st) = pending st.
Proof.
  unfold removeBreakpointFromGroup.
  destruct (map_get groupId (groups st)); now repeat split.
Qed.

Lemma moveOne_frame (breakpointId : string) (sel : BreakpointGroup) (st : State) :
  breakpoints (Command.moveOne breakpointId sel st) = breakpoints st
  /\ vscodeBreakpoints (Command.moveOne breakpointId sel st) = vscodeBreakpoints st
  /\ nextUid (Command.moveOne breakpointId sel st) = nextUid st
  /\ delivery (Command.moveOne breakpointId sel st) = delivery st
  /\ pending (Command.moveOne breakpointId sel st) = pending st.
Proof.
  unfold Command.moveOne.
  destruct (addBreakpointToGroup_frame breakpointId (g_id sel)
              (match getGroupForBreakpoint breakpointId st with
               | Some cur => removeBreakpointFromGroup breakpointId (g_id cur) st
               | None => st
               end)) as [A1 [A2 [A3 [A4 A5]]]].
  rewrite A1, A2, A3, A4, A5.
  destruct (getGroupForBreakpoint breakpointId st) as [cur|]; [|now repeat split].
  apply removeBreakpointFromGroup_frame.
Qed.




(** ** The scenarios of the design document, evaluated *)

Example scenario_tri_states :
  r_groupState (resolveTreeItem (mkGroup "gA" "A" ["/a.js:10"] true None) demoAB)
  = AllEnabled
  /\ r_groupState (resolveTreeItem (mkGroup "gB" "B" [] true None) demoAB)
     = AllDisabled
  /\ r_groupState
       (resolveTreeItem (mkGroup "gA" "A" ["/gone.js:1"] true None) demoOrphan)
     = AllDisabled
  /\ resolveTreeItem (mkGroup "g1" "DB" ["/a.js:10"; "/b.js:5"] true None) demoBoth
     = mkResolved Partial Unchecked "🪣 DB (1/2)" "DB - Partial (2 breakpoints)".
Proof. repeat split. Qed.

Example scenario_move :
  let st' := Command.moveBreakpointToGroup
               (Some demoItemA) (Some (mkGroup "gB" "B" [] true None)) demoAB in
  members "gA" (groups st') = [] /\ members "gB" (groups st') = ["/a.js:10"].
Proof. split; reflexivity. Qed.

Example scenario_delete :
  let st' := deleteGroup "g1" demoBoth in
  map b_id (getUngroupedBreakpoints st') = ["/a.js:10"; "/b.js:5"]
  /\ getGroupForBreakpoint "/a.js:10" st' = None
  /\ getGroupForBreakpoint "/b.js:5" st' = None
  /\ map b_id (getBreakpoints st') = ["/a.js:10"; "/b.js:5"].
Proof. repeat split. Qed.

Example scenario_orphan :
  members "g1" (groups demoDeleted) = ["/a.js:10"; "/b.js:5"]
  /\ workspaceState demoDeleted
     = [mkGroup "g1" "DB" ["/a.js:10"; "/b.js:5"] true None]
  /\ map b_id (getBreakpoints demoDeleted) = ["/a.js:10"]
  /\ map b_id (getBreakpointsInGroup "g1" demoDeleted) = ["/a.js:10"]
  /\ calculateGroupState "g1" demoDeleted = AllEnabled
  /\ getUngroupedBreakpoints demoDeleted = [].
Proof. repeat split. Qed.
(** * Further properties of the manager, the commands and the tree *)

(** ** Identities of breakpoints *)






(** ** Saving and loading the groups *)

Lemma map_set_fresh {V : Type} (k : string) (v : V) (m : JsMap V) :
  ~ In k (map_keys m) -> map_set k v m = (m ++ [(k, v)])%list.
Proof.
  induction m as [|[k' v'] m IH]; cbn; intros H; [reflexivity|].
  destruct (k' =? k) eqn:E.
  - apply String.eqb_eq in E. exfalso. apply H. now left.
  - rewrite IH; [reflexivity|]. intros Hin. apply H. now right.
Qed.

Lemma loadGroups_fresh (l : list BreakpointGroup) (acc : JsMap BreakpointGroup) :
  NoDup (map g_id l) ->
  (forall g, In g l -> ~ In (g_id g) (map_keys acc)) ->
  fold_left (fun m group => map_set (g_id group) group m) l acc
  = (acc ++ map (fun g => (g_id g, g)) l)%list.
Proof.
  revert acc. induction l as [|g l IH]; intros acc Hnd Hfresh; cbn.
  - now rewrite app_nil_r.
  - inversion Hnd as [|x xs Hx Hnd']; subst.
    rewrite map_set_fresh by (apply Hfresh; now left).
    rewrite IH; [now rewrite <- app_assoc| exact Hnd' |].
    intros g' Hg' Hin. unfold map_keys in Hin. rewrite map_app in Hin.
    apply in_app_or in Hin. destruct Hin as [Hin|Hin].
    + apply (Hfresh g'); [now right|exact Hin].
    + cbn in Hin. destruct Hin as [Hin|[]]. apply Hx. rewrite Hin.
      now apply in_map.
Qed.

Lemma keyed_entries (m : JsMap BreakpointGroup) :
  wf_groups m -> map (fun g => (g_id g, g)) (map_values m) = m.
Proof.
  intros [_ Hk]. induction m as [|[k g] m IH]; cbn; [reflexivity|].
  rewrite (Hk k g) by now left.
  f_equal. apply IH. intros k' v' Hin. apply Hk. now right.
Qed.

Lemma keyed_ids (m : JsMap BreakpointGroup) :
  wf_groups m -> map g_id (map_values m) = map_keys m.
Proof.
  intros [_ Hk]. induction m as [|[k g] m IH]; cbn; [reflexivity|].
  rewrite (Hk k g) by now left.
  f_equal. apply IH. intros k' v' Hin. apply Hk. now right.
Qed.

(** X2: what [saveGroups] writes, the constructor of the next session reads
    back: the same groups under the same keys, in the same order, whatever the
    editor holds then. *)
Theorem saved_groups_are_reloaded (st : State) (live : list Breakpoint) (uid : nat)
  (d : Delivery) :
  wf_groups (groups st) ->
  let st' := construct (workspaceState (saveGroups st)) live uid d in
  groups st' = groups st /\ getGroups st' = getGroups st.
Proof.
  intros Hwf st'.
  assert (groups st' = groups st) as E.
  { unfold st', construct, syncBreakpoints, fireGroupsChanged, loadGroups, saveGroups.
    cbn.
    rewrite loadGroups_fresh.
    - cbn. now apply keyed_entries.
    - rewrite keyed_ids by exact Hwf. apply Hwf.
    - intros g _ []. }
  split; [exact E|]. unfold getGroups. now rewrite E.
Qed.

Lemma saved_groups_are_reloaded_witness :
  wf_groups (groups demoAB)
  /\ groups (construct (workspaceState (saveGroups demoAB)) [] 0 AtOnce)
     = groups demoAB.
Proof.
  assert (wf_groups (groups demoAB)) as H by (vm_compute; solve_keyed).
  split; [exact H|].
  exact (proj1 (saved_groups_are_reloaded demoAB [] 0 AtOnce H)).
Defined.

Lemma find_app_last {A : Type} (p : A -> bool) (l : list A) (x : A) :
  find p (l ++ [x]) = match find p l with
                      | Some y => Some y
                      | None => if p x then Some x else None
                      end.
Proof.
  induction l as [|y l IH]; cbn; [reflexivity|].
  destruct (p y); [reflexivity|exact IH].
Qed.

Lemma loadGroups_get (k : string) (l : list BreakpointGroup)
  (acc : JsMap BreakpointGroup) :
  map_get k (fold_left (fun m group => map_set (g_id group) group m) l acc)
  = match find (fun g => g_id g =? k) (rev l) with
    | Some g => Some g
    | None => map_get k acc
    end.
Proof.
  revert acc. induction l as [|g l IH]; intros acc; cbn; [reflexivity|].
  rewrite IH, find_app_last.
  destruct (find (fun g0 => g_id g0 =? k) (rev l)); [reflexivity|].
  rewrite map_get_set. now destruct (g_id g =? k).
Qed.

(** X3: when the saved array holds several groups with one id, the constructor
    keeps the last of them, and no id is loaded twice: every group of the new
    manager is stored under its own id. *)
Theorem loadGroups_last_wins (stored : list BreakpointGroup) (live : list Breakpoint)
  (uid : nat) (d : Delivery) (k : string) :
  let st := construct stored live uid d in
  map_get k (groups st) = find (fun g => g_id g =? k) (rev stored)
  /\ wf_groups (groups st).
Proof.
  cbn. split.
  - rewrite loadGroups_get. now destruct (find _ (rev stored)).
  - apply wf_groups_loadGroups. split; [constructor|intros ? ? []].
Qed.

(** ** The mirror of the editor's breakpoints *)

(** X4: [syncBreakpoints] forgets the mirror it had and reads the editor anew.
    Under an identity the new mirror holds the record of the last live source
    breakpoint with that identity, and nothing when there is none; function
    breakpoints leave no record; the groups and the saved data stay as they
    are and the tree is told once. *)
Theorem syncBreakpoints_reads_editor (st : State) :
  let st' := syncBreakpoints st in
  (forall k,
      map_get k (breakpoints st')
      = option_map toBreakpointInfo
          (findSourceBreakpoint k (rev (vscodeBreakpoints st))))
  /\ (forall k info,
         In (k, info) (breakpoints st') ->
         b_id info = k
         /\ exists b, In (Source b) (vscodeBreakpoints st)
                      /\ info = toBreakpointInfo b)
  /\ (forall b, In (Source b) (vscodeBreakpoints st) ->
                map_get (generateBreakpointId b) (breakpoints st') <> None)
  /\ (forall m, breakpoints (syncBreakpoints (with_breakpoints m st)) = breakpoints st')
  /\ groups st' = groups st
  /\ workspaceState st' = workspaceState st
  /\ vscodeBreakpoints st' = vscodeBreakpoints st
  /\ effects st' = (effects st ++ [GroupsChanged])%list.
Proof.
  cbn. repeat split.
  - intros k. apply mirrorOf_get.
  - destruct (wf_mirror_mirrorOf (vscodeBreakpoints st)) as [_ Hk]. now apply Hk.
  - destruct (wf_mirror_mirrorOf (vscodeBreakpoints st)) as [Hnd Hk].
    pose proof (In_map_get k info _ Hnd H) as Hget.
    rewrite mirrorOf_get in Hget.
    destruct (findSourceBreakpoint k (rev (vscodeBreakpoints st))) as [b|] eqn:E;
      [|discriminate].
    apply findSourceBreakpoint_Some in E. destruct E as [Hin _].
    exists b. split; [now apply in_rev|]. cbn in Hget. congruence.
  - intros b Hin. apply mirrorOf_holds.
    now apply (findSourceBreakpoint_In _ _ b).
Qed.

Lemma updateStates_get (k : string) (l : list Breakpoint) (m : JsMap BreakpointInfo) :
  map_get k
    (fold_left
       (fun m bp =>
          match bp with
          | Source b =>
              map_adjust (info_with_enabled (sb_enabled b)) (generateBreakpointId b) m
          | Function _ _ _ => m
          end)
       l m)
  = match findSourceBreakpoint k (rev l) with
    | Some b => option_map (info_with_enabled (sb_enabled b)) (map_get k m)
    | None => map_get k m
    end.
Proof.
  revert m. induction l as [|bp l IH]; intros m; cbn [fold_left rev]; [reflexivity|].
  rewrite IH, findSourceBreakpoint_app.
  destruct bp as [s|u e f].
  - rewrite map_get_adjust. cbn [findSourceBreakpoint].
    destruct (findSourceBreakpoint k (rev l)) as [b|].
    + destruct (generateBreakpointId s =? k); [|reflexivity].
      now destruct (map_get k m).
    + now destruct (generateBreakpointId s =? k).
  - cbn [findSourceBreakpoint].
    now destruct (findSourceBreakpoint k (rev l)).
Qed.

Lemma updateStates_keys (l : list Breakpoint) (m : JsMap BreakpointInfo) :
  map_keys
    (fold_left
       (fun m bp =>
          match bp with
          | Source b =>
              map_adjust (info_with_enabled (sb_enabled b)) (generateBreakpointId b) m
          | Function _ _ _ => m
          end)
       l m)
  = map_keys m.
Proof.
  revert m. induction l as [|bp l IH]; intros m; cbn [fold_left]; [reflexivity|].
  rewrite IH. destruct bp; [apply map_keys_adjust|reflexivity].
Qed.

(** X5: [updateBreakpointStates] never adds or removes a record: the mirror
    keeps its identities and their order.  A record whose identity is live
    takes the flag of the last live source breakpoint with that identity and
    keeps its other fields; a record whose identity is not live is left as it
    is.  The groups stay as they are and the tree is told once. *)
Theorem updateBreakpointStates_patches_flags (st : State) :
  let st' := updateBreakpointStates st in
  map_keys (breakpoints st') = map_keys (breakpoints st)
  /\ (forall k,
         map_get k (breakpoints st')
         = match findSourceBreakpoint k (rev (vscodeBreakpoints st)) with
           | Some b =>
               option_map (info_with_enabled (sb_enabled b))
                          (map_get k (breakpoints st))
           | None => map_get k (breakpoints st)
           end)
  /\ groups st' = groups st
  /\ workspaceState st' = workspaceState st
  /\ vscodeBreakpoints st' = vscodeBreakpoints st
  /\ effects st' = (effects st ++ [GroupsChanged])%list.
Proof.
  cbn. repeat split.
  - apply updateStates_keys.
  - intros k. apply updateStates_get.
Qed.

(** ** Which group a breakpoint is in *)

Lemma find_first {A : Type} (p : A -> bool) (l : list A) (x : A) :
  find p l = Some x ->
  exists before after,
    l = (before ++ x :: after)%list /\ p x = true
    /\ forall y, In y before -> p y = false.
Proof.
  induction l as [|y l IH]; cbn; [discriminate|].
  destruct (p y) eqn:E.
  - intros [= ->]. exists [], l. repeat split; [exact E|intros ? []].
  - intros H. destruct (IH H) as [before [after [-> [Hx Hb]]]].
    exists (y :: before), after. repeat split; [exact Hx|].
    intros z [<-|Hz]; [exact E|now apply Hb].
Qed.

(** X6: [getGroupForBreakpoint] answers with the first group, in the order in
    which the groups were created, whose member list holds the identity, and
    with nothing exactly when no group lists it; [isBreakpointGrouped] says
    whether some group lists it; and the ungrouped breakpoints are the mirrored
    ones for which it says no. *)
Theorem getGroupForBreakpoint_first_in_order (breakpointId : string) (st : State) :
  match getGroupForBreakpoint breakpointId st with
  | Some g =>
      exists before after,
        getGroups st = (before ++ g :: after)%list
        /\ In breakpointId (g_breakpoints g)
        /\ forall g', In g' before -> ~ In breakpointId (g_breakpoints g')
  | None => forall g, In g (getGroups st) -> ~ In breakpointId (g_breakpoints g)
  end
  /\ (isBreakpointGrouped breakpointId st = true
      <-> exists g, In g (getGroups st) /\ In breakpointId (g_breakpoints g))
  /\ (forall bp,
         In bp (getUngroupedBreakpoints st)
         <-> In bp (getBreakpoints st) /\ isBreakpointGrouped (b_id bp) st = false).
Proof.
  assert (forall id,
             isBreakpointGrouped id st = true
             <-> exists g, In g (getGroups st) /\ In id (g_breakpoints g)) as Hgrouped.
  { intros id. unfold isBreakpointGrouped, getGroupForBreakpoint, getGroups.
    destruct (find _ (map_values (groups st))) as [g|] eqn:E.
    - apply find_some in E. destruct E as [Hin Hinc]. apply includes_In in Hinc.
      split; [eauto|reflexivity].
    - split; [discriminate|]. intros [g [Hin Hid]].
      pose proof (find_none _ _ E g Hin) as Hf. cbn in Hf.
      apply includes_false in Hf. contradiction. }
  split; [|split; [apply Hgrouped|]].
  - unfold getGroupForBreakpoint, getGroups.
    destruct (find _ (map_values (groups st))) as [g|] eqn:E.
    + apply find_first in E. destruct E as [before [after [El [Hg Hb]]]].
      exists before, after. split; [exact El|]. split; [now apply includes_In|].
      intros g' Hg'. apply includes_false. now apply Hb.
    + intros g Hin. apply includes_false. exact (find_none _ _ E g Hin).
  - intros bp. unfold getUngroupedBreakpoints, getBreakpoints. rewrite filter_In.
    apply and_iff_compat_l. rewrite negb_true_iff.
    destruct (isBreakpointGrouped (b_id bp) st) eqn:Eg.
    + apply Hgrouped in Eg. destruct Eg as [g [Hin Hid]].
      split; [|discriminate]. intros Hf. apply includes_false in Hf.
      exfalso. apply Hf. apply in_flat_map. eauto.
    + split; [reflexivity|]. intros _. apply includes_false. intros Hin.
      apply in_flat_map in Hin. destruct Hin as [g [Hg Hid]].
      assert (isBreakpointGrouped (b_id bp) st = true) as Ht
          by (apply Hgrouped; eauto).
      congruence.
Qed.

(** ** Creating, deleting and renaming a group *)

(** X7: [createGroup] stores an enabled group without members under the given
    id and leaves every other group alone.  A new id goes to the end of the
    order; an id that is in use keeps its place and loses what it stored, its
    member list included.  The new group has no present member, so its
    checkbox is the one of "All Disabled" although its flag says enabled; the
    groups are saved as they now are and the tree is told once. *)
Theorem createGroup_stores_empty_group (id name : string) (description : option string)
  (st : State) :
  let group := mkGroup id name [] true description in
  let st' := createGroup id name description st in
  map_get id (groups st') = Some group
  /\ (forall k, k <> id -> map_get k (groups st') = map_get k (groups st))
  /\ (map_get id (groups st) = None -> groups st' = (groups st ++ [(id, group)])%list)
  /\ (map_get id (groups st) <> None -> map_keys (groups st') = map_keys (groups st))
  /\ calculateGroupState id st' = AllDisabled
  /\ workspaceState st' = getGroups st'
  /\ effects st' = (effects st ++ [Persisted (getGroups st'); GroupsChanged])%list
  /\ breakpoints st' = breakpoints st
  /\ vscodeBreakpoints st' = vscodeBreakpoints st.
Proof.
  intros group st'.
  assert (map_get id (groups st') = Some group) as Hget.
  { cbn. rewrite map_get_set. now rewrite String.eqb_refl. }
  split; [exact Hget|]. split; [|split; [|split; [|split]]].
  - intros k Hk. cbn. rewrite map_get_set.
    destruct (id =? k) eqn:E; [|reflexivity].
    apply String.eqb_eq in E. congruence.
  - intros Hnone. cbn. apply map_set_fresh. now apply map_get_None.
  - intros Hsome. change (groups st') with (map_set id group (groups st)).
    rewrite map_set_keys.
    destruct (includes (map_keys (groups st)) id) eqn:E; [reflexivity|].
    exfalso. apply Hsome. apply map_get_None. now apply includes_false.
  - unfold calculateGroupState, getBreakpointsInGroup. now rewrite Hget.
  - cbn. repeat split. now rewrite <- app_assoc.
Qed.

Lemma map_get_delete {V : Type} (k k' : string) (m : JsMap V) :
  NoDup (map_keys m) ->
  map_get k (map_delete k' m) = if k' =? k then None else map_get k m.
Proof.
  induction m as [|[k0 v0] m IH]; cbn; intros Hnd.
  - now destruct (k' =? k).
  - inversion Hnd as [|x xs Hx Hnd']; subst.
    destruct (k0 =? k') eqn:E0.
    + apply String.eqb_eq in E0; subst k0.
      destruct (k' =? k) eqn:E1; [|reflexivity].
      apply String.eqb_eq in E1; subst k'. now apply map_get_None.
    + cbn. destruct (k0 =? k) eqn:E1.
      * apply String.eqb_eq in E1; subst k0.
        now rewrite (String.eqb_sym k' k), E0.
      * now apply IH.
Qed.

Lemma map_delete_absent {V : Type} (k : string) (m : JsMap V) :
  map_get k m = None -> map_delete k m = m.
Proof.
  induction m as [|[k0 v0] m IH]; cbn; [reflexivity|].
  destruct (k0 =? k); [discriminate|]. intros H. now rewrite IH.
Qed.

Lemma grouped_ids (id : string) (m : JsMap BreakpointGroup) :
  In id (flat_map g_breakpoints (map_values m))
  <-> exists k g, In (k, g) m /\ In id (g_breakpoints g).
Proof.
  rewrite in_flat_map. split.
  - intros [g [Hg Hid]]. apply In_values_get in Hg. destruct Hg as [k Hg]. eauto.
  - intros [k [g [Hg Hid]]]. exists g. split; [|exact Hid].
    apply In_values_get. eauto.
Qed.

(** X8: [deleteGroup] takes the group out of the map and leaves the other
    groups, the mirror and the editor's breakpoints alone.  A present member
    of the deleted group that no other group lists is an ungrouped breakpoint
    afterwards, and what was ungrouped stays so.  The groups are saved and the
    tree is told even when there is no group with that id, in which case the
    map is unchanged. *)
Theorem deleteGroup_releases_members (groupId : string) (st : State) :
  wf_groups (groups st) ->
  let st' := deleteGroup groupId st in
  map_get groupId (groups st') = None
  /\ (forall k, k <> groupId -> map_get k (groups st') = map_get k (groups st))
  /\ (forall bp,
         In bp (getBreakpointsInGroup groupId st) ->
         (forall k, k <> groupId -> ~ In (b_id bp) (members k (groups st))) ->
         In bp (getUngroupedBreakpoints st'))
  /\ (forall bp, In bp (getUngroupedBreakpoints st) ->
                 In bp (getUngroupedBreakpoints st'))
  /\ (map_get groupId (groups st) = None -> groups st' = groups st)
  /\ effects st' = (effects st ++ [Persisted (getGroups st'); GroupsChanged])%list
  /\ breakpoints st' = breakpoints st
  /\ vscodeBreakpoints st' = vscodeBreakpoints st.
Proof.
  intros [Hnd Hkey] st'.
  assert (forall k,
             map_get k (groups st')
             = if groupId =? k then None else map_get k (groups st)) as Hget.
  { intros k. cbn. now apply map_get_delete. }
  assert (forall id,
             In id (flat_map g_breakpoints (map_values (groups st'))) ->
             exists k, k <> groupId /\ In id (members k (groups st))) as Hleft.
  { intros id Hin. apply grouped_ids in Hin. destruct Hin as [k [g [Hg Hid]]].
    assert (keyed g_id (groups st')) as [Hnd' _]
        by (cbn; apply keyed_delete; now split).
    pose proof (In_map_get k g _ Hnd' Hg) as Hk. rewrite Hget in Hk.
    destruct (groupId =? k) eqn:E; [discriminate|].
    apply String.eqb_neq in E. exists k. split; [congruence|].
    unfold members. now rewrite Hk. }
  split; [|split; [|split; [|split; [|split]]]].
  - rewrite Hget. now rewrite String.eqb_refl.
  - intros k Hk. rewrite Hget. destruct (groupId =? k) eqn:E; [|reflexivity].
    apply String.eqb_eq in E. congruence.
  - intros bp Hbp Hother.
    apply getBreakpointsInGroup_In in Hbp. destruct Hbp as [G [m [HG [Hm Hbp]]]].
    unfold getUngroupedBreakpoints. apply filter_In. split.
    + change (breakpoints st') with (breakpoints st).
      apply In_values_get. exists m. now apply map_get_In.
    + apply negb_true_iff, includes_false. intros Hin.
      destruct (Hleft _ Hin) as [k [Hk Hmem]]. exact (Hother k Hk Hmem).
  - intros bp Hbp. unfold getUngroupedBreakpoints in *.
    apply filter_In in Hbp. destruct Hbp as [Hin Hf]. apply filter_In.
    split; [exact Hin|].
    apply negb_true_iff, includes_false. intros Hin'.
    apply negb_true_iff, includes_false in Hf. apply Hf.
    destruct (Hleft _ Hin') as [k [_ Hmem]]. unfold members in Hmem.
    destruct (map_get k (groups st)) as [g|] eqn:Eg; [|destruct Hmem].
    apply grouped_ids. exists k, g. split; [now apply map_get_In|exact Hmem].
  - intros Hnone. cbn. now apply map_delete_absent.
  - cbn. repeat split. now rewrite <- app_assoc.
Qed.

Lemma deleteGroup_releases_members_witness :
  let a := mkInfo "/a.js:10" "/a.js" 10 (Some 0) None None None true in
  In a (getBreakpointsInGroup "gA" demoAB)
  /\ In a (getUngroupedBreakpoints (deleteGroup "gA" demoAB)).
Proof.
  intros a.
  assert (wf_groups (groups demoAB)) as Hg by (vm_compute; solve_keyed).
  assert (In a (getBreakpointsInGroup "gA" demoAB)) as Hin by (vm_compute; tauto).
  split; [exact Hin|].
  destruct (deleteGroup_releases_members "gA" demoAB Hg) as [_ [_ [H _]]].
  apply H; [exact Hin|].
  intros k Hk Hmem.
  change (groups demoAB)
    with [("gA", mkGroup "gA" "A" ["/a.js:10"] true None);
          ("gB", mkGroup "gB" "B" [] true None)] in Hmem.
  rewrite !members_cons, members_nil in Hmem.
  destruct ("gA" =? k) eqn:EA.
  - apply String.eqb_eq in EA. congruence.
  - destruct ("gB" =? k); destruct Hmem.
Defined.

Lemma grouped_adjust (f : BreakpointGroup -> BreakpointGroup) (k : string)
  (m : JsMap BreakpointGroup) :
  (forall g, g_breakpoints (f g) = g_breakpoints g) ->
  flat_map g_breakpoints (map_values (map_adjust f k m))
  = flat_map g_breakpoints (map_values m).
Proof.
  intros Hf. induction m as [|[k0 g0] m IH]; cbn; [reflexivity|].
  destruct (k0 =? k); cbn.
  - now rewrite Hf.
  - f_equal. exact IH.
Qed.

(** X9: [renameGroup] changes the name of the group and nothing else: the
    group keeps its id, its place, its members, its flag and its description,
    every other group is as before, and so are the breakpoints shown under
    each group and the ungrouped ones.  Without a group of that id the call
    does nothing at all: nothing is saved and the tree is not told. *)
Theorem renameGroup_changes_name_only (groupId newName : string) (st : State) :
  let st' := renameGroup groupId newName st in
  match map_get groupId (groups st) with
  | None => st' = st
  | Some g =>
      map_get groupId (groups st')
      = Some (mkGroup (g_id g) newName (g_breakpoints g) (g_enabled g)
                      (g_description g))
      /\ (forall k, k <> groupId -> map_get k (groups st') = map_get k (groups st))
      /\ map_keys (groups st') = map_keys (groups st)
      /\ (forall k, getBreakpointsInGroup k st' = getBreakpointsInGroup k st)
      /\ getUngroupedBreakpoints st' = getUngroupedBreakpoints st
      /\ workspaceState st' = getGroups st'
      /\ effects st' = (effects st ++ [Persisted (getGroups st'); GroupsChanged])%list
  end.
Proof.
  intros st'. unfold st', renameGroup.
  destruct (map_get groupId (groups st)) as [g|] eqn:Eg; [|reflexivity].
  cbn [groups fireGroupsChanged saveGroups emit with_groups with_workspaceState
       breakpoints workspaceState effects].
  split; [|split; [|split; [|split; [|split; [|split]]]]].
  - rewrite map_get_adjust, String.eqb_refl, Eg. reflexivity.
  - intros k Hk. rewrite map_get_adjust.
    destruct (groupId =? k) eqn:E; [|reflexivity].
    apply String.eqb_eq in E. congruence.
  - apply map_keys_adjust.
  - intros k. unfold getBreakpointsInGroup.
    cbn [groups breakpoints fireGroupsChanged saveGroups emit with_groups
         with_workspaceState].
    rewrite map_get_adjust. destruct (groupId =? k); [|reflexivity].
    now destruct (map_get k (groups st)).
  - unfold getUngroupedBreakpoints.
    cbn [groups breakpoints fireGroupsChanged saveGroups emit with_groups
         with_workspaceState].
    now rewrite grouped_adjust.
  - reflexivity.
  - unfold getGroups.
    cbn [groups fireGroupsChanged saveGroups emit with_groups with_workspaceState].
    now rewrite <- app_assoc.
Qed.

(** ** Removing breakpoints from the editor *)

Lemma dropping_keeps_uids_distinct (keep : Breakpoint -> bool) (live : list Breakpoint) :
  NoDup (map bp_uid live) -> NoDup (map bp_uid (filter keep live)).
Proof.
  induction live as [|x live IH]; cbn; intros H; [constructor|].
  inversion H as [|y ys Hx Hnd]; subst.
  destruct (keep x); cbn; [|now apply IH].
  constructor; [|now apply IH].
  intros Hin. apply Hx. apply in_map_iff in Hin.
  destruct Hin as [z [Ez Hz]]. apply filter_In in Hz. rewrite <- Ez.
  apply in_map. tauto.
Qed.

Lemma filter_filter {A : Type} (p q : A -> bool) (l : list A) :
  filter q (filter p l) = filter (fun x => p x && q x) l.
Proof.
  induction l as [|x l IH]; cbn; [reflexivity|].
  destruct (p x); cbn; [destruct (q x); now rewrite IH|exact IH].
Qed.

Lemma isLive_In (b : Breakpoint) (l : list Breakpoint) : In b l -> isLive b l = true.
Proof.
  intros H. unfold isLive. apply existsb_exists. exists b.
  split; [exact H|apply Nat.eqb_refl].
Qed.

(** Objects that are live and pairwise distinct are all taken out, and what
    stays is what was live and is not one of them. *)
Lemma removeEach_live (bps live : list Breakpoint) :
  NoDup (map bp_uid bps) ->
  (forall b, In b bps -> In b live) ->
  removeEach bps live = (bps, filter (fun x => negb (isLive x bps)) live).
Proof.
  revert live. induction bps as [|b r IH]; intros live Hnd Hsub.
  - cbn. f_equal. symmetry. apply forallb_filter_id, forallb_forall. reflexivity.
  - cbn [removeEach]. rewrite isLive_In by (apply Hsub; now left).
    inversion Hnd as [|x xs Hb Hnd']; subst.
    rewrite IH.
    + f_equal. unfold dropUid. rewrite filter_filter. apply filter_ext.
      intros x. unfold isLive. cbn [existsb]. rewrite negb_orb.
      now rewrite (Nat.eqb_sym (bp_uid x) (bp_uid b)).
    + exact Hnd'.
    + intros b' Hb'. apply In_dropUid. split; [apply Hsub; now right|].
      intros E. apply Hb. rewrite <- E. now apply in_map.
Qed.

Lemma removeEach_filter (p : Breakpoint -> bool) (live : list Breakpoint) :
  NoDup (map bp_uid live) ->
  removeEach (filter p live) live = (filter p live, filter (fun x => negb (p x)) live).
Proof.
  intros Hnd. rewrite removeEach_live.
  - f_equal. apply filter_ext_in. intros x Hx. f_equal.
    destruct (p x) eqn:Ep.
    + apply isLive_In. apply filter_In. now split.
    + apply isLive_false_iff. intros b Hb E. apply filter_In in Hb.
      destruct Hb as [Hb Hpb].
      assert (b = x) by (now apply (uid_determines live)). congruence.
  - now apply dropping_keeps_uids_distinct.
  - intros b Hb. apply filter_In in Hb. tauto.
Qed.

(** The two commands that remove breakpoints from the editor ask for the live
    objects that satisfy a test, when there is one.  Those objects leave the
    editor's list, in one call; the groups and the saved data are not touched;
    and once the notification has reached the manager the mirror is the mirror
    of what is left. *)
Lemma removeMatching (p : Breakpoint -> bool) (st : State) :
  NoDup (map bp_uid (vscodeBreakpoints st)) ->
  let toRemove := filter p (vscodeBreakpoints st) in
  let st1 := if (0 <? List.length toRemove)%nat
             then removeBreakpoints toRemove st else st in
  vscodeBreakpoints st1 = filter (fun x => negb (p x)) (vscodeBreakpoints st)
  /\ groups st1 = groups st
  /\ workspaceState st1 = workspaceState st
  /\ nextUid st1 = nextUid st
  /\ delivery st1 = delivery st
  /\ (toRemove = [] -> st1 = st)
  /\ (toRemove <> [] ->
      match delivery st with
      | AtOnce =>
          breakpoints st1 = mirrorOf (vscodeBreakpoints st1)
          /\ pending st1 = pending st
      | Queued =>
          breakpoints st1 = breakpoints st
          /\ pending st1 = (pending st ++ [mkEvent [] toRemove []])%list
      end).
Proof.
  intros Hnd. cbv zeta.
  assert (removeBreakpoints (filter p (vscodeBreakpoints st)) st
          = match filter p (vscodeBreakpoints st) with
            | [] => with_host (filter (fun x => negb (p x)) (vscodeBreakpoints st)) st
            | b :: r =>
                post (mkEvent [] (b :: r) [])
                     (with_host (filter (fun x => negb (p x)) (vscodeBreakpoints st)) st)
            end) as Hrm.
  { unfold removeBreakpoints. rewrite removeEach_filter by exact Hnd.
    now destruct (filter p (vscodeBreakpoints st)). }
  rewrite Hrm. clear Hrm.
  destruct (filter p (vscodeBreakpoints st)) as [|b r] eqn:E.
  - cbn. repeat split; try congruence.
    symmetry. apply forallb_filter_id, forallb_forall. intros x Hx.
    apply negb_true_iff. destruct (p x) eqn:Ep; [|reflexivity].
    assert (In x (filter p (vscodeBreakpoints st))) as Hin
        by (apply filter_In; now split).
    rewrite E in Hin. destruct Hin.
  - cbn [List.length Nat.ltb Nat.leb]. unfold post. cbn [delivery with_host].
    destruct (delivery st) eqn:Ed.
    + destruct (onDidChangeBreakpoints_frame
                  (mkEvent [] (b :: r) [])
                  (with_host (filter (fun x => negb (p x)) (vscodeBreakpoints st)) st))
        as [F1 [F2 [F3 [F4 [F5 F6]]]]].
      repeat split; try assumption; try congruence.
    + cbn. repeat split; try congruence.
Qed.

Lemma settle_removal (st : State) (e : BreakpointsChangeEvent) :
  pending st = [e] -> removed e <> [] ->
  breakpoints (settle st) = mirrorOf (vscodeBreakpoints st).
Proof.
  intros Hp Hr. unfold settle. rewrite Hp. cbn [deliver].
  unfold onDidChangeBreakpoints.
  assert ((0 <? List.length (removed e))%nat = true) as E
      by (destruct (removed e); [congruence|reflexivity]).
  rewrite E, orb_true_r. reflexivity.
Qed.

Lemma clearFirstWithId_adjust (groupId : string) (m : JsMap BreakpointGroup) :
  (forall k g, In (k, g) m -> g_id g = k) ->
  Command.clearFirstWithId groupId m = map_adjust (group_with_breakpoints []) groupId m.
Proof.
  induction m as [|[k g] m IH]; cbn; intros Hk; [reflexivity|].
  rewrite (Hk k g) by now left.
  destruct (k =? groupId); [reflexivity|].
  f_equal. apply IH. intros k' g' Hin. apply Hk. now right.
Qed.

Lemma find_by_id (groupId : string) (m : JsMap BreakpointGroup) :
  (forall k g, In (k, g) m -> g_id g = k) ->
  find (fun g => g_id g =? groupId) (map_values m) = map_get groupId m.
Proof.
  induction m as [|[k g] m IH]; cbn; intros Hk; [reflexivity|].
  rewrite (Hk k g) by now left.
  destruct (k =? groupId); [reflexivity|].
  apply IH. intros k' g' Hin. apply Hk. now right.
Qed.

Lemma In_notMatching (infos : list BreakpointInfo) (live : list Breakpoint)
  (bp : Breakpoint) :
  In bp (filter
           (fun x =>
              negb match x with
                   | Source b =>
                       existsb (fun bpInfo => generateBreakpointId b =? b_id bpInfo)
                               infos
                   | Function _ _ _ => false
                   end)
           live)
  <-> In bp live
      /\ forall s info, bp = Source s -> In info infos ->
                        generateBreakpointId s <> b_id info.
Proof.
  rewrite filter_In, negb_true_iff. apply and_iff_compat_l.
  destruct bp as [b|u e f].
  - split.
    + intros Hf s info [= <-] Hin E.
      assert (existsb (fun bpInfo => generateBreakpointId b =? b_id bpInfo) infos
              = true) as Ht.
      { apply existsb_exists. exists info. split; [exact Hin|now apply String.eqb_eq]. }
      congruence.
    + intros H.
      destruct (existsb (fun bpInfo => generateBreakpointId b =? b_id bpInfo) infos)
        eqn:E; [|reflexivity].
      apply existsb_exists in E. destruct E as [info [Hin E]].
      apply String.eqb_eq in E. now elim (H b info eq_refl Hin).
  - split; [discriminate|reflexivity].
Qed.

(** X10: the command "remove all breakpoints in group", once confirmed, takes
    out of the editor every live source breakpoint whose identity is the one of
    a present member of the group, and no other object: function breakpoints
    and the breakpoints of other identities stay.  The group's member list is
    emptied, orphaned identities included, the other groups are untouched, and
    the groups are saved as they now are.  When the mirror held only live
    identities and no notification was waiting, the mirror has no record of a
    former present member once the editor's notification is delivered. *)
Theorem removeAllBreakpointsInGroup_removes_present_members
  (element : option TreeItem) (groupId : string) (st : State) :
  wf_groups (groups st) ->
  wf_mirror (breakpoints st) ->
  wf_host st ->
  Command.groupIdOf element = Some groupId ->
  map_get groupId (groups st) <> None ->
  let present := getBreakpointsInGroup groupId st in
  let st' := Command.removeAllBreakpointsInGroup element (Some "Remove All") st in
  (forall bp,
      In bp (vscodeBreakpoints st')
      <-> In bp (vscodeBreakpoints st)
          /\ forall s info, bp = Source s -> In info present ->
                            generateBreakpointId s <> b_id info)
  /\ members groupId (groups st') = []
  /\ (forall k, k <> groupId -> map_get k (groups st') = map_get k (groups st))
  /\ workspaceState st' = getGroups st'
  /\ (mirrorTracksHost st -> pending st = [] ->
      forall info, In info present ->
                   map_get (b_id info) (breakpoints (settle st')) = None).
Proof.
  intros [Hndg Hkey] [Hndm Hkeym] [Hnd _] Hel Hsome present st'.
  destruct (map_get groupId (groups st)) as [group|] eqn:Eg; [clear Hsome|congruence].
  pose proof (removeMatching
                (fun bp =>
                   match bp with
                   | Source b =>
                       existsb (fun bpInfo => generateBreakpointId b =? b_id bpInfo)
                               present
                   | Function _ _ _ => false
                   end)
                st Hnd) as Hrm.
  cbv zeta in Hrm.
  unfold st', Command.removeAllBreakpointsInGroup.
  rewrite Hel. unfold getGroups. rewrite find_by_id by exact Hkey. rewrite Eg.
  change ("Remove All" =? "Remove All") with true. cbv iota zeta.
  fold present. unfold Command.liveMatching.
  set (toRemove := filter _ (vscodeBreakpoints st)) in *.
  set (st1 := if (0 <? List.length toRemove)%nat
              then removeBreakpoints toRemove st else st) in *.
  destruct Hrm as [Hhost [Hgr [Hws [Hn [Hd [Hnil Hcons]]]]]].
  cbn [vscodeBreakpoints groups workspaceState breakpoints pending emit
       fireGroupsChanged saveGroups with_groups with_workspaceState].
  rewrite Hgr, clearFirstWithId_adjust by exact Hkey.
  split; [|split; [|split; [|split]]].
  - intros bp. rewrite Hhost. apply In_notMatching.
  - unfold members. rewrite map_get_adjust, String.eqb_refl, Eg. reflexivity.
  - intros k Hk. rewrite map_get_adjust.
    destruct (groupId =? k) eqn:E; [|reflexivity].
    apply String.eqb_eq in E. congruence.
  - reflexivity.
  - intros Htracks Hpend info Hinfo.
    set (st2 := emit _ _).
    assert (vscodeBreakpoints st2 = vscodeBreakpoints st1) as E2 by reflexivity.
    assert (findSourceBreakpoint (b_id info) (vscodeBreakpoints st1) = None) as Hgone.
    { apply findSourceBreakpoint_None. intros s Hs.
      rewrite Hhost in Hs. apply In_notMatching in Hs. destruct Hs as [_ Hs].
      intros E. exact (Hs s info eq_refl Hinfo E). }
    assert (toRemove <> []) as Hne.
    { pose proof Hinfo as Hinfo'.
      apply getBreakpointsInGroup_In in Hinfo'.
      destruct Hinfo' as [G [m [_ [_ Hget]]]].
      assert (b_id info = m) as Em by (apply Hkeym; now apply map_get_In).
      assert (findSourceBreakpoint m (vscodeBreakpoints st) <> None) as Hlive
          by (apply Htracks; congruence).
      destruct (findSourceBreakpoint m (vscodeBreakpoints st)) as [s|] eqn:Es;
        [|congruence].
      apply findSourceBreakpoint_Some in Es. destruct Es as [Hs Hid].
      assert (In (Source s) toRemove) as Hin.
      { apply filter_In. split; [exact Hs|]. apply existsb_exists.
        exists info. split; [exact Hinfo|]. apply String.eqb_eq. congruence. }
      intros E. rewrite E in Hin. destruct Hin. }
    specialize (Hcons Hne).
    assert (breakpoints (settle st2) = mirrorOf (vscodeBreakpoints st1)) as Hm.
    { destruct (delivery st) eqn:Ed.
      - destruct Hcons as [Hb Hp]. rewrite settle_idle.
        + exact Hb.
        + change (pending st2) with (pending st1). congruence.
      - destruct Hcons as [Hb Hp].
        rewrite (settle_removal st2 (mkEvent [] toRemove [])).
        + now rewrite E2.
        + change (pending st2) with (pending st1). rewrite Hp, Hpend. reflexivity.
        + exact Hne. }
    rewrite Hm.
    destruct (map_get (b_id info) (mirrorOf (vscodeBreakpoints st1))) eqn:E;
      [|reflexivity].
    exfalso.
    assert (map_get (b_id info) (mirrorOf (vscodeBreakpoints st1)) <> None) as Hx
        by congruence.
    apply mirrorOf_holds in Hx. contradiction.
Qed.

Lemma removeAllBreakpointsInGroup_removes_present_members_witness :
  In (Source (mkSource 0 (mkLocation "/a.js" 9 0) true None None None))
     (vscodeBreakpoints demoAB)
  /\ vscodeBreakpoints
       (Command.removeAllBreakpointsInGroup
          (Some (BreakpointGroupItem (mkGroup "gA" "A" ["/a.js:10"] true None)))
          (Some "Remove All") demoAB)
     = [ Function 1 true "main";
         Source (mkSource 2 (mkLocation "/b.js" 4 2) false (Some "x > 1") (Some "3")
                          None) ]
  /\ members "gA"
       (groups
          (Command.removeAllBreakpointsInGroup
             (Some (BreakpointGroupItem (mkGroup "gA" "A" ["/a.js:10"] true None)))
             (Some "Remove All") demoAB))
     = [].
Proof.
  assert (wf_groups (groups demoAB)) as Hg by (vm_compute; solve_keyed).
  assert (wf_mirror (breakpoints demoAB)) as Hm by (vm_compute; solve_keyed).
  assert (wf_host demoAB) as Hh.
  { split; [vm_compute; repeat constructor; cbn; intuition discriminate|].
    intros bp Hbp. vm_compute in Hbp.
    destruct Hbp as [<-|[<-|[<-|[]]]]; vm_compute; lia. }
  assert (map_get "gA" (groups demoAB) <> None) as Hs by (vm_compute; discriminate).
  destruct (removeAllBreakpointsInGroup_removes_present_members
              (Some (BreakpointGroupItem (mkGroup "gA" "A" ["/a.js:10"] true None)))
              "gA" demoAB Hg Hm Hh eq_refl Hs) as [_ [H _]].
  split; [vm_compute; tauto|]. split; [reflexivity|exact H].
Defined.

Lemma filter_none {A : Type} (f : A -> bool) (l : list A) :
  (forall x, In x l -> f x = false) -> filter f l = [].
Proof.
  induction l as [|x l IH]; cbn; intros H; [reflexivity|].
  rewrite (H x) by now left. apply IH. intros y Hy. apply H. now right.
Qed.

(** X11: the command "remove all ungrouped breakpoints", once confirmed, takes
    out of the editor every live source breakpoint whose identity is the one of
    an ungrouped breakpoint, and no other object.  It does not touch the
    groups or the saved data.  When the mirror was the mirror of the editor's
    list and no notification was waiting, then after the editor's notification
    is delivered no breakpoint is ungrouped and every identity that some group
    lists has the record it had. *)
Theorem removeAllUngroupedBreakpoints_removes_ungrouped (st : State) :
  wf_host st ->
  let ungrouped := getUngroupedBreakpoints st in
  let st' := Command.removeAllUngroupedBreakpoints (Some "Remove All") st in
  (forall bp,
      In bp (vscodeBreakpoints st')
      <-> In bp (vscodeBreakpoints st)
          /\ forall s info, bp = Source s -> In info ungrouped ->
                            generateBreakpointId s <> b_id info)
  /\ groups st' = groups st
  /\ workspaceState st' = workspaceState st
  /\ (breakpoints st = mirrorOf (vscodeBreakpoints st) -> pending st = [] ->
      getUngroupedBreakpoints (settle st') = []
      /\ forall k,
           In k (flat_map g_breakpoints (getGroups st)) ->
           map_get k (breakpoints (settle st')) = map_get k (breakpoints st)).
Proof.
  intros [Hnd _] ungrouped st'.
  set (p := fun bp =>
              match bp with
              | Source b =>
                  existsb (fun bpInfo => generateBreakpointId b =? b_id bpInfo)
                          ungrouped
              | Function _ _ _ => false
              end).
  pose proof (removeMatching p st Hnd) as Hrm. cbv zeta in Hrm.
  unfold st', Command.removeAllUngroupedBreakpoints. fold ungrouped.
  destruct (List.length ungrouped =? 0)%nat eqn:El.
  { (* nothing is ungrouped: a message, and nothing else *)
    apply Nat.eqb_eq, length_zero_iff_nil in El.
    cbn [vscodeBreakpoints groups workspaceState emit].
    split; [|split; [reflexivity|split; [reflexivity|]]].
    - intros bp. rewrite El.
      split; [intros H; split; [exact H|intros ? ? ? []]|tauto].
    - intros _ Hpend. rewrite settle_idle by exact Hpend.
      split; [exact El|reflexivity]. }
  assert (exists u0, In u0 ungrouped) as [u0 Hu0].
  { destruct ungrouped as [|u0 us]; [discriminate El|]. exists u0. now left. }
  change ("Remove All" =? "Remove All") with true. cbv iota.
  unfold Command.liveMatching. fold p.
  set (toRemove := filter p (vscodeBreakpoints st)) in *.
  set (st1 := if (0 <? List.length toRemove)%nat
              then removeBreakpoints toRemove st else st) in *.
  destruct Hrm as [Hhost [Hgr [Hws [Hn [Hd [Hnil Hcons]]]]]].
  cbn [vscodeBreakpoints groups workspaceState emit].
  split; [|split; [exact Hgr|split; [exact Hws|]]].
  - intros bp. rewrite Hhost. apply In_notMatching.
  - intros Hsync Hpend.
    set (st2 := emit _ st1).
    assert (forall info, In info ungrouped ->
                         In info (map_values (breakpoints st))
                         /\ ~ In (b_id info)
                                 (flat_map g_breakpoints (map_values (groups st))))
      as Hun.
    { intros info Hin. unfold ungrouped, getUngroupedBreakpoints in Hin.
      apply filter_In in Hin. destruct Hin as [Hin Hf]. split; [exact Hin|].
      now apply includes_false, negb_true_iff. }
    assert (forall k info, map_get k (breakpoints st) = Some info ->
                           b_id info = k
                           /\ findSourceBreakpoint k (vscodeBreakpoints st) <> None)
      as Hrec.
    { intros k info Hget. split.
      - destruct (wf_mirror_mirrorOf (vscodeBreakpoints st)) as [_ Hk].
        apply Hk. rewrite <- Hsync. now apply map_get_In.
      - apply mirrorOf_holds. rewrite <- Hsync. congruence. }
    assert (toRemove <> []) as Hne.
    { destruct (Hun u0 Hu0) as [Hval _].
      apply In_values_get in Hval. destruct Hval as [k Hk].
      assert (map_get k (breakpoints st) = Some u0) as Hget.
      { apply In_map_get; [|exact Hk]. rewrite Hsync.
        apply (wf_mirror_mirrorOf (vscodeBreakpoints st)). }
      destruct (Hrec k u0 Hget) as [Eid Hlive].
      destruct (findSourceBreakpoint k (vscodeBreakpoints st)) as [s|] eqn:Es;
        [|congruence].
      apply findSourceBreakpoint_Some in Es. destruct Es as [Hs Hid].
      assert (In (Source s) toRemove) as Hin.
      { apply filter_In. split; [exact Hs|]. apply existsb_exists.
        exists u0. split; [exact Hu0|]. apply String.eqb_eq. congruence. }
      intros E. rewrite E in Hin. destruct Hin. }
    specialize (Hcons Hne).
    assert (breakpoints (settle st2) = mirrorOf (vscodeBreakpoints st1)) as Hm.
    { destruct (delivery st) eqn:Ed.
      - destruct Hcons as [Hb Hp]. rewrite settle_idle.
        + exact Hb.
        + change (pending st2) with (pending st1). congruence.
      - destruct Hcons as [Hb Hp].
        rewrite (settle_removal st2 (mkEvent [] toRemove [])).
        + reflexivity.
        + change (pending st2) with (pending st1). rewrite Hp, Hpend. reflexivity.
        + exact Hne. }
    assert (groups (settle st2) = groups st) as Hg2.
    { destruct (settle_frame st2) as [_ [_ [G _]]]. rewrite G. exact Hgr. }
    assert (forall s, In (Source s) (vscodeBreakpoints st1) ->
                      In (generateBreakpointId s)
                         (flat_map g_breakpoints (map_values (groups st)))) as Hkept.
    { intros s Hs. rewrite Hhost in Hs. apply In_notMatching in Hs.
      destruct Hs as [Hs Hno].
      assert (map_get (generateBreakpointId s) (breakpoints st) <> None) as Hheld.
      { rewrite Hsync. apply mirrorOf_holds.
        now apply (findSourceBreakpoint_In _ _ s). }
      destruct (map_get (generateBreakpointId s) (breakpoints st)) as [r|] eqn:Er;
        [|congruence].
      destruct (Hrec _ _ Er) as [Eid _].
      destruct (includes (flat_map g_breakpoints (map_values (groups st)))
                         (generateBreakpointId s)) eqn:Ei.
      - now apply includes_In.
      - exfalso. apply (Hno s r eq_refl); [|congruence].
        unfold ungrouped, getUngroupedBreakpoints. apply filter_In. split.
        + apply In_values_get. exists (generateBreakpointId s).
          now apply map_get_In.
        + rewrite Eid. now rewrite Ei. }
    split.
    + unfold getUngroupedBreakpoints. rewrite Hg2, Hm. apply filter_none.
      intros info Hinfo. apply negb_false_iff, includes_In.
      apply In_values_get in Hinfo. destruct Hinfo as [k Hk].
      destruct (wf_mirror_mirrorOf (vscodeBreakpoints st1)) as [Hnd1 Hk1].
      pose proof (In_map_get k info _ Hnd1 Hk) as Hget.
      rewrite (Hk1 _ _ Hk).
      assert (findSourceBreakpoint k (vscodeBreakpoints st1) <> None) as Hlive
          by (apply mirrorOf_holds; congruence).
      destruct (findSourceBreakpoint k (vscodeBreakpoints st1)) as [s|] eqn:Es;
        [|congruence].
      apply findSourceBreakpoint_Some in Es. destruct Es as [Hs Hid].
      rewrite <- Hid. now apply Hkept.
    + intros k Hk. rewrite Hm, Hsync, !mirrorOf_get, Hhost.
      rewrite <- filter_rev.
      rewrite findSourceBreakpoint_filter; [reflexivity|].
      intros s Hs Hp E. apply negb_false_iff in Hp. cbn in Hp.
      apply existsb_exists in Hp. destruct Hp as [info [Hinfo Einfo]].
      apply String.eqb_eq in Einfo.
      destruct (Hun info Hinfo) as [_ Hnot]. apply Hnot.
      unfold getGroups in Hk. congruence.
Qed.

Lemma removeAllUngroupedBreakpoints_removes_ungrouped_witness :
  wf_host demoAB
  /\ getUngroupedBreakpoints demoAB <> []
  /\ getUngroupedBreakpoints
       (settle (Command.removeAllUngroupedBreakpoints (Some "Remove All") demoAB))
     = [].
Proof.
  assert (wf_host demoAB) as Hh.
  { split; [vm_compute; repeat constructor; cbn; intuition discriminate|].
    intros bp Hbp. vm_compute in Hbp.
    destruct Hbp as [<-|[<-|[<-|[]]]]; vm_compute; lia. }
  split; [exact Hh|]. split; [vm_compute; discriminate|].
  destruct (removeAllUngroupedBreakpoints_removes_ungrouped demoAB Hh)
    as [_ [_ [_ H]]].
  exact (proj1 (H eq_refl eq_refl)).
Defined.

(** ** Moving breakpoints between groups *)

Lemma addBreakpointToGroup_member (breakpointId groupId : string) (st : State) :
  map_get groupId (groups st) <> None ->
  map_get breakpointId (breakpoints st) <> None ->
  In breakpointId (members groupId (groups (addBreakpointToGroup breakpointId groupId st))).
Proof.
  intros Hg Hb. unfold addBreakpointToGroup.
  destruct (map_get groupId (groups st)) as [g|] eqn:Eg; [|congruence].
  destruct (map_get breakpointId (breakpoints st)) as [b|]; [|congruence].
  destruct (includes (g_breakpoints g) breakpointId) eqn:Ei; cbn [negb].
  - unfold members. rewrite Eg. now apply includes_In.
  - unfold members. cbn. rewrite map_get_adjust, String.eqb_refl, Eg. cbn.
    apply in_or_app. right. now left.
Qed.

Lemma removeBreakpointFromGroup_keeps_groups (breakpointId groupId k : string)
  (st : State) :
  map_get k (groups st) <> None ->
  map_get k (groups (removeBreakpointFromGroup breakpointId groupId st)) <> None.
Proof.
  intros Hk. unfold removeBreakpointFromGroup.
  destruct (map_get groupId (groups st)); [|exact Hk].
  cbn. rewrite map_get_adjust. destruct (groupId =? k); [|exact Hk].
  destruct (map_get k (groups st)); [discriminate|congruence].
Qed.

Lemma addBreakpointToGroup_keeps_groups (breakpointId groupId k : string)
  (st : State) :
  map_get k (groups st) <> None ->
  map_get k (groups (addBreakpointToGroup breakpointId groupId st)) <> None.
Proof.
  intros Hk. unfold addBreakpointToGroup.
  destruct (map_get groupId (groups st)) as [g|]; [|exact Hk].
  destruct (map_get breakpointId (breakpoints st)); [|exact Hk].
  destruct (negb (includes (g_breakpoints g) breakpointId)); [|exact Hk].
  cbn. rewrite map_get_adjust. destruct (groupId =? k); [|exact Hk].
  destruct (map_get k (groups st)); [discriminate|congruence].
Qed.

(** What one round of a move does to the member lists: other identities stay
    where they are; the moved identity, when no two groups listed it, is
    afterwards in the target group alone, and in no group when the mirror has
    no record of it. *)
Lemma moveOne_members (breakpointId : string) (sel : BreakpointGroup) (st : State) :
  wf_groups (groups st) ->
  map_get (g_id sel) (groups st) <> None ->
  let st' := Command.moveOne breakpointId sel st in
  map_get (g_id sel) (groups st') <> None
  /\ (forall id k, id <> breakpointId ->
                   In id (members k (groups st')) <-> In id (members k (groups st)))
  /\ (exclusive (groups st) ->
      forall k, In breakpointId (members k (groups st'))
                <-> k = g_id sel /\ map_get breakpointId (breakpoints st) <> None).
Proof.
  intros Hwf Htarget st'. unfold st', Command.moveOne.
  set (st1 := match getGroupForBreakpoint breakpointId st with
              | Some currentGroup =>
                  removeBreakpointFromGroup breakpointId (g_id currentGroup) st
              | None => st
              end).
  assert (map_get (g_id sel) (groups st1) <> None) as Htarget1.
  { unfold st1. destruct (getGroupForBreakpoint breakpointId st); [|exact Htarget].
    now apply removeBreakpointFromGroup_keeps_groups. }
  assert (breakpoints st1 = breakpoints st) as Hb1.
  { unfold st1. destruct (getGroupForBreakpoint breakpointId st); [|reflexivity].
    apply breakpoints_remove. }
  assert (forall id k, id <> breakpointId ->
                       In id (members k (groups st1)) <-> In id (members k (groups st)))
    as Hother1.
  { intros id k Hid. unfold st1.
    destruct (getGroupForBreakpoint breakpointId st) as [cur|]; [|reflexivity].
    rewrite members_remove. destruct (g_id cur =? k); [|reflexivity].
    rewrite In_filter_neq. tauto. }
  split; [|split].
  - now apply addBreakpointToGroup_keeps_groups.
  - intros id k Hid. rewrite <- Hother1 by exact Hid.
    destruct (members_add breakpointId (g_id sel) k st1) as [E|[_ [_ [_ E]]]];
      rewrite E; [reflexivity|].
    rewrite in_app_iff. cbn. split; [|tauto].
    intros [H|[H|[]]]; [exact H|congruence].
  - intros Hex k.
    assert (forall k0, ~ In breakpointId (members k0 (groups st1))) as Hnone.
    { intros k0. unfold st1.
      destruct (getGroupForBreakpoint breakpointId st) as [cur|] eqn:Ecur.
      - rewrite members_remove. destruct (g_id cur =? k0) eqn:E.
        + rewrite In_filter_neq. tauto.
        + intros Hin. apply String.eqb_neq in E. apply E.
          destruct (getGroupForBreakpoint_Some breakpointId st cur Hwf Ecur)
            as [Hcur Hmem].
          symmetry. apply (Hex breakpointId); [exact Hin|].
          unfold members. now rewrite Hcur.
      - now apply getGroupForBreakpoint_None. }
    rewrite <- Hb1. split.
    + intros Hin.
      destruct (members_add breakpointId (g_id sel) k st1) as [E|[Ek [Hm [_ E]]]].
      * rewrite E in Hin. now elim (Hnone k).
      * split; assumption.
    + intros [-> Hm]. now apply addBreakpointToGroup_member.
Qed.

Lemma moveEach_members (sel : BreakpointGroup) (items : list TreeItem) (st : State) :
  wf_groups (groups st) -> exclusive (groups st) ->
  map_get (g_id sel) (groups st) <> None ->
  let st' :=
    fold_left
      (fun s breakpointItem =>
         match item_breakpointId breakpointItem with
         | Some breakpointId => Command.moveOne breakpointId sel s
         | None => s
         end)
      items st in
  (wf_groups (groups st') /\ exclusive (groups st')
   /\ map_get (g_id sel) (groups st') <> None
   /\ breakpoints st' = breakpoints st)
  /\ (forall id,
         (exists item, In item items /\ item_breakpointId item = Some id) ->
         forall k, In id (members k (groups st'))
                   <-> k = g_id sel /\ map_get id (breakpoints st) <> None)
  /\ (forall id,
         (forall item, In item items -> item_breakpointId item <> Some id) ->
         forall k, In id (members k (groups st')) <-> In id (members k (groups st))).
Proof.
  intros Hwf Hex Htarget. cbv zeta.
  induction items as [|item items IH] using rev_ind.
  - cbn [fold_left]. split; [|split].
    + repeat split; try assumption; apply Hwf.
    + intros id [item [[] _]].
    + intros id _ k. reflexivity.
  - rewrite fold_left_app. cbn [fold_left].
    set (st1 := fold_left _ items st) in *.
    destruct IH as [[Hwf1 [Hex1 [Htarget1 Hb1]]] [Hsel1 Hrest1]].
    destruct (item_breakpointId item) as [bid|] eqn:Eitem.
    + destruct (moveOne_members bid sel st1 Hwf1 Htarget1) as [Ht [Hother Hmoved]].
      destruct (moveOne_exclusive bid sel st1 Hwf1 Hex1) as [Hwf2 Hex2].
      destruct (moveOne_frame bid sel st1) as [Hb2 _].
      split; [|split].
      * repeat split; try assumption; try apply Hwf2. congruence.
      * intros id [it [Hit Eit]] k.
        destruct (String.eqb_spec id bid) as [->|Hne].
        -- rewrite (Hmoved Hex1 k). now rewrite Hb1.
        -- rewrite (Hother id k Hne). apply Hsel1.
           apply in_app_or in Hit. destruct Hit as [Hit|[<-|[]]];
             [eauto|congruence].
      * intros id Hnot k.
        assert (id <> bid) as Hne.
        { intros ->. apply (Hnot item); [apply in_or_app; right; now left|exact Eitem]. }
        rewrite (Hother id k Hne). apply Hrest1.
        intros it Hit. apply Hnot. apply in_or_app. now left.
    + split; [|split].
      * repeat split; try assumption; apply Hwf1.
      * intros id [it [Hit Eit]] k. apply Hsel1.
        apply in_app_or in Hit. destruct Hit as [Hit|[<-|[]]]; [eauto|congruence].
      * intros id Hnot k. apply Hrest1.
        intros it Hit. apply Hnot. apply in_or_app. now left.
Qed.

(** X12: "move selected breakpoints to group", with a group picked that the
    manager has and when no identity was in two groups before: every selected
    breakpoint that the mirror holds is afterwards a member of the picked
    group and of no other; a selected breakpoint the mirror does not hold is a
    member of no group; and the identities that were not selected are members
    of exactly the groups they were members of. *)
Theorem moveSelected_gathers_in_target (selection : list TreeItem)
  (sel : BreakpointGroup) (st : State) :
  wf_groups (groups st) -> exclusive (groups st) ->
  map_get (g_id sel) (groups st) <> None ->
  let st' := Command.moveSelectedBreakpointsToGroup selection (Some sel) st in
  (forall item id,
      In item selection -> item_breakpointId item = Some id ->
      forall k, In id (members k (groups st'))
                <-> k = g_id sel /\ map_get id (breakpoints st) <> None)
  /\ (forall id,
         (forall item, In item selection -> item_breakpointId item <> Some id) ->
         forall k, In id (members k (groups st')) <-> In id (members k (groups st)))
  /\ exclusive (groups st').
Proof.
  intros Hwf Hex Htarget st'.
  set (isBp := fun item => match item with
                           | BreakpointGroupItem _ => false
                           | BreakpointItem _ _ => true
                           | UngroupedBreakpointItem _ => true
                           end).
  assert (forall item id, item_breakpointId item = Some id -> isBp item = true) as Hbp.
  { intros [g|b gid|b] id; cbn; congruence. }
  assert ((List.length (getGroups st) =? 0)%nat = false) as Hgroups.
  { destruct (map_get (g_id sel) (groups st)) as [g|] eqn:Eg; [|congruence].
    apply (getGroups_nonempty g). apply In_values_get. exists (g_id sel).
    now apply map_get_In. }
  unfold st', Command.moveSelectedBreakpointsToGroup. fold isBp.
  destruct (List.length (filter isBp selection) =? 0)%nat eqn:El.
  - (* no breakpoint is selected: a warning, and nothing else *)
    apply Nat.eqb_eq, length_zero_iff_nil in El.
    cbn [groups emit]. split; [|split; [tauto|exact Hex]].
    intros item id Hin Eid. exfalso.
    assert (In item (filter isBp selection)) as Hf
        by (apply filter_In; split; [exact Hin|now apply (Hbp item id)]).
    rewrite El in Hf. destruct Hf.
  - rewrite Hgroups. cbn [groups emit].
    destruct (moveEach_members sel (filter isBp selection) st Hwf Hex Htarget)
      as [[_ [Hex' _]] [Hsel Hrest]].
    split; [|split; [|exact Hex']].
    + intros item id Hin Eid. apply Hsel. exists item. split; [|exact Eid].
      apply filter_In. split; [exact Hin|now apply (Hbp item id)].
    + intros id Hnot. apply Hrest. intros item Hin. apply filter_In in Hin.
      apply Hnot. tauto.
Qed.

Lemma moveSelected_gathers_in_target_witness :
  wf_groups (groups demoAB) /\ exclusive (groups demoAB)
  /\ In "/a.js:10"
        (members "gB"
           (groups (Command.moveSelectedBreakpointsToGroup
                      [demoItemA; demoItemB]
                      (Some (mkGroup "gB" "B" [] true None)) demoAB))).
Proof.
  assert (wf_groups (groups demoAB)) as Hg by (vm_compute; solve_keyed).
  assert (exclusive (groups demoAB)) as Hex.
  { intros id k1 k2.
    change (groups demoAB)
      with [("gA", mkGroup "gA" "A" ["/a.js:10"] true None);
            ("gB", mkGroup "gB" "B" [] true None)].
    rewrite !members_cons, !members_nil.
    destruct ("gA" =? k1) eqn:E1; destruct ("gA" =? k2) eqn:E2;
      destruct ("gB" =? k1); destruct ("gB" =? k2); cbn; try tauto.
    all: apply String.eqb_eq in E1, E2; congruence. }
  assert (map_get "gB" (groups demoAB) <> None) as Ht by (vm_compute; discriminate).
  split; [exact Hg|]. split; [exact Hex|].
  destruct (moveSelected_gathers_in_target [demoItemA; demoItemB]
              (mkGroup "gB" "B" [] true None) demoAB Hg Hex Ht) as [H _].
  apply (H demoItemA "/a.js:10"); [now left|reflexivity|].
  split; [reflexivity|vm_compute; discriminate].
Defined.

(** ** Commands that ask before they act *)

(** X13: "create group from breakpoint" with a name given: the new group is
    enabled and its only member is the breakpoint, when the mirror holds it,
    and it has no member otherwise.  Every other group keeps its members: a
    breakpoint that was in a group is not taken out of it, so it is then in
    two groups.  The groups are saved as they now are. *)
Theorem createGroupFromBreakpoint_makes_singleton (element : option TreeItem)
  (breakpointId name id : string) (st : State) :
  Command.breakpointIdOf element = Some breakpointId ->
  name <> "" ->
  let st' := Command.createGroupFromBreakpoint element (Some name) id st in
  map_get id (groups st')
  = Some (mkGroup id name
                  (match map_get breakpointId (breakpoints st) with
                   | Some _ => [breakpointId]
                   | None => []
                   end)
                  true None)
  /\ (forall k, k <> id -> map_get k (groups st') = map_get k (groups st))
  /\ workspaceState st' = getGroups st'
  /\ breakpoints st' = breakpoints st
  /\ vscodeBreakpoints st' = vscodeBreakpoints st.
Proof.
  intros Hel Hname st'. unfold st', Command.createGroupFromBreakpoint.
  rewrite Hel. cbn [truthy].
  assert ((name =? "") = false) as En by now apply String.eqb_neq.
  rewrite En. cbn [negb].
  set (st1 := createGroup id name None st).
  assert (map_get id (groups st1) = Some (mkGroup id name [] true None)) as Hnew.
  { cbn. rewrite map_get_set. now rewrite String.eqb_refl. }
  assert (forall k, k <> id -> map_get k (groups st1) = map_get k (groups st)) as Hold.
  { intros k Hk. cbn. rewrite map_get_set.
    destruct (id =? k) eqn:E; [|reflexivity].
    apply String.eqb_eq in E. congruence. }
  cbn [groups workspaceState breakpoints vscodeBreakpoints emit].
  unfold addBreakpointToGroup. rewrite Hnew.
  change (breakpoints st1) with (breakpoints st).
  destruct (map_get breakpointId (breakpoints st)) as [info|].
  - cbn [g_breakpoints includes existsb negb].
    cbn [groups workspaceState breakpoints vscodeBreakpoints emit fireGroupsChanged
         saveGroups with_groups with_workspaceState].
    split; [|split; [|repeat split]].
    + rewrite map_get_adjust, String.eqb_refl, Hnew. reflexivity.
    + intros k Hk. rewrite map_get_adjust.
      destruct (id =? k) eqn:E; [|now apply Hold].
      apply String.eqb_eq in E. congruence.
  - split; [exact Hnew|]. split; [exact Hold|]. repeat split.
Qed.

Lemma createGroupFromBreakpoint_makes_singleton_witness :
  members "gA" (groups demoAB) = ["/a.js:10"]
  /\ members "gA"
       (groups (Command.createGroupFromBreakpoint (Some demoItemA) (Some "Hot") "g9"
                                                  demoAB))
     = ["/a.js:10"]
  /\ map_get "g9"
       (groups (Command.createGroupFromBreakpoint (Some demoItemA) (Some "Hot") "g9"
                                                  demoAB))
     = Some (mkGroup "g9" "Hot" ["/a.js:10"] true None).
Proof.
  split; [reflexivity|]. split; [reflexivity|].
  exact (proj1 (createGroupFromBreakpoint_makes_singleton
                  (Some demoItemA) "/a.js:10" "Hot" "g9" demoAB eq_refl
                  ltac:(discriminate))).
Defined.

(** X14: a command that asks the user does nothing when the answer is not the
    one it waits for.  An input box that is cancelled or left empty creates and
    renames nothing, and so does a new name equal to the label; a warning
    dialogue that is closed or answered with another button deletes, removes
    and clears nothing.  The state is the one before the command. *)
Theorem declined_commands_change_nothing (element : option TreeItem)
  (label id : string) (description answer : option string) (st : State) :
  (truthy answer = false ->
   Command.createGroup answer description id st = st
   /\ Command.renameGroup element label answer st = st
   /\ (Command.breakpointIdOf element <> None ->
       Command.createGroupFromBreakpoint element answer id st = st))
  /\ Command.renameGroup element label (Some label) st = st
  /\ (answer <> Some "Delete" -> Command.deleteGroup element label answer st = st)
  /\ (answer <> Some "Remove All Groups" -> getGroups st <> [] ->
      Command.removeAllGroups answer st = st)
  /\ (answer <> Some "Remove All" ->
      (Command.groupIdOf element <> None ->
       (exists g, In g (getGroups st) /\ Some (g_id g) = Command.groupIdOf element) ->
       Command.removeAllBreakpointsInGroup element answer st = st)
      /\ (getUngroupedBreakpoints st <> [] ->
          Command.removeAllUngroupedBreakpoints answer st = st)).
Proof.
  assert (forall want, answer <> Some want ->
                       match answer with
                       | Some a => (a =? want) = false
                       | None => True
                       end) as Hother.
  { intros want H. destruct answer as [a|]; [|exact I].
    apply String.eqb_neq. congruence. }
  split; [|split; [|split; [|split]]].
  - intros Ht. split; [|split].
    + unfold Command.createGroup. now rewrite Ht.
    + unfold Command.renameGroup. destruct (Command.groupIdOf element); [|reflexivity].
      destruct answer; [|reflexivity]. now rewrite Ht.
    + intros Hb. unfold Command.createGroupFromBreakpoint.
      destruct (Command.breakpointIdOf element); [|congruence]. now rewrite Ht.
  - unfold Command.renameGroup. destruct (Command.groupIdOf element); [|reflexivity].
    rewrite String.eqb_refl. cbn [negb]. now rewrite andb_false_r.
  - intros H. specialize (Hother "Delete" H). unfold Command.deleteGroup.
    destruct (Command.groupIdOf element); [|reflexivity].
    destruct answer; [|reflexivity]. now rewrite Hother.
  - intros H Hne. specialize (Hother "Remove All Groups" H).
    unfold Command.removeAllGroups.
    destruct (getGroups st) as [|g gs]; [congruence|]. cbn [List.length Nat.eqb].
    destruct answer; [|reflexivity]. now rewrite Hother.
  - intros H. specialize (Hother "Remove All" H). split.
    + intros Hg [g [Hin Eg]]. unfold Command.removeAllBreakpointsInGroup.
      destruct (Command.groupIdOf element) as [gid|]; [|congruence].
      injection Eg as Eg.
      destruct (find (fun g0 => g_id g0 =? gid) (getGroups st)) eqn:Ef.
      * destruct answer; [|reflexivity]. now rewrite Hother.
      * pose proof (find_none _ _ Ef g Hin) as Hf. cbn in Hf.
        rewrite Eg, String.eqb_refl in Hf. discriminate.
    + intros Hne. unfold Command.removeAllUngroupedBreakpoints.
      destruct (getUngroupedBreakpoints st) as [|u us]; [congruence|].
      cbn [List.length Nat.eqb].
      destruct answer; [|reflexivity]. now rewrite Hother.
Qed.

(** ** Enabling and disabling a group: what is touched *)

Lemma replaceBreakpoint_host (old : SourceBreakpoint) (enabled : bool) (st : State) :
  wf_host st ->
  vscodeBreakpoints (replaceBreakpoint old enabled st)
  = (dropUid (sb_uid old) (vscodeBreakpoints st)
       ++ [Source (replacement old enabled (nextUid st))])%list.
Proof.
  intros Hwf. rewrite (replaceBreakpoint_spec old enabled st Hwf).
  now destruct (delivery st).
Qed.

Lemma updateGroupBreakpoints_loop_others (snapshot : list Breakpoint) (flag : bool)
  (ms : list string) (st : State) (bp : Breakpoint) :
  wf_host st ->
  NoDup (map bp_uid snapshot) ->
  In bp snapshot ->
  In bp (vscodeBreakpoints st) ->
  (forall s, bp = Source s -> ~ In (generateBreakpointId s) ms) ->
  In bp (vscodeBreakpoints (fold_left (updateGroupBreakpoint snapshot flag) ms st)).
Proof.
  intros Hwf Hnd Hsnap. revert st Hwf.
  induction ms as [|m ms IH]; intros st Hwf Hin Hnot; cbn [fold_left]; [exact Hin|].
  apply IH.
  - unfold updateGroupBreakpoint.
    destruct (map_get m (breakpoints st)); [|exact Hwf].
    destruct (findSourceBreakpoint m snapshot); [|exact Hwf].
    now apply wf_host_replaceBreakpoint.
  - unfold updateGroupBreakpoint.
    destruct (map_get m (breakpoints st)); [|exact Hin].
    destruct (findSourceBreakpoint m snapshot) as [old|] eqn:Eold; [|exact Hin].
    rewrite replaceBreakpoint_host by exact Hwf.
    apply in_or_app. left. apply In_dropUid. split; [exact Hin|].
    intros Euid. apply findSourceBreakpoint_Some in Eold. destruct Eold as [Hold Hid].
    assert (bp = Source old) as E by (now apply (uid_determines snapshot)).
    apply (Hnot old E). rewrite Hid. now left.
  - intros s Es Hm. apply (Hnot s Es). now right.
Qed.

Lemma updateGroupBreakpoints_loop_new (snapshot : list Breakpoint) (flag : bool)
  (ms : list string) (st : State) (bp : Breakpoint) :
  wf_host st ->
  In bp (vscodeBreakpoints (fold_left (updateGroupBreakpoint snapshot flag) ms st)) ->
  In bp (vscodeBreakpoints st)
  \/ exists s old,
       bp = Source s /\ sb_enabled s = flag
       /\ In (Source old) snapshot
       /\ In (generateBreakpointId old) ms
       /\ generateBreakpointId s = generateBreakpointId old
       /\ sb_location s = sb_location old
       /\ sb_condition s = sb_condition old
       /\ sb_hitCondition s = sb_hitCondition old
       /\ sb_logMessage s = sb_logMessage old.
Proof.
  revert st. induction ms as [|m ms IH]; intros st Hwf Hin; cbn [fold_left] in Hin;
    [now left|].
  assert (wf_host (updateGroupBreakpoint snapshot flag st m)) as Hwf'.
  { unfold updateGroupBreakpoint.
    destruct (map_get m (breakpoints st)); [|exact Hwf].
    destruct (findSourceBreakpoint m snapshot); [|exact Hwf].
    now apply wf_host_replaceBreakpoint. }
  destruct (IH _ Hwf' Hin) as [Hold|[s [old [E [Hf [Hs [Hm Hrest]]]]]]].
  - unfold updateGroupBreakpoint in Hold.
    destruct (map_get m (breakpoints st)); [|now left].
    destruct (findSourceBreakpoint m snapshot) as [old|] eqn:Eold; [|now left].
    rewrite replaceBreakpoint_host in Hold by exact Hwf.
    apply in_app_or in Hold. destruct Hold as [Hold|[<-|[]]].
    + left. apply In_dropUid in Hold. tauto.
    + right. apply findSourceBreakpoint_Some in Eold. destruct Eold as [Ho Hid].
      exists (replacement old flag (nextUid st)), old.
      repeat split; try reflexivity; try assumption.
      rewrite Hid. now left.
  - right. exists s, old. repeat split; try tauto. now right.
Qed.

Lemma updateGroupBreakpoints_loop_groups (snapshot : list Breakpoint) (flag : bool)
  (ms : list string) (st : State) :
  wf_host st ->
  let st' := fold_left (updateGroupBreakpoint snapshot flag) ms st in
  wf_host st' /\ groups st' = groups st /\ workspaceState st' = workspaceState st
  /\ delivery st' = delivery st.
Proof.
  revert st. induction ms as [|m ms IH]; intros st Hwf; cbn [fold_left].
  - repeat split; apply Hwf.
  - assert (wf_host (updateGroupBreakpoint snapshot flag st m)
            /\ groups (updateGroupBreakpoint snapshot flag st m) = groups st
            /\ workspaceState (updateGroupBreakpoint snapshot flag st m)
               = workspaceState st
            /\ delivery (updateGroupBreakpoint snapshot flag st m) = delivery st)
      as [Hwf1 [Hg1 [Hw1 Hd1]]].
    { unfold updateGroupBreakpoint.
      destruct (map_get m (breakpoints st)); [|now repeat split; try apply Hwf].
      destruct (findSourceBreakpoint m snapshot) as [old|];
        [|now repeat split; try apply Hwf].
      split; [now apply wf_host_replaceBreakpoint|].
      rewrite (replaceBreakpoint_spec old flag st Hwf).
      destruct (delivery st) eqn:Ed; repeat split; cbn; now rewrite ?Ed. }
    destruct (IH _ Hwf1) as [H1 [H2 [H3 H4]]].
    cbv zeta. repeat split; try apply H1; congruence.
Qed.

(** X15: enabling or disabling a group touches the group's members only.  Every
    object of the editor that is not a source breakpoint with the identity of
    a member (a function breakpoint, a breakpoint of another group, an
    ungrouped one) is afterwards the very object it was.  Every object that is
    new is a source breakpoint with the group's new flag, made from a live
    breakpoint with a member's identity, with that breakpoint's location,
    condition, hit condition and log message.  Of the groups only the flag of
    the group changes; without a group of that id nothing happens. *)
Theorem setGroupEnabled_touches_members_only (groupId : string) (flag : bool)
  (st : State) :
  wf_host st ->
  let st' := setGroupEnabled groupId flag st in
  (forall bp,
      In bp (vscodeBreakpoints st) ->
      (forall s, bp = Source s ->
                 ~ In (generateBreakpointId s) (members groupId (groups st))) ->
      In bp (vscodeBreakpoints st'))
  /\ (forall bp,
         In bp (vscodeBreakpoints st') ->
         In bp (vscodeBreakpoints st)
         \/ exists s old,
              bp = Source s /\ sb_enabled s = flag
              /\ In (Source old) (vscodeBreakpoints st)
              /\ In (generateBreakpointId old) (members groupId (groups st))
              /\ generateBreakpointId s = generateBreakpointId old
              /\ sb_location s = sb_location old
              /\ sb_condition s = sb_condition old
              /\ sb_hitCondition s = sb_hitCondition old
              /\ sb_logMessage s = sb_logMessage old)
  /\ (forall k,
         map_get k (groups st')
         = if groupId =? k
           then option_map (group_with_enabled flag) (map_get k (groups st))
           else map_get k (groups st))
  /\ (map_get groupId (groups st) = None -> st' = st).
Proof.
  intros Hwf st'. unfold st', setGroupEnabled, members.
  destruct (map_get groupId (groups st)) as [group|] eqn:Eg.
  - set (st1 := with_groups _ st).
    assert (wf_host st1) as Hwf1 by exact Hwf.
    unfold updateGroupBreakpoints.
    cbn [g_enabled g_breakpoints group_with_enabled].
    change (vscodeBreakpoints st1) with (vscodeBreakpoints st).
    destruct (updateGroupBreakpoints_loop_groups
                (vscodeBreakpoints st) flag (g_breakpoints group) st1 Hwf1)
      as [_ [Hg _]].
    cbn [vscodeBreakpoints groups fireGroupsChanged saveGroups emit
         with_workspaceState].
    split; [|split; [|split; [|discriminate]]].
    + intros bp Hin Hnot.
      apply updateGroupBreakpoints_loop_others; try assumption. apply Hwf.
    + intros bp Hin.
      exact (updateGroupBreakpoints_loop_new _ _ _ _ _ Hwf1 Hin).
    + intros k. rewrite Hg. unfold st1. cbn [groups with_groups].
      apply map_get_adjust.
  - split; [tauto|]. split; [tauto|]. split; [|reflexivity].
    intros k. destruct (groupId =? k) eqn:E; [|reflexivity].
    apply String.eqb_eq in E. subst k. now rewrite Eg.
Qed.

Lemma setGroupEnabled_touches_members_only_witness :
  wf_host demoDB
  /\ In (Function 1 true "main") (vscodeBreakpoints (setGroupEnabled "g1" false demoDB))
  /\ In (Source (mkSource 2 (mkLocation "/b.js" 4 2) false (Some "x > 1") (Some "3")
                          None))
        (vscodeBreakpoints (setGroupEnabled "g1" false demoDB)).
Proof.
  assert (wf_host demoDB) as Hh.
  { split; [vm_compute; repeat constructor; cbn; intuition discriminate|].
    intros bp Hbp. vm_compute in Hbp.
    destruct Hbp as [<-|[<-|[<-|[]]]]; vm_compute; lia. }
  destruct (setGroupEnabled_touches_members_only "g1" false demoDB Hh) as [H _].
  split; [exact Hh|]. split.
  - apply H; [vm_compute; tauto|]. intros s E. discriminate E.
  - apply H; [vm_compute; tauto|]. intros s E. injection E as <-.
    vm_compute. intros [E|[]]. discriminate E.
Defined.

(** ** What holds after every command *)

(** A step that leaves the mirror, the editor and the queue alone keeps the
    state consistent when it keeps the groups well formed. *)
Lemma consistent_frame (st st' : State) :
  breakpoints st' = breakpoints st ->
  vscodeBreakpoints st' = vscodeBreakpoints st ->
  nextUid st' = nextUid st ->
  pending st' = pending st ->
  delivery st' = delivery st ->
  wf_groups (groups st') ->
  consistent st -> consistent st'.
Proof.
  intros Hb Hv Hn Hp Hd Hg [_ [Hm [[Hnd Hlt] Hc]]].
  split; [exact Hg|]. split; [now rewrite Hb|]. split.
  - split; rewrite Hv; [exact Hnd|]. rewrite Hn. exact Hlt.
  - destruct Hc as [[H1 H2]|[H1 H2]].
    + left. split; congruence.
    + right. split; [congruence|]. now rewrite Hp.
Qed.










(** Replacing a breakpoint keeps the state consistent: at once the mirror is
    read anew, with a queue the notification of the addition is the last to
    wait. *)
Lemma consistent_replaceBreakpoint (old : SourceBreakpoint) (flag : bool) (st : State) :
  consistent st -> consistent (replaceBreakpoint old flag st).
Proof.
  intros [Hg [Hm [Hh Hc]]].
  destruct (replaceBreakpoint_invariants old flag st Hh Hm) as [I1 [I2 [I3 I4]]].
  split; [now rewrite I2|]. split; [exact I1|].
  split; [now apply wf_host_replaceBreakpoint|].
  rewrite (replaceBreakpoint_spec old flag st Hh).
  destruct (delivery st) eqn:Ed.
  - left. destruct Hc as [[Hp _]|[Hq _]]; [|congruence].
    split; [exact Hp|reflexivity].
  - right. split; [reflexivity|]. cbn [pending].
    exists (pending st
              ++ (if isLive (Source old) (vscodeBreakpoints st)
                  then [mkEvent [] [Source old] []] else []))%list,
           (mkEvent [Source (replacement old flag (nextUid st))] [] []).
    split; [now rewrite app_assoc|]. left. discriminate.
Qed.

Lemma consistent_updateGroupBreakpoints (snapshot : list Breakpoint) (flag : bool)
  (ms : list string) (st : State) :
  consistent st ->
  consistent (fold_left (updateGroupBreakpoint snapshot flag) ms st).
Proof.
  revert st. induction ms as [|m ms IH]; intros st H; cbn [fold_left]; [exact H|].
  apply IH. unfold updateGroupBreakpoint.
  destruct (map_get m (breakpoints st)); [|exact H].
  destruct (findSourceBreakpoint m snapshot); [|exact H].
  now apply consistent_replaceBreakpoint.
Qed.

Lemma consistent_saved (st : State) :
  consistent st -> consistent (fireGroupsChanged (saveGroups st)).
Proof.
  intros H. apply (consistent_frame st); try reflexivity; [apply H|exact H].
Qed.

Lemma consistent_setGroupEnabled (groupId : string) (flag : bool) (st : State) :
  consistent st -> consistent (setGroupEnabled groupId flag st).
Proof.
  intros H. unfold setGroupEnabled.
  destruct (map_get groupId (groups st)) as [group|]; [|exact H].
  apply consistent_saved. unfold updateGroupBreakpoints.
  apply consistent_updateGroupBreakpoints.
  apply (consistent_frame st); try reflexivity; [|exact H].
  apply (keyed_adjust g_id); [reflexivity|apply H].
Qed.




Lemma settle_structural (st : State) (es : list BreakpointsChangeEvent)
  (e : BreakpointsChangeEvent) :
  pending st = (es ++ [e])%list -> added e <> [] \/ removed e <> [] ->
  breakpoints (settle st) = mirrorOf (vscodeBreakpoints st).
Proof.
  intros Hp Hs. unfold settle. rewrite Hp, deliver_app. cbn [deliver].
  unfold onDidChangeBreakpoints.
  assert ((0 <? List.length (added e))%nat || (0 <? List.length (removed e))%nat
          = true) as E.
  { destruct Hs as [Hs|Hs].
    - destruct (added e); [congruence|reflexivity].
    - destruct (removed e); [congruence|]. apply orb_true_r. }
  rewrite E. cbn.
  destruct (deliver_frame es (with_pending [] st)) as [H _]. now rewrite H.
Qed.

(** Once the queue is delivered, a consistent state is in step. *)
Lemma consistent_settle (st : State) :
  consistent st -> consistent (settle st) /\ inStep (settle st).
Proof.
  intros [Hg [Hm [Hh Hc]]].
  destruct (settle_frame st) as [Hp [Hv [Hgr [Hn [Hws Hd]]]]].
  assert (inStep (settle st)) as Hin.
  { split; [exact Hp|]. rewrite Hv.
    destruct Hc as [[Hp0 Hb]|[_ [es [e [Hes Hs]]]]].
    - rewrite settle_idle by exact Hp0. exact Hb.
    - now apply (settle_structural st es e). }
  split; [|exact Hin].
  split; [now rewrite Hgr|]. split; [|split; [|now left]].
  - unfold settle. now apply wf_mirror_deliver.
  - destruct Hh as [Hnd Hlt]. split; rewrite Hv; [exact Hnd|]. now rewrite Hn.
Qed.













(** ** The checkbox of a group after the group is enabled or disabled *)

Lemma replacing_start (flag : bool) (st : State) :
  wf_host st -> replacing flag st (vscodeBreakpoints st) [] st.
Proof.
  intros Hwf. unfold replacing.
  split; [exact Hwf|]. split; [reflexivity|]. split; [lia|].
  split; [now rewrite app_nil_r|]. split; [tauto|]. split; [intros b []|].
  split; [tauto|]. now left.
Qed.

(** What the mirror of the editor's list holds for a member after the loop of
    [updateGroupBreakpoints], when the mirror was in step before: a record with
    the group's flag when it held a record, none when it held none. *)
Lemma updateGroupBreakpoints_loop_record (flag : bool) (ms : list string) (m : string)
  (st : State) :
  wf_host st ->
  breakpoints st = mirrorOf (vscodeBreakpoints st) ->
  In m ms ->
  let st' := fold_left (updateGroupBreakpoint (vscodeBreakpoints st) flag) ms st in
  match map_get m (breakpoints st) with
  | Some _ =>
      exists s, map_get m (mirrorOf (vscodeBreakpoints st')) = Some (toBreakpointInfo s)
                /\ sb_enabled s = flag
  | None => map_get m (mirrorOf (vscodeBreakpoints st')) = None
  end.
Proof.
  intros Hwf Hsync Hm st'.
  destruct (map_get m (breakpoints st)) as [r|] eqn:Er.
  - assert (findSourceBreakpoint m (vscodeBreakpoints st) <> None) as Hlive
        by (apply mirrorOf_holds; rewrite <- Hsync; congruence).
    destruct (findSourceBreakpoint m (vscodeBreakpoints st)) as [old|] eqn:Eold;
      [|congruence].
    assert (map_get m (breakpoints st) <> None) as Hheld by congruence.
    destruct (updateGroupBreakpoints_loop_replaces
                flag st old m ms st (vscodeBreakpoints st) [] Hwf
                (replacing_start flag st Hwf) Hm Hheld Eold)
      as [olds [news [Hrep [_ [[uid Hnew] _]]]]].
    destruct Hrep as [_ [_ [_ [Hhost [_ [Hnews _]]]]]].
    fold st' in Hhost. rewrite mirrorOf_get, Hhost, rev_app_distr.
    rewrite findSourceBreakpoint_app.
    assert (findSourceBreakpoint m (rev news) <> None) as Hfound.
    { apply findSourceBreakpoint_rev.
      apply (findSourceBreakpoint_In _ _ (replacement old flag uid)); [exact Hnew|].
      rewrite generateBreakpointId_replacement.
      now apply findSourceBreakpoint_Some in Eold. }
    destruct (findSourceBreakpoint m (rev news)) as [s|] eqn:Es; [|congruence].
    exists s. split; [reflexivity|].
    apply findSourceBreakpoint_Some in Es. destruct Es as [Hs _].
    apply in_rev in Hs. destruct (Hnews _ Hs) as [_ [s' [[= <-] Hflag]]]. exact Hflag.
  - assert (findSourceBreakpoint m (vscodeBreakpoints st) = None) as Hdead.
    { destruct (findSourceBreakpoint m (vscodeBreakpoints st)) eqn:E; [|reflexivity].
      exfalso.
      assert (map_get m (mirrorOf (vscodeBreakpoints st)) <> None) as Hx
          by (apply mirrorOf_holds; congruence).
      rewrite <- Hsync in Hx. contradiction. }
    destruct (map_get m (mirrorOf (vscodeBreakpoints st'))) eqn:E; [|reflexivity].
    exfalso.
    assert (findSourceBreakpoint m (vscodeBreakpoints st') <> None) as Hx
        by (apply mirrorOf_holds; congruence).
    destruct (findSourceBreakpoint m (vscodeBreakpoints st')) as [s|] eqn:Es;
      [|congruence].
    apply findSourceBreakpoint_Some in Es. destruct Es as [Hs Hid].
    pose proof (proj1 (findSourceBreakpoint_None m (vscodeBreakpoints st)) Hdead)
      as Hnone.
    destruct (updateGroupBreakpoints_loop_new _ _ _ _ _ Hwf Hs)
      as [Hold|[s' [old [[= <-] [_ [Hsnap [_ [Eid _]]]]]]]].
    + exact (Hnone s Hold Hid).
    + apply (Hnone old Hsnap). congruence.
Qed.

Lemma defined_map_ids (f g : string -> option BreakpointInfo) (ms : list string) :
  (forall m, In m ms -> option_map b_id (f m) = option_map b_id (g m)) ->
  map b_id (defined (map f ms)) = map b_id (defined (map g ms)).
Proof.
  induction ms as [|m ms IH]; intros H; cbn; [reflexivity|].
  pose proof (H m (or_introl eq_refl)) as Hm.
  assert (map b_id (defined (map f ms)) = map b_id (defined (map g ms))) as Hrest
      by (apply IH; intros m' Hm'; apply H; now right).
  destruct (f m), (g m); cbn in *; try discriminate; try exact Hrest.
  injection Hm as Hm. now rewrite Hm, Hrest.
Qed.

(** X17: from a state in step, after a group is enabled or disabled and the
    editor's notifications are delivered, every present member of the group
    has the group's flag, and the present members are the breakpoints they
    were.  So the checkbox of the group is checked after enabling it and
    unchecked after disabling it, as long as the group has a present member;
    a group without present members stays unchecked whatever is asked. *)
Theorem group_checkbox_follows_toggle (groupId : string) (flag : bool) (st : State) :
  wf_groups (groups st) ->
  wf_host st ->
  inStep st ->
  map_get groupId (groups st) <> None ->
  let st' := settle (setGroupEnabled groupId flag st) in
  (forall bp, In bp (getBreakpointsInGroup groupId st') -> b_enabled bp = flag)
  /\ map b_id (getBreakpointsInGroup groupId st')
     = map b_id (getBreakpointsInGroup groupId st)
  /\ calculateGroupState groupId st'
     = match getBreakpointsInGroup groupId st with
       | [] => AllDisabled
       | _ :: _ => if flag then AllEnabled else AllDisabled
       end.
Proof.
  intros Hwfg Hwf Hin Hsome st'.
  assert (consistent st) as Hcons.
  { split; [exact Hwfg|]. split; [|split; [exact Hwf|now left]].
    destruct Hin as [_ ->]. apply wf_mirror_mirrorOf. }
  destruct Hin as [Hpend Hsync].
  destruct (map_get groupId (groups st)) as [group|] eqn:Eg; [clear Hsome|congruence].
  set (st1 := with_groups
                (map_adjust (group_with_enabled flag) groupId (groups st)) st).
  set (loop := fold_left (updateGroupBreakpoint (vscodeBreakpoints st) flag)
                         (g_breakpoints group) st1).
  assert (setGroupEnabled groupId flag st = fireGroupsChanged (saveGroups loop)) as ES.
  { unfold setGroupEnabled. now rewrite Eg. }
  assert (wf_host st1) as Hwf1 by exact Hwf.
  destruct (updateGroupBreakpoints_loop_groups
              (vscodeBreakpoints st) flag (g_breakpoints group) st1 Hwf1)
    as [_ [Hgl _]]. fold loop in Hgl.
  destruct (consistent_settle _ (consistent_setGroupEnabled groupId flag st Hcons))
    as [_ [_ Hmirror]]. fold st' in Hmirror.
  destruct (settle_frame (setGroupEnabled groupId flag st))
    as [_ [Hv [Hg _]]]. fold st' in Hv, Hg.
  rewrite ES in Hv, Hg.
  cbn [vscodeBreakpoints groups fireGroupsChanged saveGroups emit with_workspaceState]
    in Hv, Hg.
  rewrite Hv in Hmirror. rewrite Hgl in Hg.
  assert (map_get groupId (groups st') = Some (group_with_enabled flag group)) as Eg'.
  { rewrite Hg. unfold st1. cbn [groups with_groups].
    rewrite map_get_adjust, String.eqb_refl, Eg. reflexivity. }
  assert (getBreakpointsInGroup groupId st'
          = defined (map (fun id => map_get id (mirrorOf (vscodeBreakpoints loop)))
                         (g_breakpoints group))) as Eafter.
  { unfold getBreakpointsInGroup. rewrite Eg', Hmirror. reflexivity. }
  assert (getBreakpointsInGroup groupId st
          = defined (map (fun id => map_get id (breakpoints st)) (g_breakpoints group)))
    as Ebefore.
  { unfold getBreakpointsInGroup. now rewrite Eg. }
  assert (forall m, In m (g_breakpoints group) ->
                    match map_get m (breakpoints st) with
                    | Some _ =>
                        exists s,
                          map_get m (mirrorOf (vscodeBreakpoints loop))
                          = Some (toBreakpointInfo s)
                          /\ sb_enabled s = flag
                    | None => map_get m (mirrorOf (vscodeBreakpoints loop)) = None
                    end) as Hrec.
  { intros m Hm.
    exact (updateGroupBreakpoints_loop_record flag (g_breakpoints group) m st1
             Hwf1 Hsync Hm). }
  assert (forall bp, In bp (getBreakpointsInGroup groupId st') -> b_enabled bp = flag)
    as Hflag.
  { intros bp Hbp. rewrite Eafter in Hbp. apply In_defined in Hbp.
    apply in_map_iff in Hbp. destruct Hbp as [m [Em Hm]].
    specialize (Hrec m Hm).
    destruct (map_get m (breakpoints st)).
    - destruct Hrec as [s [Es Hs]]. rewrite Es in Em. injection Em as <-. exact Hs.
    - congruence. }
  assert (map b_id (getBreakpointsInGroup groupId st')
          = map b_id (getBreakpointsInGroup groupId st)) as Hids.
  { rewrite Eafter, Ebefore. apply defined_map_ids. intros m Hm.
    specialize (Hrec m Hm).
    destruct (map_get m (breakpoints st)) as [r|] eqn:Er.
    - destruct Hrec as [s [Es _]]. rewrite Es. cbn [option_map]. f_equal.
      destruct (wf_mirror_mirrorOf (vscodeBreakpoints loop)) as [_ Hk1].
      destruct (wf_mirror_mirrorOf (vscodeBreakpoints st)) as [_ Hk0].
      assert (b_id (toBreakpointInfo s) = m) as E1
          by (apply Hk1; now apply map_get_In).
      assert (b_id r = m) as E0
          by (apply Hk0; rewrite <- Hsync; now apply map_get_In).
      congruence.
    - now rewrite Hrec. }
  split; [exact Hflag|]. split; [exact Hids|].
  unfold calculateGroupState.
  destruct (groupStateOf_spec (getBreakpointsInGroup groupId st'))
    as [Hall [Hnone _]].
  destruct (getBreakpointsInGroup groupId st) as [|b0 rest] eqn:Eb.
  - apply Hnone. left.
    destruct (getBreakpointsInGroup groupId st'); [reflexivity|discriminate Hids].
  - destruct flag.
    + apply Hall. split; [|exact Hflag].
      intros E. rewrite E in Hids. discriminate Hids.
    + apply Hnone. right. exact Hflag.
Qed.

Lemma group_checkbox_follows_toggle_witness :
  calculateGroupState "g1" demoBoth = Partial
  /\ calculateGroupState "g1" (settle (setGroupEnabled "g1" true demoBoth)) = AllEnabled
  /\ calculateGroupState "g1" (settle (setGroupEnabled "g1" false demoBoth))
     = AllDisabled.
Proof.
  assert (wf_groups (groups demoBoth)) as Hg by (vm_compute; solve_keyed).
  assert (wf_host demoBoth) as Hh.
  { split; [vm_compute; repeat constructor; cbn; intuition discriminate|].
    intros bp Hbp. vm_compute in Hbp.
    destruct Hbp as [<-|[<-|[<-|[]]]]; vm_compute; lia. }
  assert (inStep demoBoth) as Hi by (split; reflexivity).
  assert (map_get "g1" (groups demoBoth) <> None) as Hs by (vm_compute; discriminate).
  split; [reflexivity|]. split.
  - exact (proj2 (proj2 (group_checkbox_follows_toggle "g1" true demoBoth
                           Hg Hh Hi Hs))).
  - exact (proj2 (proj2 (group_checkbox_follows_toggle "g1" false demoBoth
                           Hg Hh Hi Hs))).
Defined.

(** ** The tree: a group, its children and their checkboxes *)

Lemma defined_length {A : Type} (f : string -> option A) (l : list string) :
  (List.length (defined (map f l)) <= List.length l)%nat
  /\ (List.length (defined (map f l)) = List.length l
      <-> forall m, In m l -> f m <> None).
Proof.
  induction l as [|m l [IHle IHeq]]; cbn.
  - split; [lia|]. split; [intros _ m []|reflexivity].
  - destruct (f m) eqn:E; cbn.
    + split; [lia|]. split.
      * intros H m' [<-|Hm']; [congruence|]. apply IHeq; [lia|exact Hm'].
      * intros H. f_equal. apply IHeq. intros m' Hm'. apply H. now right.
    + split; [lia|]. split; [lia|].
      intros H. exfalso. apply (H m); [now left|exact E].
Qed.

Lemma find_by_identity (breakpointId : string) (m : JsMap BreakpointInfo) :
  (forall k v, In (k, v) m -> b_id v = k) ->
  find (fun bp => b_id bp =? breakpointId) (map_values m) = map_get breakpointId m.
Proof.
  induction m as [|[k v] m IH]; cbn; intros Hk; [reflexivity|].
  rewrite (Hk k v) by now left.
  destruct (k =? breakpointId); [reflexivity|].
  apply IH. intros k' v' Hin. apply Hk. now right.
Qed.

(** X18: what the tree shows for a group of the manager.  The children are the
    present members, so there are at most as many as the group lists
    identities, and exactly as many when no member is orphaned; the
    description of the item counts the listed identities, the tooltip that
    [resolveTreeItem] writes counts the children.  The checkbox the item is
    built with is the one [resolveTreeItem] gives it, and it is checked
    exactly when the group has a child and the checkbox of every child is
    checked.  Resolving a child leaves its checkbox as it was built. *)
Theorem group_item_and_children (group : BreakpointGroup) (st : State) :
  wf_mirror (breakpoints st) ->
  map_get (g_id group) (groups st) = Some group ->
  let children := getChildren (Some (BreakpointGroupItem group)) st in
  let view := groupItemView group st in
  (List.length children <= List.length (g_breakpoints group))%nat
  /\ (List.length children = List.length (g_breakpoints group)
      <-> forall m, In m (g_breakpoints group) -> map_get m (breakpoints st) <> None)
  /\ gv_description view
     = decimal (List.length (g_breakpoints group)) ++ " breakpoints"
  /\ r_tooltip (resolveTreeItem group st)
     = g_name group ++ " - " ++ groupStateText (r_groupState (resolveTreeItem group st))
         ++ " (" ++ decimal (List.length children) ++ " breakpoints)"
  /\ gv_checkboxState view = r_checkboxState (resolveTreeItem group st)
  /\ (gv_checkboxState view = Checked
      <-> children <> []
          /\ forall child, In child children ->
               exists bp, child = BreakpointItem bp (g_id group)
                          /\ v_checkboxState (breakpointItemView bp) = Checked)
  /\ (forall child, In child children ->
        exists bp, child = BreakpointItem bp (g_id group)
                   /\ resolveBreakpointItem (b_id bp)
                        (v_checkboxState (breakpointItemView bp)) st
                      = v_checkboxState (breakpointItemView bp)).
Proof.
  intros [Hndm Hkm] Hg children view.
  assert (getBreakpointsInGroup (g_id group) st
          = defined (map (fun id => map_get id (breakpoints st)) (g_breakpoints group)))
    as Epresent by (unfold getBreakpointsInGroup; now rewrite Hg).
  assert (List.length children = List.length (getBreakpointsInGroup (g_id group) st))
    as Elen by (unfold children; cbn [getChildren]; apply length_map).
  destruct (defined_length (fun id => map_get id (breakpoints st)) (g_breakpoints group))
    as [Hle Heq].
  assert (forall child, In child children <->
                        exists bp, child = BreakpointItem bp (g_id group)
                                   /\ In bp (getBreakpointsInGroup (g_id group) st))
    as Hchild.
  { intros child. unfold children. cbn [getChildren]. rewrite in_map_iff.
    split; intros [bp [H1 H2]]; exists bp; split; auto. }
  assert (r_checkboxState (resolveTreeItem group st)
          = getCheckboxState (groupStateOf (getBreakpointsInGroup (g_id group) st)))
    as Eres.
  { rewrite <- resolveTreeItem_groupState. unfold resolveTreeItem.
    destruct (List.length (getBreakpointsInGroup (g_id group) st) =? 0)%nat;
      [reflexivity|].
    destruct (List.length (filter b_enabled (getBreakpointsInGroup (g_id group) st))
              =? 0)%nat; [reflexivity|].
    destruct (List.length (filter b_enabled (getBreakpointsInGroup (g_id group) st))
              =? List.length (getBreakpointsInGroup (g_id group) st))%nat;
      reflexivity. }
  split; [rewrite Elen, Epresent; exact Hle|].
  split; [rewrite Elen, Epresent; exact Heq|].
  split; [reflexivity|]. split; [|split; [|split]].
  - rewrite Elen. unfold resolveTreeItem.
    destruct (List.length (getBreakpointsInGroup (g_id group) st) =? 0)%nat;
      [reflexivity|].
    destruct (List.length (filter b_enabled (getBreakpointsInGroup (g_id group) st))
              =? 0)%nat; [reflexivity|].
    destruct (List.length (filter b_enabled (getBreakpointsInGroup (g_id group) st))
              =? List.length (getBreakpointsInGroup (g_id group) st))%nat;
      reflexivity.
  - rewrite Eres. reflexivity.
  - change (gv_checkboxState view)
      with (getCheckboxState (groupStateOf (getBreakpointsInGroup (g_id group) st))).
    destruct (groupStateOf_spec (getBreakpointsInGroup (g_id group) st))
      as [Hall _].
    assert (getCheckboxState (groupStateOf (getBreakpointsInGroup (g_id group) st))
            = Checked
            <-> groupStateOf (getBreakpointsInGroup (g_id group) st) = AllEnabled)
      as Hc by (destruct (groupStateOf _); cbn; split; congruence).
    rewrite Hc, Hall. split.
    + intros [Hne Hen]. split.
      * intros E. apply Hne. apply length_zero_iff_nil. rewrite <- Elen, E. reflexivity.
      * intros child Hin. apply Hchild in Hin. destruct Hin as [bp [-> Hbp]].
        exists bp. split; [reflexivity|]. cbn. now rewrite (Hen bp Hbp).
    + intros [Hne Hen]. split.
      * intros E. apply Hne. apply length_zero_iff_nil. rewrite Elen, E. reflexivity.
      * intros bp Hbp.
        destruct (Hen (BreakpointItem bp (g_id group))) as [bp' [[= <-] Hcheck]].
        -- apply Hchild. eauto.
        -- cbn in Hcheck. now destruct (b_enabled bp).
  - intros child Hin. apply Hchild in Hin. destruct Hin as [bp [-> Hbp]].
    exists bp. split; [reflexivity|].
    apply getBreakpointsInGroup_In in Hbp. destruct Hbp as [G [m [_ [_ Hget]]]].
    assert (b_id bp = m) as Em by (apply Hkm; now apply map_get_In).
    unfold resolveBreakpointItem, getBreakpoints.
    rewrite find_by_identity by exact Hkm. rewrite Em, Hget. reflexivity.
Qed.

Lemma group_item_and_children_witness :
  List.length (getChildren
                 (Some (BreakpointGroupItem (mkGroup "gA" "A" ["/gone.js:1"] true None)))
                 demoOrphan) = 0
  /\ gv_description (groupItemView (mkGroup "gA" "A" ["/gone.js:1"] true None)
                                   demoOrphan)
     = "1 breakpoints"
  /\ r_tooltip (resolveTreeItem (mkGroup "gA" "A" ["/gone.js:1"] true None) demoOrphan)
     = "A - All Disabled (0 breakpoints)".
Proof.
  assert (wf_mirror (breakpoints demoOrphan)) as Hm by (vm_compute; solve_keyed).
  destruct (group_item_and_children
              (mkGroup "gA" "A" ["/gone.js:1"] true None) demoOrphan Hm eq_refl)
    as [_ [_ [Hd [Ht _]]]].
  split; [reflexivity|]. split; [exact Hd|exact Ht].
Defined.

(** ** The label of a breakpoint item *)

Lemma split_nonempty (sep : Ascii.ascii) (s : string) : split sep s <> [].
Proof.
  destruct s as [|c s]; cbn; [discriminate|].
  destruct (Ascii.eqb c sep); [discriminate|].
  destruct (split sep s); discriminate.
Qed.

Lemma split_whole (sep : Ascii.ascii) (s : string) :
  ~ In sep (list_ascii_of_string s) -> split sep s = [s].
Proof.
  induction s as [|c s IH]; cbn; intros H; [reflexivity|].
  destruct (Ascii.eqb c sep) eqn:E.
  - apply Ascii.eqb_eq in E. exfalso. apply H. now left.
  - rewrite IH; [reflexivity|]. intros Hin. apply H. now right.
Qed.

Lemma split_app (sep : Ascii.ascii) (d r : string) :
  split sep (d ++ String sep r) = (split sep d ++ split sep r)%list.
Proof.
  induction d as [|c d IH]; cbn.
  - now rewrite Ascii.eqb_refl.
  - destruct (Ascii.eqb c sep); [now rewrite IH|].
    rewrite IH. destruct (split sep d) as [|h t] eqn:E; [|reflexivity].
    now elim (split_nonempty sep d).
Qed.

Lemma last_app_nonempty {A : Type} (l1 l2 : list A) (d : A) :
  l2 <> [] -> last (l1 ++ l2) d = last l2 d.
Proof.
  intros H. induction l1 as [|x l1 IH]; [reflexivity|].
  cbn [app]. destruct (l1 ++ l2)%list eqn:E.
  - apply app_eq_nil in E. destruct E as [_ E]. contradiction.
  - rewrite <- E in *. cbn [last]. rewrite E. rewrite <- E. exact IH.
Qed.

(** X19: the label of a breakpoint item is the file name without its
    directories: for a path that ends in a name after a slash, the name; for a
    path without a slash, the path; and for a path that ends in a slash, the
    whole path, since the part after the last slash is empty. *)
Theorem fileName_is_last_segment (d name : string) :
  ~ In slash (list_ascii_of_string name) ->
  fileName name = name
  /\ fileName (d ++ "/") = d ++ "/"
  /\ (name <> "" -> fileName (d ++ "/" ++ name) = name).
Proof.
  intros Hname.
  change "/" with (String slash "").
  split; [|split].
  - unfold fileName. rewrite split_whole by exact Hname. cbn [last].
    destruct (name =? "") eqn:E; [|reflexivity].
    apply String.eqb_eq in E. now subst.
  - unfold fileName. rewrite split_app.
    rewrite last_app_nonempty by apply split_nonempty. reflexivity.
  - intros Hne. unfold fileName.
    change (String slash "" ++ name) with (String slash name).
    rewrite split_app. rewrite last_app_nonempty by apply split_nonempty.
    rewrite split_whole by exact Hname. cbn [last].
    apply String.eqb_neq in Hne. now rewrite Hne.
Qed.

Lemma fileName_is_last_segment_witness :
  fileName "/src/app/main.ts" = "main.ts"
  /\ v_label (breakpointItemView
                (mkInfo "/src/app/main.ts:3" "/src/app/main.ts" 3 None None None None
                        true))
     = "main.ts".
Proof.
  assert (~ In slash (list_ascii_of_string "main.ts")) as H.
  { cbn. intros Hin.
    repeat (destruct Hin as [Hin|Hin]; [discriminate Hin|]). exact Hin. }
  split.
  - exact (proj2 (proj2 (fileName_is_last_segment "/src/app" "main.ts" H))
                 ltac:(discriminate)).
  - exact (proj2 (proj2 (fileName_is_last_segment "/src/app" "main.ts" H))
                 ltac:(discriminate)).
Defined.

(** ** Moving one breakpoint *)

(** X20: "move breakpoint to group", with a group picked that the manager has
    and when no identity was in two groups before: the breakpoint, when the
    mirror holds it, is afterwards a member of the picked group and of no
    other, also when it was in that group already; every other identity is a
    member of exactly the groups it was a member of. *)
Theorem moveBreakpointToGroup_lands_in_target (element : option TreeItem)
  (breakpointId : string) (sel : BreakpointGroup) (st : State) :
  wf_groups (groups st) -> exclusive (groups st) ->
  Command.breakpointIdOf element = Some breakpointId ->
  map_get (g_id sel) (groups st) <> None ->
  map_get breakpointId (breakpoints st) <> None ->
  let st' := Command.moveBreakpointToGroup element (Some sel) st in
  (forall k, In breakpointId (members k (groups st')) <-> k = g_id sel)
  /\ (forall id k, id <> breakpointId ->
                   In id (members k (groups st')) <-> In id (members k (groups st)))
  /\ exclusive (groups st').
Proof.
  intros Hwf Hex Hel Htarget Hheld st'.
  assert ((List.length (getGroups st) =? 0)%nat = false) as Hgroups.
  { destruct (map_get (g_id sel) (groups st)) as [g|] eqn:Eg; [|congruence].
    apply (getGroups_nonempty g). apply In_values_get. exists (g_id sel).
    now apply map_get_In. }
  unfold st', Command.moveBreakpointToGroup. rewrite Hel, Hgroups.
  cbn [groups emit].
  destruct (moveOne_members breakpointId sel st Hwf Htarget) as [_ [Hother Hmoved]].
  split; [|split; [exact Hother|]].
  - intros k. rewrite (Hmoved Hex k). tauto.
  - now apply moveOne_exclusive.
Qed.

Lemma moveBreakpointToGroup_lands_in_target_witness :
  In "/a.js:10" (members "gA" (groups demoAB))
  /\ members "gB"
       (groups (Command.moveBreakpointToGroup
                  (Some demoItemA) (Some (mkGroup "gB" "B" [] true None)) demoAB))
     = ["/a.js:10"]
  /\ ~ In "/a.js:10"
         (members "gA"
            (groups (Command.moveBreakpointToGroup
                       (Some demoItemA) (Some (mkGroup "gB" "B" [] true None)) demoAB))).
Proof.
  assert (wf_groups (groups demoAB)) as Hg by (vm_compute; solve_keyed).
  assert (exclusive (groups demoAB)) as Hex.
  { intros id k1 k2.
    change (groups demoAB)
      with [("gA", mkGroup "gA" "A" ["/a.js:10"] true None);
            ("gB", mkGroup "gB" "B" [] true None)].
    rewrite !members_cons, !members_nil.
    destruct ("gA" =? k1) eqn:E1; destruct ("gA" =? k2) eqn:E2;
      destruct ("gB" =? k1); destruct ("gB" =? k2); cbn; try tauto.
    all: apply String.eqb_eq in E1, E2; congruence. }
  destruct (moveBreakpointToGroup_lands_in_target
              (Some demoItemA) "/a.js:10" (mkGroup "gB" "B" [] true None) demoAB
              Hg Hex eq_refl ltac:(vm_compute; discriminate)
              ltac:(vm_compute; discriminate)) as [H _].
  split; [vm_compute; tauto|]. split; [reflexivity|].
  intros Hin. apply H in Hin. discriminate Hin.
Defined.

(** ** Flags changed in the editor *)

Lemma jsmap_ext {V : Type} (m1 m2 : JsMap V) :
  map_keys m1 = map_keys m2 ->
  NoDup (map_keys m1) ->
  (forall k, map_get k m1 = map_get k m2) ->
  m1 = m2.
Proof.
  revert m2. induction m1 as [|[k1 v1] m1 IH]; intros [|[k2 v2] m2] Hk Hnd Hget;
    try discriminate Hk; [reflexivity|].
  cbn in Hk. injection Hk as Ek Hk. subst k2.
  inversion Hnd as [|x xs Hx Hnd']; subst.
  pose proof (Hget k1) as H1. cbn in H1. rewrite String.eqb_refl in H1.
  injection H1 as <-. f_equal. apply IH; [exact Hk|exact Hnd'|].
  intros k. specialize (Hget k). cbn in Hget.
  destruct (k1 =? k) eqn:E; [|exact Hget].
  apply String.eqb_eq in E. subst k.
  transitivity (@None V); [|symmetry]; apply map_get_None; [exact Hx|].
  unfold map_keys in *. now rewrite <- Hk.
Qed.

Lemma mirror_keys_withFlags (f : nat -> bool) (l : list Breakpoint)
  (acc acc' : JsMap BreakpointInfo) :
  map_keys acc' = map_keys acc ->
  map_keys
    (fold_left
       (fun m bp =>
          match bp with
          | Source b => map_set (generateBreakpointId b) (toBreakpointInfo b) m
          | Function _ _ _ => m
          end)
       (withFlags f l) acc')
  = map_keys
      (fold_left
         (fun m bp =>
            match bp with
            | Source b => map_set (generateBreakpointId b) (toBreakpointInfo b) m
            | Function _ _ _ => m
            end)
         l acc).
Proof.
  revert acc acc'. induction l as [|bp l IH]; intros acc acc' H; cbn [withFlags map fold_left];
    [exact H|].
  apply IH. destruct bp as [b|u e n]; [|exact H].
  rewrite !map_set_keys. change (generateBreakpointId _) with (generateBreakpointId b).
  now rewrite H.
Qed.

Lemma findSourceBreakpoint_withFlags (f : nat -> bool) (k : string)
  (l : list Breakpoint) :
  findSourceBreakpoint k (withFlags f l)
  = option_map
      (fun b => mkSource (sb_uid b) (sb_location b) (f (sb_uid b)) (sb_condition b)
                         (sb_hitCondition b) (sb_logMessage b))
      (findSourceBreakpoint k l).
Proof.
  induction l as [|bp l IH]; cbn [withFlags map findSourceBreakpoint]; [reflexivity|].
  destruct bp as [b|u e n]; [|exact IH].
  change (generateBreakpointId (mkSource _ _ _ _ _ _)) with (generateBreakpointId b).
  destruct (generateBreakpointId b =? k); [reflexivity|exact IH].
Qed.

Lemma rev_withFlags (f : nat -> bool) (l : list Breakpoint) :
  rev (withFlags f l) = withFlags f (rev l).
Proof. unfold withFlags. now rewrite map_rev. Qed.

(** X21: when the user ticks or unticks breakpoints in the editor itself, so
    that the editor's list keeps its objects and changes flags only, and the
    notification names no addition and no removal, the manager patches the
    flags of the mirror; from a mirror in step the result is the mirror a
    fresh read of the editor would give. *)
Theorem editor_flag_changes_reach_mirror (f : nat -> bool)
  (e : BreakpointsChangeEvent) (st : State) :
  breakpoints st = mirrorOf (vscodeBreakpoints st) ->
  added e = [] -> removed e = [] ->
  let st' :=
    onDidChangeBreakpoints e (with_host (withFlags f (vscodeBreakpoints st)) st) in
  breakpoints st' = mirrorOf (vscodeBreakpoints st')
  /\ vscodeBreakpoints st' = withFlags f (vscodeBreakpoints st).
Proof.
  intros Hsync Ha Hr st'. unfold st', onDidChangeBreakpoints.
  rewrite Ha, Hr. cbn [List.length Nat.ltb Nat.leb orb].
  split; [|reflexivity].
  cbn [updateBreakpointStates breakpoints vscodeBreakpoints fireGroupsChanged emit
       with_breakpoints with_host].
  rewrite Hsync. apply jsmap_ext.
  - rewrite updateStates_keys. symmetry. now apply mirror_keys_withFlags.
  - rewrite updateStates_keys. apply wf_mirror_mirrorOf.
  - intros k. rewrite updateStates_get, !mirrorOf_get.
    rewrite rev_withFlags, findSourceBreakpoint_withFlags.
    destruct (findSourceBreakpoint k (rev (vscodeBreakpoints st))) as [b|];
      reflexivity.
Qed.

Lemma editor_flag_changes_reach_mirror_witness :
  breakpoints demoAB = mirrorOf (vscodeBreakpoints demoAB)
  /\ option_map b_enabled
       (map_get "/a.js:10"
          (breakpoints
             (onDidChangeBreakpoints
                (mkEvent [] []
                   [Source (mkSource 0 (mkLocation "/a.js" 9 0) false None None None)])
                (with_host (withFlags (fun _ => false) (vscodeBreakpoints demoAB))
                           demoAB))))
     = Some false.
Proof.
  split; [reflexivity|].
  rewrite (proj1 (editor_flag_changes_reach_mirror
                    (fun _ => false)
                    (mkEvent [] []
                       [Source (mkSource 0 (mkLocation "/a.js" 9 0) false None None None)])
                    demoAB eq_refl eq_refl eq_refl)).
  reflexivity.
Defined.

(** ** A reachable state *)

